(** * GeoEncode: a 6-byte encoding of latitude-longitude coordinates

    A shallow embedding of [geoencode.cc] (namespace [GeoEncode]) and the
    properties of its encoder, decoder and bounding-box decoder.

    Numeric model.  A C++ [int] or [unsigned] is a [Z]; the conversion of
    an [int] expression to [unsigned] is written out as a reduction modulo
    [2^32].  A [char] is a [byte]; [char(e)] keeps the low 8 bits of [e]
    and reading through [unsigned char] gives a value in [0..255].  A
    [std::string] is a [list byte].  A C++ [double] is a rational ([Q]),
    and the code is embedded twice:

    - in [GeoEncode] the operations [+ - * /] on doubles are the exact
      ones.  The properties of the bytes, of the frame of [encode], of
      truncated buffers and of the branches of the decoders are stated on
      it: they do not depend on how an operation rounds;
    - in [GeoEncode64] every operation on doubles is followed by its
      rounding to binary64 ([Double.rnd]: to the nearest double, halfway
      cases to the even significand).  The properties of [encode] followed
      by [decode], and of the box decoder on encoded coordinates, are
      stated on it.

    In both, the comparisons, [fmod] and [round] are the exact ones, as
    they are in IEEE arithmetic.  The exponent range of a double is not
    bounded in [Double.rnd]: overflow, underflow to subnormal numbers,
    infinities and NaN are not modelled. *)

From Stdlib Require Import ZArith QArith Qround Qabs Qpower Lia Lqa Bool.
From coqutil Require Import Byte.
From stdpp Require Import list.

Local Open Scope Z_scope.

(** ** Numeric primitives of <cmath> *)

Module CMath.

(** [x < y] on doubles. *)
Definition Qltb (x y : Q) : bool := negb (Qle_bool y x).

(** [round]: to the nearest integer, halfway cases away from zero. *)
Definition round (x : Q) : Z :=
  if Qle_bool 0 x then Qfloor (x + (1 # 2))%Q
  else - Qfloor (- x + (1 # 2))%Q.

(** Truncation toward zero. *)
Definition trunc (x : Q) : Z :=
  if Qle_bool 0 x then Qfloor x else Qceiling x.

(** [fmod x y]: [x - n * y] where [n] is [x / y] truncated toward zero, so
    that the result has the sign of [x] and magnitude below [|y|]. *)
Definition fmod (x y : Q) : Q := (x - inject_Z (trunc (x / y)) * y)%Q.

(** Conversion of an [int] expression to [unsigned]. *)
Definition to_unsigned (z : Z) : Z := z mod 2 ^ 32.

(** [char(e)] for an integer expression [e]. *)
Definition char (z : Z) : byte := byte.of_Z z.

End CMath.

Import CMath.

(** ** Arithmetic of [double]: rounding to binary64 *)

Module Double.

(** The largest relative error of one correctly rounded operation,
    [2^-53]. *)
Definition unit_roundoff : Q := 1 # 9007199254740992.

(** [floor (log2 |x|)], for [x] other than 0. *)
Definition ilog2 (x : Q) : Z :=
  let l := Z.log2 (Z.abs (Qnum x)) - Z.log2 (Z.pos (Qden x)) in
  if Qle_bool (2 ^ l)%Q (Qabs x) then l else l - 1.

(** The nearest integer, a halfway case going to the even one. *)
Definition nearest_even (x : Q) : Z :=
  let f := Qfloor x in
  match (x - inject_Z f ?= 1 # 2)%Q with
  | Lt => f
  | Gt => f + 1
  | Eq => if Z.even f then f else f + 1
  end.

(** The [double] that an operation with exact result [x] returns: [x] is
    scaled by a power of two to a significand of 53 bits, rounded to the
    nearest integer with halfway cases to even, and scaled back.  The
    exponent is not bounded. *)
Definition rnd (x : Q) : Q :=
  if Qeq_bool x 0 then 0%Q
  else
    let e := ilog2 x - 52 in
    Qred (inject_Z (nearest_even (x / 2 ^ e)) * 2 ^ e)%Q.

End Double.

Import Double.

Module GeoEncode.

(** ** Data model *)

(** [struct LatLongCoord]. *)
Record LatLongCoord : Type := mkLatLongCoord { lat : Q; lon : Q }.

(** Two coordinates denote the same pair of numbers. *)
Definition coord_eq (a b : LatLongCoord) : Prop :=
  (lat a == lat b)%Q /\ (lon a == lon b)%Q.

(** [struct DegreesMinutesSeconds]. *)
Record DegreesMinutesSeconds : Type := mkDMS
  { degrees : Z; minutes : Z; seconds : Z; sec16ths : Z }.

(** The constructor [DegreesMinutesSeconds(int angle_16th_secs)]; [/] and
    [%] on [int] truncate toward zero. *)
Definition DMS (angle_16th_secs : Z) : DegreesMinutesSeconds :=
  let degrees := Z.quot angle_16th_secs (3600 * 16) in
  let angle_16th_secs := Z.rem angle_16th_secs (3600 * 16) in
  let minutes := Z.quot angle_16th_secs (60 * 16) in
  let angle_16th_secs := Z.rem angle_16th_secs (60 * 16) in
  let seconds := Z.quot angle_16th_secs 16 in
  let sec16ths := Z.rem angle_16th_secs 16 in
  mkDMS degrees minutes seconds sec16ths.

(** ** The encoder *)

(** The six writes [result[old_len + i] = char(...)] of [encode], on a
    string already resized. *)
Definition write_fields (lat_dms lon_dms : DegreesMinutesSeconds)
    (old_len : nat) (result : list byte) : list byte :=
  let dd := to_unsigned (degrees lat_dms + degrees lon_dms * 181) in
  let result := <[old_len := char (Z.shiftr dd 8)]> result in
  let result := <[(old_len + 1)%nat := char (Z.land dd 255)]> result in
  let result :=
    <[(old_len + 2)%nat :=
        char (Z.lor (Z.shiftl (Z.quot (minutes lat_dms) 4) 4)
                    (Z.quot (minutes lon_dms) 4))]> result in
  let result :=
    <[(old_len + 3)%nat :=
        char (Z.lor (Z.lor (Z.lor
                (Z.shiftl (Z.rem (minutes lat_dms) 4) 6)
                (Z.shiftl (Z.rem (minutes lon_dms) 4) 4))
                (Z.shiftl (Z.quot (seconds lat_dms) 15) 2))
                (Z.quot (seconds lon_dms) 15))]> result in
  let result :=
    <[(old_len + 4)%nat :=
        char (Z.lor (Z.shiftl (Z.rem (seconds lat_dms) 15) 4)
                    (Z.rem (seconds lon_dms) 15))]> result in
  let result :=
    <[(old_len + 5)%nat :=
        char (Z.lor (Z.shiftl (sec16ths lat_dms) 4)
                    (sec16ths lon_dms))]> result in
  result.

(** [bool encode(double lat, double lon, string & result)], the later
    version of the source: the longitude is wrapped before the pole
    check.  The pair is the returned flag and the final [result]. *)
Definition encode (lat lon : Q) (result : list byte) : bool * list byte :=
  if Qltb lat (-90)%Q || Qltb 90%Q lat then (false, result)
  else
    let lon := fmod lon 360%Q in
    let lon := if Qltb lon 0%Q then (lon + 360)%Q else lon in
    let lat_16ths := round ((lat + 90) * 57600)%Q in
    let lon_16ths :=
      if (lat_16ths =? 0) || (lat_16ths =? 57600 * 180) then 0
      else
        let lon_16ths := round (lon * 57600)%Q in
        if lon_16ths =? 57600 * 360 then 0 else lon_16ths in
    let lat_dms := DMS lat_16ths in
    let lon_dms := DMS lon_16ths in
    let old_len := length result in
    let result := resize (old_len + 6) Byte.x00 result in
    (true, write_fields lat_dms lon_dms old_len result).

(** The earlier version of [encode] in the source: the longitude is
    wrapped only when the quantized latitude is not a pole. *)
Definition encode_v1 (lat lon : Q) (result : list byte) : bool * list byte :=
  if Qltb lat (-90)%Q || Qltb 90%Q lat then (false, result)
  else
    let lat_int := round ((lat + 90) * 57600)%Q in
    let lon_int :=
      if (lat_int =? 0) || (lat_int =? 57600 * 180) then 0
      else
        let lon := fmod lon 360%Q in
        let lon := if Qltb lon 0%Q then (lon + 360)%Q else lon in
        let lon_int := round (lon * 57600)%Q in
        if lon_int =? 57600 * 360 then 0 else lon_int in
    let lat_dms := DMS lat_int in
    let lon_dms := DMS lon_int in
    let old_len := length result in
    let result := resize (old_len + 6) Byte.x00 result in
    (true, write_fields lat_dms lon_dms old_len result).

(** ** The decoder *)

(** [ptr[i]] read through [const unsigned char *].  The source does not
    check that the buffer holds two bytes; a read past the end of the
    list gives 0 here, and is outside the contract of [decode]. *)
Definition ptr (value : list byte) (i : nat) : Z :=
  byte.unsigned (nth i value Byte.x00).

(** [LatLongCoord decode(const char * value, size_t len)]. *)
Definition decode_buf (value : list byte) (len : nat) : LatLongCoord :=
  let tmp := Z.lor (Z.shiftl (Z.land (ptr value 0) 255) 8)
                   (Z.land (ptr value 1) 255) in
  let result_lat := inject_Z (tmp mod 181) in
  let result_lon := inject_Z (tmp / 181) in
  let '(result_lat, result_lon) :=
    if (2 <? len)%nat then
      let tmp := ptr value 2 in
      let lat_m := inject_Z (Z.shiftr tmp 4 * 4) in
      let lon_m := inject_Z (Z.land tmp 15 * 4) in
      let '(lat_m, lon_m) :=
        if (3 <? len)%nat then
          let tmp := ptr value 3 in
          let lat_m := (lat_m + inject_Z (Z.land (Z.shiftr tmp 6) 3))%Q in
          let lon_m := (lon_m + inject_Z (Z.land (Z.shiftr tmp 4) 3))%Q in
          let lat_s := inject_Z (Z.land (Z.shiftr tmp 2) 3 * 15) in
          let lon_s := inject_Z (Z.land tmp 3 * 15) in
          let '(lat_s, lon_s) :=
            if (4 <? len)%nat then
              let tmp := ptr value 4 in
              let lat_s := (lat_s + inject_Z (Z.land (Z.shiftr tmp 4) 15))%Q in
              let lon_s := (lon_s + inject_Z (Z.land tmp 15))%Q in
              if (5 <? len)%nat then
                let tmp := ptr value 5 in
                ((lat_s + inject_Z (Z.shiftr tmp 4) / 16)%Q,
                 (lon_s + inject_Z (Z.land tmp 15) / 16)%Q)
              else (lat_s, lon_s)
            else (lat_s, lon_s) in
          ((lat_m + lat_s / 60)%Q, (lon_m + lon_s / 60)%Q)
        else (lat_m, lon_m) in
      ((result_lat + lat_m / 60)%Q, (result_lon + lon_m / 60)%Q)
    else (result_lat, result_lon) in
  mkLatLongCoord (result_lat - 90)%Q result_lon.

(** [LatLongCoord decode(const std::string & value)]. *)
Definition decode (value : list byte) : LatLongCoord :=
  decode_buf value (length value).

(** The overload [bool encode(const LatLongCoord & coord, std::string &
    result)] of the header. *)
Definition encode_coord (coord : LatLongCoord) (result : list byte)
    : bool * list byte :=
  encode (lat coord) (lon coord) result.

(** ** The decoder with a bounding box *)

(** [calc_latlon_16ths]: the two [int &] results as a pair. *)
Definition calc_latlon_16ths (lat lon : Q) : Z * Z :=
  let lat_16ths := round ((lat + 90) * 57600)%Q in
  let lon_16ths := round (lon * 57600)%Q in
  let lon_16ths := if lon_16ths =? 57600 * 360 then 0 else lon_16ths in
  (lat_16ths, lon_16ths).

(** [class DecoderWithBoundingBox]; [start1] and [start2] are
    [unsigned char]. *)
Record DecoderWithBoundingBox : Type := mkBox
  { lon1 : Q; lon2 : Q; min_lat : Q; max_lat : Q;
    start1 : Z; start2 : Z;
    include_poles : bool;
    discontinuous_longitude_range : bool }.

(** The constructor [DecoderWithBoundingBox(lat1, lon1_, lat2, lon2_)]. *)
Definition new_DecoderWithBoundingBox (lat1 lon1_ lat2 lon2_ : Q)
    : DecoderWithBoundingBox :=
  let include_poles := false in
  let lon1 := fmod lon1_ 360%Q in
  let lon1 := if Qltb lon1 0%Q then (lon1 + 360)%Q else lon1 in
  let lon2 := fmod lon2_ 360%Q in
  let lon2 := if Qltb lon2 0%Q then (lon2 + 360)%Q else lon2 in
  let '(lat_16ths, lon_16ths) := calc_latlon_16ths lat1 lon1 in
  let include_poles :=
    if (lat_16ths =? 0) || (lat_16ths =? 57600 * 180) then true
    else include_poles in
  let dd := to_unsigned (Z.quot lat_16ths (3600 * 16)
                         + Z.quot lon_16ths (3600 * 16) * 181) in
  let start1 := byte.unsigned (char (Z.shiftr dd 8)) in
  let '(lat_16ths, lon_16ths) := calc_latlon_16ths lat2 lon2 in
  let include_poles :=
    if (lat_16ths =? 0) || (lat_16ths =? 57600 * 180) then true
    else include_poles in
  let dd := to_unsigned (Z.quot lat_16ths (3600 * 16)
                         + Z.quot lon_16ths (3600 * 16) * 181) in
  let start2 := byte.unsigned (char (Z.shiftr dd 8)) in
  mkBox lon1 lon2 lat1 lat2 start1 start2 include_poles (Qltb lon2 lon1).

(** [bool DecoderWithBoundingBox::decode(const std::string & value,
    LatLongCoord & result) const]: the returned flag and the final
    contents of the out-parameter [result].  [bb_decode_checked] is the
    part of the body from the call of [GeoEncode::decode] on, reached on
    every path that the first-byte test does not reject. *)
Definition bb_decode_checked (bb : DecoderWithBoundingBox)
    (value : list byte) (result : LatLongCoord) : bool * LatLongCoord :=
  let decoded := decode value in
  if Qltb (lat decoded) (min_lat bb) || Qltb (max_lat bb) (lat decoded)
  then (false, result)
  else if Qeq_bool (lat decoded) (-90)%Q || Qeq_bool (lat decoded) 90%Q
  then (true, decoded)
  else if discontinuous_longitude_range bb then
    if Qltb (lon2 bb) (lon decoded) && Qltb (lon decoded) (lon1 bb)
    then (false, result)
    else (true, decoded)
  else
    if Qltb (lon decoded) (lon1 bb) || Qltb (lon2 bb) (lon decoded)
    then (false, result)
    else (true, decoded).

Definition bb_decode (bb : DecoderWithBoundingBox) (value : list byte)
    (result : LatLongCoord) : bool * LatLongCoord :=
  let start := ptr value 0 in
  if discontinuous_longitude_range bb then
    if (start2 bb <? start) && (start <? start1 bb) then
      if negb (include_poles bb && (start =? 0)) then (false, result)
      else bb_decode_checked bb value result
    else bb_decode_checked bb value result
  else
    if (start <? start1 bb) || (start2 bb <? start) then
      if negb (include_poles bb && (start =? 0)) then (false, result)
      else bb_decode_checked bb value result
    else bb_decode_checked bb value result.

End GeoEncode.

Import GeoEncode.

(** * The code with the rounding of each [double] operation

    The same functions with [rnd] around every operation on [double]s
    whose exact result a [double] need not hold.  The structs, the angle
    splitter, the six writes and [ptr] are those of [GeoEncode]: they work
    on integers and bytes. *)

Module GeoEncode64.

(** [bool encode(double lat, double lon, string & result)]. *)
Definition encode (lat lon : Q) (result : list byte) : bool * list byte :=
  if Qltb lat (-90)%Q || Qltb 90%Q lat then (false, result)
  else
    let lon := fmod lon 360%Q in
    let lon := if Qltb lon 0%Q then rnd (lon + 360)%Q else lon in
    let lat_16ths := round (rnd (rnd (lat + 90) * 57600))%Q in
    let lon_16ths :=
      if (lat_16ths =? 0) || (lat_16ths =? 57600 * 180) then 0
      else
        let lon_16ths := round (rnd (lon * 57600))%Q in
        if lon_16ths =? 57600 * 360 then 0 else lon_16ths in
    let lat_dms := DMS lat_16ths in
    let lon_dms := DMS lon_16ths in
    let old_len := length result in
    let result := resize (old_len + 6) Byte.x00 result in
    (true, write_fields lat_dms lon_dms old_len result).

(** [LatLongCoord decode(const char * value, size_t len)]. *)
Definition decode_buf (value : list byte) (len : nat) : LatLongCoord :=
  let tmp := Z.lor (Z.shiftl (Z.land (ptr value 0) 255) 8)
                   (Z.land (ptr value 1) 255) in
  let result_lat := inject_Z (tmp mod 181) in
  let result_lon := inject_Z (tmp / 181) in
  let '(result_lat, result_lon) :=
    if (2 <? len)%nat then
      let tmp := ptr value 2 in
      let lat_m := inject_Z (Z.shiftr tmp 4 * 4) in
      let lon_m := inject_Z (Z.land tmp 15 * 4) in
      let '(lat_m, lon_m) :=
        if (3 <? len)%nat then
          let tmp := ptr value 3 in
          let lat_m :=
            rnd (lat_m + inject_Z (Z.land (Z.shiftr tmp 6) 3))%Q in
          let lon_m :=
            rnd (lon_m + inject_Z (Z.land (Z.shiftr tmp 4) 3))%Q in
          let lat_s := inject_Z (Z.land (Z.shiftr tmp 2) 3 * 15) in
          let lon_s := inject_Z (Z.land tmp 3 * 15) in
          let '(lat_s, lon_s) :=
            if (4 <? len)%nat then
              let tmp := ptr value 4 in
              let lat_s :=
                rnd (lat_s + inject_Z (Z.land (Z.shiftr tmp 4) 15))%Q in
              let lon_s := rnd (lon_s + inject_Z (Z.land tmp 15))%Q in
              if (5 <? len)%nat then
                let tmp := ptr value 5 in
                (rnd (lat_s + rnd (inject_Z (Z.shiftr tmp 4) / 16))%Q,
                 rnd (lon_s + rnd (inject_Z (Z.land tmp 15) / 16))%Q)
              else (lat_s, lon_s)
            else (lat_s, lon_s) in
          (rnd (lat_m + rnd (lat_s / 60))%Q,
           rnd (lon_m + rnd (lon_s / 60))%Q)
        else (lat_m, lon_m) in
      (rnd (result_lat + rnd (lat_m / 60))%Q,
       rnd (result_lon + rnd (lon_m / 60))%Q)
    else (result_lat, result_lon) in
  mkLatLongCoord (rnd (result_lat - 90))%Q result_lon.

(** [LatLongCoord decode(const std::string & value)]. *)
Definition decode (value : list byte) : LatLongCoord :=
  decode_buf value (length value).

(** [calc_latlon_16ths]. *)
Definition calc_latlon_16ths (lat lon : Q) : Z * Z :=
  let lat_16ths := round (rnd (rnd (lat + 90) * 57600))%Q in
  let lon_16ths := round (rnd (lon * 57600))%Q in
  let lon_16ths := if lon_16ths =? 57600 * 360 then 0 else lon_16ths in
  (lat_16ths, lon_16ths).

(** The constructor [DecoderWithBoundingBox(lat1, lon1_, lat2, lon2_)]. *)
Definition new_DecoderWithBoundingBox (lat1 lon1_ lat2 lon2_ : Q)
    : DecoderWithBoundingBox :=
  let include_poles := false in
  let lon1 := fmod lon1_ 360%Q in
  let lon1 := if Qltb lon1 0%Q then rnd (lon1 + 360)%Q else lon1 in
  let lon2 := fmod lon2_ 360%Q in
  let lon2 := if Qltb lon2 0%Q then rnd (lon2 + 360)%Q else lon2 in
  let '(lat_16ths, lon_16ths) := calc_latlon_16ths lat1 lon1 in
  let include_poles :=
    if (lat_16ths =? 0) || (lat_16ths =? 57600 * 180) then true
    else include_poles in
  let dd := to_unsigned (Z.quot lat_16ths (3600 * 16)
                         + Z.quot lon_16ths (3600 * 16) * 181) in
  let start1 := byte.unsigned (char (Z.shiftr dd 8)) in
  let '(lat_16ths, lon_16ths) := calc_latlon_16ths lat2 lon2 in
  let include_poles :=
    if (lat_16ths =? 0) || (lat_16ths =? 57600 * 180) then true
    else include_poles in
  let dd := to_unsigned (Z.quot lat_16ths (3600 * 16)
                         + Z.quot lon_16ths (3600 * 16) * 181) in
  let start2 := byte.unsigned (char (Z.shiftr dd 8)) in
  mkBox lon1 lon2 lat1 lat2 start1 start2 include_poles (Qltb lon2 lon1).

(** [DecoderWithBoundingBox::decode]: the part from the call of
    [GeoEncode::decode] on, and the whole body. *)
Definition bb_decode_checked (bb : DecoderWithBoundingBox)
    (value : list byte) (result : LatLongCoord) : bool * LatLongCoord :=
  let decoded := decode value in
  if Qltb (lat decoded) (min_lat bb) || Qltb (max_lat bb) (lat decoded)
  then (false, result)
  else if Qeq_bool (lat decoded) (-90)%Q || Qeq_bool (lat decoded) 90%Q
  then (true, decoded)
  else if discontinuous_longitude_range bb then
    if Qltb (lon2 bb) (lon decoded) && Qltb (lon decoded) (lon1 bb)
    then (false, result)
    else (true, decoded)
  else
    if Qltb (lon decoded) (lon1 bb) || Qltb (lon2 bb) (lon decoded)
    then (false, result)
    else (true, decoded).

Definition bb_decode (bb : DecoderWithBoundingBox) (value : list byte)
    (result : LatLongCoord) : bool * LatLongCoord :=
  let start := ptr value 0 in
  if discontinuous_longitude_range bb then
    if (start2 bb <? start) && (start <? start1 bb) then
      if negb (include_poles bb && (start =? 0)) then (false, result)
      else bb_decode_checked bb value result
    else bb_decode_checked bb value result
  else
    if (start <? start1 bb) || (start2 bb <? start) then
      if negb (include_poles bb && (start =? 0)) then (false, result)
      else bb_decode_checked bb value result
    else bb_decode_checked bb value result.

End GeoEncode64.

(** * Vocabulary of the properties

    [field_bytes] lists the six values that [write_fields] stores, and
    [lat_units], [wrap360] and [lon_units] name the intermediate values of
    [encode]; the lemmas [write_fields_append] and [encode_unfold] tie
    them to the bodies above.  The other definitions are the quantities
    the properties are stated with. *)

(** The six field bytes, in the order [encode] writes them. *)
Definition field_bytes (lat_dms lon_dms : DegreesMinutesSeconds)
    : list byte :=
  let dd := to_unsigned (degrees lat_dms + degrees lon_dms * 181) in
  [ char (Z.shiftr dd 8);
    char (Z.land dd 255);
    char (Z.lor (Z.shiftl (Z.quot (minutes lat_dms) 4) 4)
                (Z.quot (minutes lon_dms) 4));
    char (Z.lor (Z.lor (Z.lor
            (Z.shiftl (Z.rem (minutes lat_dms) 4) 6)
            (Z.shiftl (Z.rem (minutes lon_dms) 4) 4))
            (Z.shiftl (Z.quot (seconds lat_dms) 15) 2))
            (Z.quot (seconds lon_dms) 15));
    char (Z.lor (Z.shiftl (Z.rem (seconds lat_dms) 15) 4)
                (Z.rem (seconds lon_dms) 15));
    char (Z.lor (Z.shiftl (sec16ths lat_dms) 4) (sec16ths lon_dms)) ].

(** The quantized latitude: 16ths of a second from the south pole. *)
Definition lat_units (lat : Q) : Z := round ((lat + 90) * 57600)%Q.

(** [lon] wrapped to [0, 360). *)
Definition wrap360 (lon : Q) : Q :=
  let l := fmod lon 360%Q in if Qltb l 0%Q then (l + 360)%Q else l.

(** The quantized longitude: zero at a pole, the full turn folded to
    zero. *)
Definition lon_units (lat lon : Q) : Z :=
  if (lat_units lat =? 0) || (lat_units lat =? 10368000) then 0
  else
    let u := round (wrap360 lon * 57600)%Q in
    if u =? 20736000 then 0 else u.

(** The latitude [encode] stores, in degrees: [lat] shifted to [0, 180],
    rounded to the nearest 16th of a second, and shifted back. *)
Definition quantized_lat (lat : Q) : Q :=
  (inject_Z (round ((lat + 90) * 57600)) / 57600 - 90)%Q.

(** The longitude [encode] stores away from the poles, in degrees: [lon]
    wrapped to [0, 360), rounded to the nearest 16th of a second, and the
    full turn folded to zero. *)
Definition quantized_lon (lon : Q) : Q :=
  (inject_Z (round (wrap360 lon * 57600) mod 20736000) / 57600)%Q.

(** A latitude that is exactly a pole. *)
Definition is_pole (lat : Q) : Prop := (lat == -90)%Q \/ (lat == 90)%Q.

(** The direct range check of a bounding box with corners [(lat1, lon1)]
    and [(lat2, lon2)] on a coordinate [(lat, lon)]: the latitude is
    between the two corner latitudes, and the coordinate is a pole or its
    wrapped longitude is in the wrapped interval from [lon1] to [lon2],
    taken across the seam when wrapped [lon1] is above wrapped [lon2]. *)
Definition in_box (lat1 lon1 lat2 lon2 lat lon : Q) : bool :=
  Qle_bool lat1 lat && Qle_bool lat lat2
  && (Qeq_bool lat (-90)%Q || Qeq_bool lat 90%Q
      || (if Qltb (wrap360 lon2) (wrap360 lon1)
          then Qle_bool (wrap360 lon1) (wrap360 lon)
               || Qle_bool (wrap360 lon) (wrap360 lon2)
          else Qle_bool (wrap360 lon1) (wrap360 lon)
               && Qle_bool (wrap360 lon) (wrap360 lon2))).

(** A value on the grid of 16ths of a second. *)
Definition on_grid (x : Q) : Prop := exists n : Z, (x == inject_Z n / 57600)%Q.

(** The longitude units the constructor of the box decoder computes for a
    corner: [calc_latlon_16ths] on the wrapped longitude. *)
Definition corner_lon_units (lon : Q) : Z :=
  let u := round (wrap360 lon * 57600)%Q in
  if u =? 20736000 then 0 else u.

(** The first byte of the encoding of two quantized angles: the high byte
    of the degree index. *)
Definition start_of (lat_16ths lon_16ths : Z) : Z :=
  (lat_16ths / 57600 + lon_16ths / 57600 * 181) / 256.

(** The width, in degrees, of the cell that the first [k] bytes of an
    encoding identify: 1 degree for two bytes, 4 minutes for three, 15
    seconds for four, 1 second for five, a 16th of a second for six. *)
Definition cell_width (k : nat) : Q :=
  match k with
  | 0%nat | 1%nat | 2%nat => 1
  | 3%nat => 1 # 15
  | 4%nat => 1 # 240
  | 5%nat => 1 # 3600
  | _ => 1 # 57600
  end.

(** ** Vocabulary of the properties in binary64 arithmetic *)

(** The quantized latitude as [GeoEncode64.encode] computes it. *)
Definition lat_units64 (lat : Q) : Z :=
  round (rnd (rnd (lat + 90) * 57600))%Q.

(** [lon] wrapped as the code wraps it: the sum is rounded, and can be
    360 itself. *)
Definition wrap360_64 (lon : Q) : Q :=
  let l := fmod lon 360%Q in if Qltb l 0%Q then rnd (l + 360)%Q else l.

(** The quantized longitude as [GeoEncode64.encode] computes it. *)
Definition lon_units64 (lat lon : Q) : Z :=
  if (lat_units64 lat =? 0) || (lat_units64 lat =? 10368000) then 0
  else
    let u := round (rnd (wrap360_64 lon * 57600))%Q in
    if u =? 20736000 then 0 else u.

(** The longitude units that the constructor of the box decoder computes
    for a corner. *)
Definition corner_lon_units64 (lon : Q) : Z :=
  let u := round (rnd (wrap360_64 lon * 57600))%Q in
  if u =? 20736000 then 0 else u.

(** How far, in 16ths of a second, the rounding of the double operations
    of [encode] can move a value before it is rounded to an integer. *)
Definition tie_margin : Q := 5 # 1000000000.

(** How far, in degrees, the rounding of the double operations of
    [decode] can move a decoded angle. *)
Definition tolerance : Q := 1 # 1000000000000.

(** [x] is nearer to an integer than to the halfway points next to it, by
    more than [tie_margin]. *)
Definition off_tie (x : Q) : Prop :=
  exists j : Z, (Qabs (x - inject_Z j) < (1 # 2) - tie_margin)%Q.

(** A distance, in degrees, a little above half a grid step
    ([1/115200 = 0.00000868...]). *)
Definition box_margin : Q := 1 # 100000.

(** The encodings of the two poles. *)
Definition south_pole_bytes : list byte :=
  [Byte.x00; Byte.x00; Byte.x00; Byte.x00; Byte.x00; Byte.x00].

Definition north_pole_bytes : list byte :=
  [Byte.x00; Byte.xb4; Byte.x00; Byte.x00; Byte.x00; Byte.x00].

(** The doubles that the examples below use: the values that the
    literals [0.2], [23.8], [1.0/3], [1.0/7], [-89.9999999] and
    [0.200000000000001] have in C++, and [0x1.fffffffffffffp-10], the
    double just below [1/512]. *)
Definition dbl_0_2 : Q := 3602879701896397 # 18014398509481984.
Definition dbl_23_8 : Q := 6699104445713613 # 281474976710656.
Definition dbl_1_3 : Q := 6004799503160661 # 18014398509481984.
Definition dbl_1_7 : Q := 2573485501354569 # 18014398509481984.
Definition dbl_near_south : Q := - (3166593484476443 # 35184372088832).
Definition dbl_above_0_2 : Q := 3602879701896415 # 18014398509481984.
Definition just_below_1_512 : Q := 9007199254740991 # 4611686018427387904.

(** * Properties *)

(** ** Comparisons, rounding and wrapping on exact rationals *)

Section Numeric.

Lemma Qltb_lt (x y : Q) : Qltb x y = true <-> (x < y)%Q.
Proof.
  unfold Qltb. rewrite negb_true_iff.
  split.
  - intros H. apply Qnot_le_lt. intros Hle.
    apply Qle_bool_iff in Hle. congruence.
  - intros H. destruct (Qle_bool y x) eqn:E; [|reflexivity].
    apply Qle_bool_iff in E. exfalso. exact (Qlt_not_le _ _ H E).
Qed.

Lemma Qltb_ge (x y : Q) : Qltb x y = false <-> (y <= x)%Q.
Proof.
  unfold Qltb. rewrite negb_false_iff. apply Qle_bool_iff.
Qed.

Lemma inject_Z_nonneg (z : Z) : 0 <= z -> (0 <= inject_Z z)%Q.
Proof.
  intros H. change 0%Q with (inject_Z 0). rewrite <- Zle_Qle. exact H.
Qed.

Lemma inject_Z_eq (x y : Z) : x = y -> (inject_Z x == inject_Z y)%Q.
Proof. intros ->. reflexivity. Qed.

Lemma Qfloor_plus_half (n : Z) : Qfloor (inject_Z n + (1 # 2))%Q = n.
Proof.
  unfold Qfloor, Qplus, inject_Z. cbn [Qnum Qden].
  change (Z.pos (1 * 2)) with 2.
  Z.div_mod_to_equations. lia.
Qed.

Lemma round_nonneg_eq (x : Q) :
  (0 <= x)%Q -> round x = Qfloor (x + (1 # 2))%Q.
Proof.
  intros H. unfold round. apply Qle_bool_iff in H. rewrite H. reflexivity.
Qed.

(** Rounding keeps a value between two integers between them. *)
Lemma round_range (x : Q) (n : Z) :
  (0 <= x)%Q -> (x <= inject_Z n)%Q -> 0 <= round x <= n.
Proof.
  intros H0 Hn. rewrite round_nonneg_eq by exact H0. split.
  - change 0 with (Qfloor (1 # 2)). apply Qfloor_resp_le. lra.
  - pose proof (Qfloor_resp_le (x + (1 # 2)) (inject_Z n + (1 # 2))) as H.
    rewrite Qfloor_plus_half in H. apply H. lra.
Qed.

(** Rounding an integer gives it back. *)
Lemma round_inject_Z (n : Z) : 0 <= n -> round (inject_Z n) = n.
Proof.
  intros H. rewrite round_nonneg_eq by (apply inject_Z_nonneg; exact H).
  apply Qfloor_plus_half.
Qed.

Lemma fmod360_range (x : Q) :
  (-360 < fmod x 360)%Q /\ (fmod x 360 < 360)%Q.
Proof.
  unfold fmod, trunc.
  assert (Hq : (x == x / 360 * 360)%Q) by field.
  set (q := (x / 360)%Q) in *. clearbody q.
  destruct (Qle_bool 0 q) eqn:E.
  - apply Qle_bool_iff in E.
    pose proof (Qfloor_le q) as Hlo. pose proof (Qlt_floor q) as Hhi.
    rewrite inject_Z_plus in Hhi. change (inject_Z 1) with 1%Q in Hhi.
    generalize dependent (inject_Z (Qfloor q)). intros f Hlo Hhi.
    split; lra.
  - pose proof (Qle_ceiling q) as Hhi. pose proof (Qceiling_lt q) as Hlo.
    replace (Qceiling q - 1) with (Qceiling q + (-1)) in Hlo by lia.
    rewrite inject_Z_plus in Hlo.
    change (inject_Z (-1)) with (-1)%Q in Hlo.
    generalize dependent (inject_Z (Qceiling q)). intros c Hhi Hlo.
    split; lra.
Qed.

Lemma round_comp (x y : Q) : (x == y)%Q -> round x = round y.
Proof.
  intros H. unfold round.
  rewrite (Qleb_comp 0%Q 0%Q (Qeq_refl 0%Q) x y H).
  rewrite (Qfloor_comp (x + (1 # 2)) (y + (1 # 2))) by (rewrite H; reflexivity).
  rewrite (Qfloor_comp (- x + (1 # 2)) (- y + (1 # 2)))
    by (rewrite H; reflexivity).
  reflexivity.
Qed.

Lemma round_mono (x y : Q) : (0 <= x)%Q -> (x <= y)%Q -> round x <= round y.
Proof.
  intros Hx Hxy. rewrite !round_nonneg_eq by lra.
  apply Qfloor_resp_le. lra.
Qed.

Lemma Qfloor_unique (x : Q) (m : Z) :
  (inject_Z m <= x)%Q -> (x < inject_Z (m + 1))%Q -> Qfloor x = m.
Proof.
  intros Hlo Hhi.
  pose proof (Qfloor_le x) as Flo. pose proof (Qlt_floor x) as Fhi.
  assert (H1 : (inject_Z m < inject_Z (Qfloor x + 1))%Q) by lra.
  assert (H2 : (inject_Z (Qfloor x) < inject_Z (m + 1))%Q) by lra.
  rewrite <- Zlt_Qlt in H1, H2. lia.
Qed.

Lemma Qfloor_plus_Z (x : Q) (n : Z) :
  Qfloor (x + inject_Z n)%Q = Qfloor x + n.
Proof.
  apply Qfloor_unique.
  - rewrite inject_Z_plus. pose proof (Qfloor_le x). lra.
  - replace (Qfloor x + n + 1) with ((Qfloor x + 1) + n) by lia.
    rewrite inject_Z_plus. pose proof (Qlt_floor x). lra.
Qed.

#[global] Instance Qltb_comp : Proper (Qeq ==> Qeq ==> eq) Qltb.
Proof.
  intros x x' Hx y y' Hy. unfold Qltb. rewrite Hx, Hy. reflexivity.
Qed.

End Numeric.

(** ** Shifts and masks as arithmetic *)

Section Bits.

(** [|] is [+] when the set bits of the operands do not overlap. *)
Lemma lor_disjoint_add (a b k : Z) :
  0 <= k -> 0 <= b < 2 ^ k -> a mod 2 ^ k = 0 -> Z.lor a b = a + b.
Proof.
  intros Hk Hb Ha.
  assert (Hland : Z.land a b = 0).
  { apply Z.bits_inj'. intros n Hn.
    rewrite Z.land_spec, Z.bits_0.
    destruct (Z.lt_ge_cases n k) as [Hlt | Hge].
    - assert (Hpos : 0 < 2 ^ k) by (apply Z.pow_pos_nonneg; lia).
      rewrite (Z.div_mod a (2 ^ k)) by lia.
      rewrite Ha, Z.add_0_r, Z.mul_comm, Z.mul_pow2_bits_low by lia.
      reflexivity.
    - rewrite <- (Z.mod_small b (2 ^ k)) by lia.
      rewrite Z.mod_pow2_bits_high by lia.
      apply andb_false_r. }
  rewrite <- Z.lxor_lor by exact Hland.
  symmetry. apply Z.add_nocarry_lxor. exact Hland.
Qed.

Lemma unsigned_char (z : Z) : byte.unsigned (char z) = z mod 256.
Proof. unfold char. rewrite byte.unsigned_of_Z. reflexivity. Qed.

Lemma land_255 (z : Z) : Z.land z 255 = z mod 256.
Proof. change 255 with (Z.ones 8). rewrite Z.land_ones by lia. reflexivity. Qed.

Lemma land_15 (z : Z) : Z.land z 15 = z mod 16.
Proof. change 15 with (Z.ones 4). rewrite Z.land_ones by lia. reflexivity. Qed.

Lemma land_3 (z : Z) : Z.land z 3 = z mod 4.
Proof. change 3 with (Z.ones 2). rewrite Z.land_ones by lia. reflexivity. Qed.

End Bits.

Ltac bits_to_arith :=
  rewrite ?unsigned_char, ?land_255, ?land_15, ?land_3;
  rewrite ?Z.shiftr_div_pow2, ?Z.shiftl_mul_pow2 by lia;
  change (2 ^ 8) with 256; change (2 ^ 6) with 64; change (2 ^ 4) with 16;
  change (2 ^ 2) with 4.

Ltac pow2_arith :=
  change (2 ^ 8) with 256; change (2 ^ 6) with 64; change (2 ^ 4) with 16;
  change (2 ^ 2) with 4; Z.div_mod_to_equations; lia.

Section Packing.

(** The two degree bytes, read back as [decode] reads them. *)
Lemma be16_roundtrip (dd : Z) :
  0 <= dd < 65536 ->
  Z.lor (Z.shiftl (Z.land (byte.unsigned (char (Z.shiftr dd 8))) 255) 8)
        (Z.land (byte.unsigned (char (Z.land dd 255))) 255) = dd.
Proof.
  intros H. bits_to_arith.
  rewrite (lor_disjoint_add _ _ 8) by pow2_arith.
  pow2_arith.
Qed.

(** A byte of two 4-bit fields. *)
Lemma nibbles_roundtrip (h l : Z) :
  0 <= h < 16 -> 0 <= l < 16 ->
  let v := byte.unsigned (char (Z.lor (Z.shiftl h 4) l)) in
  Z.shiftr v 4 = h /\ Z.land v 15 = l /\ Z.land (Z.shiftr v 4) 15 = h.
Proof.
  intros Hh Hl v. subst v. bits_to_arith.
  rewrite (lor_disjoint_add _ _ 4) by pow2_arith.
  repeat split; pow2_arith.
Qed.

(** A byte of four 2-bit fields. *)
Lemma crumbs_roundtrip (a b c d : Z) :
  0 <= a < 4 -> 0 <= b < 4 -> 0 <= c < 4 -> 0 <= d < 4 ->
  let v := byte.unsigned (char (Z.lor (Z.lor (Z.lor
             (Z.shiftl a 6) (Z.shiftl b 4)) (Z.shiftl c 2)) d)) in
  Z.land (Z.shiftr v 6) 3 = a /\ Z.land (Z.shiftr v 4) 3 = b
  /\ Z.land (Z.shiftr v 2) 3 = c /\ Z.land v 3 = d.
Proof.
  intros Ha Hb Hc Hd v. subst v. bits_to_arith.
  rewrite (lor_disjoint_add (a * 64) (b * 16) 6) by pow2_arith.
  rewrite (lor_disjoint_add (a * 64 + b * 16) (c * 4) 4) by pow2_arith.
  rewrite (lor_disjoint_add (a * 64 + b * 16 + c * 4) d 2) by pow2_arith.
  repeat split; pow2_arith.
Qed.

(** The angle splitter on a non-negative angle. *)
Lemma DMS_fields (u : Z) :
  0 <= u ->
  degrees (DMS u) = u / 57600
  /\ 0 <= minutes (DMS u) < 60
  /\ 0 <= seconds (DMS u) < 60
  /\ 0 <= sec16ths (DMS u) < 16
  /\ u = 57600 * degrees (DMS u) + 960 * minutes (DMS u)
         + 16 * seconds (DMS u) + sec16ths (DMS u).
Proof.
  intros Hu. unfold DMS. cbv zeta. cbn [degrees minutes seconds sec16ths].
  change (3600 * 16) with 57600. change (60 * 16) with 960.
  assert (H1 : 0 <= Z.rem u 57600) by (apply Z.rem_nonneg; lia).
  assert (H2 : 0 <= Z.rem (Z.rem u 57600) 960) by (apply Z.rem_nonneg; lia).
  rewrite (Z.rem_mod_nonneg u 57600) in * by lia.
  rewrite (Z.rem_mod_nonneg (u mod 57600) 960) in * by lia.
  rewrite (Z.rem_mod_nonneg _ 16) by lia.
  rewrite !Z.quot_div_nonneg by lia.
  Z.div_mod_to_equations. lia.
Qed.

End Packing.

(** ** The bytes that [encode] appends *)

Section Appended.

(** Resizing to [old_len + 6] and writing the six positions from
    [old_len] on is an append: the old bytes are a prefix of the result. *)
Lemma write_fields_append (a b : DegreesMinutesSeconds) (s : list byte) :
  write_fields a b (length s) (resize (length s + 6) Byte.x00 s)
  = s ++ field_bytes a b.
Proof.
  rewrite resize_ge by lia.
  replace (length s + 6 - length s)%nat with 6%nat by lia.
  unfold write_fields, field_bytes. cbv zeta.
  rewrite !insert_app_r_alt by lia.
  rewrite Nat.sub_diag.
  replace (length s + 1 - length s)%nat with 1%nat by lia.
  replace (length s + 2 - length s)%nat with 2%nat by lia.
  replace (length s + 3 - length s)%nat with 3%nat by lia.
  replace (length s + 4 - length s)%nat with 4%nat by lia.
  replace (length s + 5 - length s)%nat with 5%nat by lia.
  reflexivity.
Qed.

(** [encode] in one equation. *)
Lemma encode_unfold (lat lon : Q) (s : list byte) :
  encode lat lon s =
    if Qltb lat (-90)%Q || Qltb 90%Q lat then (false, s)
    else (true, s ++ field_bytes (DMS (lat_units lat))
                                 (DMS (lon_units lat lon))).
Proof.
  unfold encode. cbv zeta.
  destruct (Qltb lat (-90)%Q || Qltb 90%Q lat); [reflexivity|].
  rewrite write_fields_append. reflexivity.
Qed.

Lemma encode_in_range (lat lon : Q) (s : list byte) :
  (-90 <= lat)%Q -> (lat <= 90)%Q ->
  encode lat lon s =
    (true, s ++ field_bytes (DMS (lat_units lat)) (DMS (lon_units lat lon))).
Proof.
  intros Hlo Hhi. rewrite encode_unfold.
  apply Qltb_ge in Hlo. apply Qltb_ge in Hhi. rewrite Hlo, Hhi.
  reflexivity.
Qed.

Lemma encode_flag (lat lon : Q) (s : list byte) :
  fst (encode lat lon s) = negb (Qltb lat (-90)%Q || Qltb 90%Q lat).
Proof.
  rewrite encode_unfold.
  destruct (Qltb lat (-90)%Q || Qltb 90%Q lat); reflexivity.
Qed.


Lemma wrap360_range (x : Q) : (0 <= wrap360 x)%Q /\ (wrap360 x < 360)%Q.
Proof.
  unfold wrap360. cbv zeta.
  pose proof (fmod360_range x) as [Hlo Hhi].
  destruct (Qltb (fmod x 360) 0) eqn:E.
  - apply Qltb_lt in E. split; lra.
  - apply Qltb_ge in E. split; lra.
Qed.

Lemma lat_units_range (lat : Q) :
  (-90 <= lat)%Q -> (lat <= 90)%Q -> 0 <= lat_units lat <= 10368000.
Proof.
  intros Hlo Hhi. unfold lat_units. apply round_range.
  - lra.
  - change (inject_Z 10368000) with 10368000%Q. lra.
Qed.

Lemma wrapped_units_range (lon : Q) :
  0 <= round (wrap360 lon * 57600)%Q <= 20736000.
Proof.
  pose proof (wrap360_range lon) as [Hlo Hhi].
  apply round_range.
  - lra.
  - change (inject_Z 20736000) with 20736000%Q. lra.
Qed.

Lemma lon_units_range (lat lon : Q) : 0 <= lon_units lat lon <= 20735999.
Proof.
  unfold lon_units. cbv zeta.
  destruct ((lat_units lat =? 0) || (lat_units lat =? 10368000)); [lia|].
  pose proof (wrapped_units_range lon) as H.
  destruct (Z.eqb_spec (round (wrap360 lon * 57600)%Q) 20736000); lia.
Qed.

End Appended.

(** ** Decoding what [encode] appended *)

Section Roundtrip.

(** The six field bytes of in-range fields decode to the angle they were
    split from. *)
Lemma decode_field_bytes (a b : DegreesMinutesSeconds) :
  0 <= degrees a <= 180 -> 0 <= degrees b <= 359 ->
  0 <= minutes a < 60 -> 0 <= minutes b < 60 ->
  0 <= seconds a < 60 -> 0 <= seconds b < 60 ->
  0 <= sec16ths a < 16 -> 0 <= sec16ths b < 16 ->
  (lat (decode (field_bytes a b)) ==
     inject_Z (57600 * degrees a + 960 * minutes a
               + 16 * seconds a + sec16ths a) / 57600 - 90)%Q
  /\ (lon (decode (field_bytes a b)) ==
     inject_Z (57600 * degrees b + 960 * minutes b
               + 16 * seconds b + sec16ths b) / 57600)%Q.
Proof.
  destruct a as [da ma sa xa], b as [db mb sb xb].
  cbn [degrees minutes seconds sec16ths].
  intros Hda Hdb Hma Hmb Hsa Hsb Hxa Hxb.
  unfold decode, decode_buf, field_bytes, ptr. cbv zeta.
  cbn [length nth Nat.ltb Nat.leb lat lon degrees minutes seconds sec16ths].
  unfold to_unsigned. rewrite (Z.mod_small (da + db * 181)) by lia.
  rewrite be16_roundtrip by lia.
  rewrite !Z.quot_div_nonneg, !Z.rem_mod_nonneg by lia.
  pose proof (nibbles_roundtrip (ma / 4) (mb / 4)) as N2.
  pose proof (crumbs_roundtrip (ma mod 4) (mb mod 4) (sa / 15) (sb / 15)) as N3.
  pose proof (nibbles_roundtrip (sa mod 15) (sb mod 15)) as N4.
  pose proof (nibbles_roundtrip xa xb) as N5.
  cbv zeta in N2, N3, N4, N5.
  destruct N2 as (E2a & E2b & _); [Z.div_mod_to_equations; lia ..|].
  destruct N3 as (E3a & E3b & E3c & E3d); [Z.div_mod_to_equations; lia ..|].
  destruct N4 as (_ & E4b & E4a); [Z.div_mod_to_equations; lia ..|].
  destruct N5 as (E5a & E5b & _); [lia ..|].
  rewrite E2a, E2b, E3a, E3b, E3c, E3d, E4a, E4b, E5a, E5b.
  assert (Hlat : (inject_Z ((da + db * 181) mod 181) == inject_Z da)%Q).
  { apply inject_Z_eq. Z.div_mod_to_equations. lia. }
  assert (Hlon : (inject_Z ((da + db * 181) / 181) == inject_Z db)%Q).
  { apply inject_Z_eq. Z.div_mod_to_equations. lia. }
  assert (Hm : forall m, (inject_Z (m / 4 * 4) + inject_Z (m mod 4)
                          == inject_Z m)%Q).
  { intros m. rewrite <- inject_Z_plus. apply inject_Z_eq.
    Z.div_mod_to_equations. lia. }
  assert (Hs : forall s, (inject_Z (s / 15 * 15) + inject_Z (s mod 15)
                          == inject_Z s)%Q).
  { intros s. rewrite <- inject_Z_plus. apply inject_Z_eq.
    Z.div_mod_to_equations. lia. }
  rewrite Hlat, Hlon, !Hm, !Hs.
  rewrite !inject_Z_plus, !inject_Z_mult.
  change (inject_Z 57600) with 57600%Q. change (inject_Z 960) with 960%Q.
  change (inject_Z 16) with 16%Q.
  generalize (inject_Z da) (inject_Z ma) (inject_Z sa) (inject_Z xa)
             (inject_Z db) (inject_Z mb) (inject_Z sb) (inject_Z xb).
  intros. split; field.
Qed.

(** The degree fields of the two quantized angles of a valid coordinate. *)
Lemma degree_fields_range (lat lon : Q) :
  (-90 <= lat)%Q -> (lat <= 90)%Q ->
  0 <= lat_units lat / 57600 <= 180
  /\ 0 <= lon_units lat lon / 57600 <= 359.
Proof.
  intros Hlo Hhi.
  pose proof (lat_units_range lat Hlo Hhi).
  pose proof (lon_units_range lat lon).
  split; Z.div_mod_to_equations; lia.
Qed.

(** Decoding the bytes of a valid coordinate gives its two quantized
    angles, in degrees. *)
Lemma decode_encoded_units (lat lon : Q) :
  (-90 <= lat)%Q -> (lat <= 90)%Q ->
  let buf := field_bytes (DMS (lat_units lat)) (DMS (lon_units lat lon)) in
  (GeoEncode.lat (decode buf) == inject_Z (lat_units lat) / 57600 - 90)%Q
  /\ (GeoEncode.lon (decode buf) == inject_Z (lon_units lat lon) / 57600)%Q.
Proof.
  intros Hlo Hhi buf. subst buf.
  pose proof (lat_units_range lat Hlo Hhi) as Ha.
  pose proof (lon_units_range lat lon) as Hb.
  pose proof (degree_fields_range lat lon Hlo Hhi) as [Hda Hdb].
  destruct (DMS_fields (lat_units lat)) as (Ea & Ma & Sa & Xa & Ra); [lia|].
  destruct (DMS_fields (lon_units lat lon)) as (Eb & Mb & Sb & Xb & Rb); [lia|].
  rewrite <- Ea in Hda. rewrite <- Eb in Hdb.
  pose proof (decode_field_bytes _ _ Hda Hdb Ma Mb Sa Sb Xa Xb) as [Dlat Dlon].
  rewrite <- Ra in Dlat. rewrite <- Rb in Dlon.
  split; assumption.
Qed.

(** The quantized latitude is a pole exactly at the two ends of its range. *)
Lemma quantized_lat_pole (lat : Q) :
  is_pole (quantized_lat lat)
  <-> lat_units lat = 0 \/ lat_units lat = 10368000.
Proof.
  unfold is_pole, quantized_lat. fold (lat_units lat).
  generalize (lat_units lat). intros u.
  unfold Qeq, Qminus, Qdiv, Qplus, Qmult, Qopp, Qinv, inject_Z.
  cbn [Qnum Qden Pos.mul]. lia.
Qed.

End Roundtrip.

(** ** Failure and frame of [encode] *)

(** C4: [encode] fails exactly when [lat < -90] or [lat > 90]; when it
    fails the output string is the one it was given, with nothing
    appended.  In particular [encode(91, 0)] and [encode(-91, 0)] fail. *)
Theorem encode_fails_iff_latitude_out_of_range (lat lon : Q) (s : list byte) :
  (fst (encode lat lon s) = false <-> (lat < -90)%Q \/ (90 < lat)%Q)
  /\ ((lat < -90)%Q \/ (90 < lat)%Q -> encode lat lon s = (false, s))
  /\ encode 91 0 s = (false, s)
  /\ encode (-91) 0 s = (false, s).
Proof.
  assert (Hiff : Qltb lat (-90)%Q || Qltb 90%Q lat = true
                 <-> (lat < -90)%Q \/ (90 < lat)%Q).
  { rewrite orb_true_iff, !Qltb_lt. reflexivity. }
  repeat split.
  - rewrite encode_flag, negb_false_iff. apply Hiff.
  - rewrite encode_flag, negb_false_iff. apply Hiff.
  - intros H. apply Hiff in H. rewrite encode_unfold, H. reflexivity.
Qed.

(** C7: a successful [encode] appends exactly six bytes: the bytes that
    were in the string are still there, in front, and the length has grown
    by six. *)
Theorem encode_appends_six_bytes (lat lon : Q) (s : list byte) :
  fst (encode lat lon s) = true ->
  exists appended : list byte,
    snd (encode lat lon s) = s ++ appended
    /\ length appended = 6%nat
    /\ length (snd (encode lat lon s)) = (length s + 6)%nat
    /\ take (length s) (snd (encode lat lon s)) = s.
Proof.
  rewrite encode_unfold.
  destruct (Qltb lat (-90)%Q || Qltb 90%Q lat); [discriminate|].
  intros _. eexists. cbn [snd].
  split; [reflexivity|].
  split; [reflexivity|].
  rewrite length_app, take_app_length. split; reflexivity.
Qed.

Lemma encode_appends_six_bytes_witness :
  exists appended : list byte,
    snd (encode 10 96 [Byte.x2a]) = [Byte.x2a] ++ appended
    /\ length appended = 6%nat
    /\ length (snd (encode 10 96 [Byte.x2a])) = (length [Byte.x2a] + 6)%nat
    /\ take (length [Byte.x2a]) (snd (encode 10 96 [Byte.x2a])) = [Byte.x2a].
Proof.
  apply (encode_appends_six_bytes 10 96 [Byte.x2a]). vm_compute. reflexivity.
Defined.



(** ** The two versions of [encode] *)

(** C8: the earlier [encode], which wraps the longitude only away from the
    poles, and the later one, which wraps it first, return the same flag
    and the same string on every input. *)
Theorem encode_versions_agree (lat lon : Q) (s : list byte) :
  encode_v1 lat lon s = encode lat lon s.
Proof.
  unfold encode_v1, encode. cbv zeta.
  destruct (Qltb lat (-90)%Q || Qltb 90%Q lat); [reflexivity|].
  destruct ((round ((lat + 90) * 57600)%Q =? 0)
            || (round ((lat + 90) * 57600)%Q =? 57600 * 180));
    reflexivity.
Qed.

(** ** Truncated buffers *)

Ltac decode_cbn :=
  unfold coord_eq, decode, decode_buf, ptr;
  cbn -[Z.shiftr Z.land Z.lor Z.shiftl byte.unsigned inject_Z
        Qplus Qminus Qdiv Qmult Z.modulo Z.div Z.mul];
  change (byte.unsigned Byte.x00) with 0;
  rewrite ?Z.shiftr_0_l, ?Z.land_0_l, ?Z.mul_0_l;
  change (inject_Z 0) with 0%Q.

(** C6: for a 6-byte buffer [b] and [k] from 2 to 5, decoding the first [k]
    bytes (as a string of [k] bytes, or as the buffer with length [k])
    gives the same coordinate as decoding the 6 bytes of [b] with the
    bytes from position [k] on replaced by zero. *)
Theorem decode_truncated_is_decode_zero_padded (b : list byte) (k : nat) :
  length b = 6%nat -> (2 <= k <= 5)%nat ->
  length (take k b ++ replicate (6 - k) Byte.x00) = 6%nat
  /\ coord_eq (decode (take k b))
              (decode (take k b ++ replicate (6 - k) Byte.x00))
  /\ coord_eq (decode_buf b k)
              (decode (take k b ++ replicate (6 - k) Byte.x00)).
Proof.
  intros Hlen Hk.
  destruct b as [|b0 [|b1 [|b2 [|b3 [|b4 [|b5 [|? ?]]]]]]]; try discriminate.
  assert (Hcases : k = 2%nat \/ k = 3%nat \/ k = 4%nat \/ k = 5%nat) by lia.
  destruct Hcases as [-> | [-> | [-> | ->]]];
    (split; [reflexivity|]); decode_cbn; repeat split; field.
Qed.

Lemma decode_truncated_is_decode_zero_padded_witness :
  length (take 3 [Byte.x44; Byte.x44; Byte.xff; Byte.xff; Byte.xff; Byte.xff]
          ++ replicate (6 - 3) Byte.x00) = 6%nat
  /\ coord_eq
       (decode (take 3 [Byte.x44; Byte.x44; Byte.xff; Byte.xff; Byte.xff;
                        Byte.xff]))
       (decode (take 3 [Byte.x44; Byte.x44; Byte.xff; Byte.xff; Byte.xff;
                        Byte.xff] ++ replicate (6 - 3) Byte.x00))
  /\ coord_eq
       (decode_buf [Byte.x44; Byte.x44; Byte.xff; Byte.xff; Byte.xff;
                    Byte.xff] 3)
       (decode (take 3 [Byte.x44; Byte.x44; Byte.xff; Byte.xff; Byte.xff;
                        Byte.xff] ++ replicate (6 - 3) Byte.x00)).
Proof.
  apply (decode_truncated_is_decode_zero_padded
           [Byte.x44; Byte.x44; Byte.xff; Byte.xff; Byte.xff; Byte.xff] 3).
  - reflexivity.
  - lia.
Defined.

(** ** Lower bounds of [decode] on arbitrary bytes *)

Section LowerBounds.

Lemma ptr_nonneg (v : list byte) (i : nat) : 0 <= ptr v i.
Proof.
  unfold ptr. pose proof (byte.unsigned_range (nth i v Byte.x00)). lia.
Qed.

Lemma field_nonneg_shiftr (v : list byte) (i : nat) (n : Z) :
  0 <= Z.shiftr (ptr v i) n.
Proof. apply Z.shiftr_nonneg, ptr_nonneg. Qed.

Lemma field_nonneg_land (a m : Z) : 0 <= m -> 0 <= Z.land a m.
Proof. intros H. apply Z.land_nonneg. right. exact H. Qed.

End LowerBounds.

Ltac field_nonneg :=
  repeat first
    [ apply Z.mul_nonneg_nonneg
    | apply field_nonneg_land
    | apply field_nonneg_shiftr
    | apply ptr_nonneg
    | lia ].

Ltac abstract_fields :=
  repeat match goal with
  | |- context [inject_Z ?z] =>
      let H := fresh "Hnn" in
      let q := fresh "q" in
      assert (H : (0 <= inject_Z z)%Q)
        by (apply inject_Z_nonneg; field_nonneg);
      generalize dependent (inject_Z z); intros q H
  end.

Ltac q_linear :=
  unfold Qdiv;
  change (/ 60)%Q with (1 # 60)%Q; change (/ 16)%Q with (1 # 16)%Q;
  lra.

(** C10: on any buffer of at least two bytes, whatever the bytes, [decode]
    returns a latitude of at least -90 and a longitude of at least 0.  The
    upper ends are not kept: there are buffers that decode to a latitude
    above 90, and to a longitude above 360. *)
Theorem decode_lower_bounds (value : list byte) :
  (2 <= length value)%nat ->
  ((-90 <= GeoEncode.lat (decode value))%Q
   /\ (0 <= GeoEncode.lon (decode value))%Q)
  /\ (90 < GeoEncode.lat (decode [Byte.x00; Byte.xb4; Byte.xf0]))%Q
  /\ (360 < GeoEncode.lon (decode [Byte.xff; Byte.xff]))%Q.
Proof.
  intros _. split; [|split; vm_compute; reflexivity].
  unfold decode. generalize (length value) as len. intros len.
  unfold decode_buf. cbv zeta.
  set (t := Z.lor _ _).
  assert (Ht : 0 <= t).
  { apply Z.lor_nonneg. split.
    - apply Z.shiftl_nonneg, Z.land_nonneg. right. lia.
    - apply Z.land_nonneg. right. lia. }
  assert (H0 : (0 <= inject_Z (t mod 181))%Q).
  { apply inject_Z_nonneg. apply Z.mod_pos_bound. lia. }
  assert (H1 : (0 <= inject_Z (t / 181))%Q).
  { apply inject_Z_nonneg. apply Z.div_pos; lia. }
  generalize dependent (inject_Z (t mod 181)). intros a Ha.
  generalize dependent (inject_Z (t / 181)). intros b Hb.
  destruct (2 <? len)%nat, (3 <? len)%nat, (4 <? len)%nat, (5 <? len)%nat;
    cbn [GeoEncode.lat GeoEncode.lon]; abstract_fields; split; q_linear.
Qed.

Lemma decode_lower_bounds_witness :
  ((-90 <= GeoEncode.lat (decode [Byte.xff; Byte.xff; Byte.xff]))%Q
   /\ (0 <= GeoEncode.lon (decode [Byte.xff; Byte.xff; Byte.xff]))%Q)
  /\ (90 < GeoEncode.lat (decode [Byte.x00; Byte.xb4; Byte.xf0]))%Q
  /\ (360 < GeoEncode.lon (decode [Byte.xff; Byte.xff]))%Q.
Proof.
  apply (decode_lower_bounds [Byte.xff; Byte.xff; Byte.xff]). simpl. lia.
Defined.

(** ** The decoder with a bounding box *)

(** C9: [DecoderWithBoundingBox::decode] either returns [false] and leaves
    [result] as it was, or returns [true] and stores in [result] the value
    of the plain [decode] on the same buffer. *)
Theorem bb_decode_result_written_only_on_accept
    (bb : DecoderWithBoundingBox) (value : list byte) (result : LatLongCoord) :
  bb_decode bb value result = (false, result)
  \/ bb_decode bb value result = (true, decode value).
Proof.
  assert (Hchk : bb_decode_checked bb value result = (false, result)
                 \/ bb_decode_checked bb value result = (true, decode value)).
  { unfold bb_decode_checked. cbv zeta.
    repeat case_match; auto. }
  unfold bb_decode. cbv zeta.
  repeat case_match; auto.
Qed.

(** *** Grid points through [encode] and [decode] *)

Section Grid.

Lemma lat_units_on_grid (lat : Q) (n : Z) :
  (lat == inject_Z n / 57600)%Q -> (-90 <= lat)%Q ->
  lat_units lat = n + 5184000.
Proof.
  intros Hn Hlo.
  assert (Hge : -5184000 <= n).
  { rewrite Hn in Hlo. revert Hlo.
    unfold Qle, Qdiv, Qmult, Qinv, inject_Z. cbn [Qnum Qden Pos.mul].
    lia. }
  unfold lat_units.
  rewrite (round_comp _ (inject_Z (n + 5184000))).
  - apply round_inject_Z. lia.
  - rewrite Hn, inject_Z_plus. change (inject_Z 5184000) with 5184000%Q. field.
Qed.

Lemma wrap360_on_grid (lon : Q) :
  on_grid lon ->
  exists m : Z, 0 <= m < 20736000 /\ (wrap360 lon == inject_Z m / 57600)%Q.
Proof.
  intros [n Hn].
  pose proof (wrap360_range lon) as [Hlo Hhi].
  assert (Hex : exists m : Z, (wrap360 lon == inject_Z m / 57600)%Q).
  { unfold wrap360, fmod in *. cbv zeta in *.
    set (k := trunc (lon / 360)) in *. clearbody k.
    destruct (Qltb _ _).
    - exists (n + - k * 20736000 + 20736000).
      rewrite Hn, !inject_Z_plus, inject_Z_mult, inject_Z_opp.
      change (inject_Z 20736000) with 20736000%Q. field.
    - exists (n + - k * 20736000).
      rewrite Hn, inject_Z_plus, inject_Z_mult, inject_Z_opp.
      change (inject_Z 20736000) with 20736000%Q. field. }
  destruct Hex as [m Hm]. exists m. split; [|exact Hm].
  rewrite Hm in Hlo, Hhi. revert Hlo Hhi.
  unfold Qle, Qlt, Qdiv, Qmult, Qinv, inject_Z. cbn [Qnum Qden Pos.mul].
  lia.
Qed.

Lemma lon_units_on_grid (lat lon : Q) (m : Z) :
  0 <= m < 20736000 -> (wrap360 lon == inject_Z m / 57600)%Q ->
  lon_units lat lon
  = if (lat_units lat =? 0) || (lat_units lat =? 10368000) then 0 else m.
Proof.
  intros Hm Hw. unfold lon_units. cbv zeta.
  destruct ((lat_units lat =? 0) || (lat_units lat =? 10368000));
    [reflexivity|].
  rewrite (round_comp _ (inject_Z m)) by (rewrite Hw; field).
  rewrite round_inject_Z by lia.
  destruct (Z.eqb_spec m 20736000); [lia | reflexivity].
Qed.

Lemma pole_flag_on_grid (lat : Q) :
  on_grid lat -> (-90 <= lat)%Q ->
  (lat_units lat =? 0) || (lat_units lat =? 10368000)
  = Qeq_bool lat (-90)%Q || Qeq_bool lat 90%Q.
Proof.
  intros [n Hn] Hlo. rewrite (lat_units_on_grid lat n Hn Hlo).
  rewrite !(Qeqb_comp _ _ Hn _ _ (Qeq_refl _)).
  unfold Qeq_bool, Qdiv, Qmult, Qinv, inject_Z.
  cbn [Qnum Qden Pos.mul].
  change (Z.pos (1 * 57600)) with 57600.
  destruct (Z.eqb_spec (n + 5184000) 0), (Z.eqb_spec (n + 5184000) 10368000),
    (Z.eqb_spec (n * 1 * 1) (-90 * 57600)),
    (Z.eqb_spec (n * 1 * 1) (90 * 57600));
    try reflexivity; exfalso; lia.
Qed.

(** On the grid, decoding the encoded bytes gives the latitude back, and
    the wrapped longitude away from the poles. *)
Lemma decode_encode_on_grid (lat lon : Q) :
  (-90 <= lat)%Q -> (lat <= 90)%Q -> on_grid lat -> on_grid lon ->
  let d := decode (field_bytes (DMS (lat_units lat))
                               (DMS (lon_units lat lon))) in
  (GeoEncode.lat d == lat)%Q
  /\ (Qeq_bool lat (-90)%Q || Qeq_bool lat 90%Q = false ->
      (GeoEncode.lon d == wrap360 lon)%Q).
Proof.
  intros Hlo Hhi [n Hn] Hgl d. subst d.
  pose proof (decode_encoded_units lat lon Hlo Hhi) as [Dlat Dlon].
  cbv zeta in Dlat, Dlon.
  set (buf := field_bytes _ _) in *. clearbody buf.
  pose proof (lat_units_on_grid lat n Hn Hlo) as Hu.
  destruct (wrap360_on_grid lon Hgl) as (m & Hm & Hw).
  rewrite (lon_units_on_grid lat lon m Hm Hw) in Dlon.
  rewrite Hu in Dlat, Dlon.
  split.
  - rewrite Dlat, Hn, inject_Z_plus.
    change (inject_Z 5184000) with 5184000%Q. field.
  - intros Hnp. apply orb_false_iff in Hnp. destruct Hnp as [Hs Hnn].
    apply Qeq_bool_neq in Hs. apply Qeq_bool_neq in Hnn.
    destruct ((n + 5184000 =? 0) || (n + 5184000 =? 10368000)) eqn:E.
    + exfalso. apply orb_true_iff in E. rewrite !Z.eqb_eq in E.
      destruct E as [E | E].
      * apply Hs. rewrite Hn. replace n with (-5184000) by lia. reflexivity.
      * apply Hnn. rewrite Hn. replace n with 5184000 by lia. reflexivity.
    + rewrite Dlon, Hw. reflexivity.
Qed.

Lemma lat_units_mono (x y : Q) :
  (-90 <= x)%Q -> (x <= y)%Q -> lat_units x <= lat_units y.
Proof. intros Hx Hxy. unfold lat_units. apply round_mono; lra. Qed.

Lemma lat_units_south (x : Q) : (x == -90)%Q -> lat_units x = 0.
Proof.
  intros H. unfold lat_units. rewrite (round_comp _ 0%Q); [reflexivity|].
  rewrite H. reflexivity.
Qed.

Lemma lat_units_north (x : Q) : (x == 90)%Q -> lat_units x = 10368000.
Proof.
  intros H. unfold lat_units.
  rewrite (round_comp _ (inject_Z 10368000)); [reflexivity|].
  rewrite H. reflexivity.
Qed.

End Grid.

(** *** The first-byte test *)

Section FirstByte.

(** The first-byte test either rejects or hands over to the range check. *)
Lemma bb_decode_rejects_or_checks (bb : DecoderWithBoundingBox)
    (value : list byte) (result : LatLongCoord) :
  bb_decode bb value result = (false, result)
  \/ bb_decode bb value result = bb_decode_checked bb value result.
Proof.
  unfold bb_decode. cbv zeta. repeat case_match; auto.
Qed.

Lemma corner_lon_units_range (lon : Q) : 0 <= corner_lon_units lon <= 20735999.
Proof.
  unfold corner_lon_units. cbv zeta.
  pose proof (wrapped_units_range lon).
  destruct (Z.eqb_spec (round (wrap360 lon * 57600)%Q) 20736000); lia.
Qed.

Lemma start_byte (a l : Z) :
  0 <= a <= 10368000 -> 0 <= l <= 20735999 ->
  byte.unsigned (char (Z.shiftr
    (to_unsigned (Z.quot a (3600 * 16) + Z.quot l (3600 * 16) * 181)) 8))
  = start_of a l.
Proof.
  intros Ha Hl. unfold start_of, to_unsigned.
  change (3600 * 16) with 57600.
  rewrite !Z.quot_div_nonneg by lia.
  assert (0 <= a / 57600 <= 180) by (Z.div_mod_to_equations; lia).
  assert (0 <= l / 57600 <= 359) by (Z.div_mod_to_equations; lia).
  rewrite Z.mod_small by lia.
  bits_to_arith. pow2_arith.
Qed.

Lemma start_of_mono (a l a' l' : Z) :
  0 <= a -> 0 <= l -> a <= a' -> l <= l' -> start_of a l <= start_of a' l'.
Proof.
  intros Ha Hl Haa Hll. unfold start_of.
  pose proof (Z.div_le_mono a a' 57600 ltac:(lia) Haa).
  pose proof (Z.div_le_mono l l' 57600 ltac:(lia) Hll).
  apply Z.div_le_mono; lia.
Qed.

Lemma first_byte_of_encoded (lat lon : Q) :
  (-90 <= lat)%Q -> (lat <= 90)%Q ->
  ptr (field_bytes (DMS (lat_units lat)) (DMS (lon_units lat lon))) 0
  = start_of (lat_units lat) (lon_units lat lon).
Proof.
  intros Hlo Hhi.
  pose proof (lat_units_range lat Hlo Hhi) as Ha.
  pose proof (lon_units_range lat lon) as Hb.
  rewrite <- start_byte by assumption.
  unfold ptr, field_bytes. cbv zeta. cbn [nth].
  unfold DMS. cbv zeta. cbn [degrees]. reflexivity.
Qed.

Lemma start1_new (lat1 lon1 lat2 lon2 : Q) :
  (-90 <= lat1)%Q -> (lat1 <= 90)%Q ->
  start1 (new_DecoderWithBoundingBox lat1 lon1 lat2 lon2)
  = start_of (lat_units lat1) (corner_lon_units lon1).
Proof.
  intros Hlo Hhi.
  rewrite <- start_byte
    by (apply lat_units_range || apply corner_lon_units_range; assumption).
  reflexivity.
Qed.

Lemma start2_new (lat1 lon1 lat2 lon2 : Q) :
  (-90 <= lat2)%Q -> (lat2 <= 90)%Q ->
  start2 (new_DecoderWithBoundingBox lat1 lon1 lat2 lon2)
  = start_of (lat_units lat2) (corner_lon_units lon2).
Proof.
  intros Hlo Hhi.
  rewrite <- start_byte
    by (apply lat_units_range || apply corner_lon_units_range; assumption).
  reflexivity.
Qed.

Lemma include_poles_new (lat1 lon1 lat2 lon2 : Q) :
  include_poles (new_DecoderWithBoundingBox lat1 lon1 lat2 lon2)
  = ((lat_units lat1 =? 0) || (lat_units lat1 =? 10368000))
    || ((lat_units lat2 =? 0) || (lat_units lat2 =? 10368000)).
Proof.
  unfold new_DecoderWithBoundingBox, calc_latlon_16ths. cbv zeta.
  cbn [include_poles]. fold (lat_units lat1). fold (lat_units lat2).
  change (57600 * 180) with 10368000.
  destruct ((lat_units lat1 =? 0) || (lat_units lat1 =? 10368000)),
    ((lat_units lat2 =? 0) || (lat_units lat2 =? 10368000)); reflexivity.
Qed.

End FirstByte.

(** *** A grid point against a box *)

Section BoxOnGrid.

(** The corners of the box, the point, and the caller's [result]. *)
Variables lat1 lon1 lat2 lon2 : Q.
Variables lat lon : Q.
Variable r : LatLongCoord.

(** The point is a valid coordinate on the grid. *)
Hypothesis lat_lo : (-90 <= lat)%Q.
Hypothesis lat_hi : (lat <= 90)%Q.
Hypothesis lat_grid : on_grid lat.
Hypothesis lon_grid : on_grid lon.

Local Abbreviation box := (new_DecoderWithBoundingBox lat1 lon1 lat2 lon2).
Local Abbreviation encoded :=
  (field_bytes (DMS (lat_units lat)) (DMS (lon_units lat lon))).

(** On the bytes of a grid point, the part of [decode] that follows the
    first-byte test is the direct range check of the box. *)
Lemma bb_decode_checked_in_box :
  fst (bb_decode_checked box encoded r) = in_box lat1 lon1 lat2 lon2 lat lon.
Proof using lat_lo lat_hi lat_grid lon_grid.
  pose proof (decode_encode_on_grid lat lon lat_lo lat_hi lat_grid lon_grid)
    as [Dlat Dlon].
  cbv zeta in Dlat, Dlon.
  unfold bb_decode_checked, in_box. cbv zeta.
  change (min_lat (new_DecoderWithBoundingBox lat1 lon1 lat2 lon2)) with lat1.
  change (max_lat (new_DecoderWithBoundingBox lat1 lon1 lat2 lon2)) with lat2.
  change (GeoEncode.lon1 (new_DecoderWithBoundingBox lat1 lon1 lat2 lon2))
    with (wrap360 lon1).
  change (GeoEncode.lon2 (new_DecoderWithBoundingBox lat1 lon1 lat2 lon2))
    with (wrap360 lon2).
  change (discontinuous_longitude_range
            (new_DecoderWithBoundingBox lat1 lon1 lat2 lon2))
    with (Qltb (wrap360 lon2) (wrap360 lon1)).
  set (d := decode _) in *.
  rewrite !Dlat.
  destruct (Qeq_bool lat (-90) || Qeq_bool lat 90) eqn:Epole.
  - unfold Qltb. destruct (Qle_bool lat1 lat), (Qle_bool lat lat2); reflexivity.
  - rewrite !(Dlon eq_refl). unfold Qltb.
    destruct (Qle_bool lat1 lat), (Qle_bool lat lat2),
      (Qle_bool (wrap360 lon1) (wrap360 lon2)),
      (Qle_bool (wrap360 lon1) (wrap360 lon)),
      (Qle_bool (wrap360 lon) (wrap360 lon2)); reflexivity.
Qed.

End BoxOnGrid.

(** The box [(-90, -60, 10, 50)] of the tests: it accepts [(-90, 0)],
    [(-90, 300)] and [(0, 50)] and rejects [(0, 51)] and [(0, 299)]. *)
Example bb_decode_south_pole_box :
  map (fun p : Q * Q =>
         fst (bb_decode (new_DecoderWithBoundingBox (-90) (-60) 10 50)
                (snd (encode (fst p) (snd p) [])) (mkLatLongCoord 0 0)))
      [((-90)%Q, 0%Q); ((-90)%Q, 300%Q); (0%Q, 50%Q); (0%Q, 51%Q);
       (0%Q, 299%Q)]
  = [true; true; true; false; false].
Proof. vm_compute. reflexivity. Qed.

(** C1 fails on the code.  The box with corners [(-10, 10)] and
    [(10, 360 - 2^-20)] contains the grid point [(0, 100)] by the direct
    range check, and the checks made after the first-byte test accept it;
    but the eastern corner's longitude rounds to the full turn, which
    [calc_latlon_16ths] folds to 0, so [start2] is 0 while the point's
    first byte is 71 and [start1] is 7: the first-byte test returns
    [false]. *)
Theorem bb_decode_rejects_point_in_box :
  in_box (-10) 10 10 (360 - (1 # 1048576)) 0 100 = true
  /\ encode 0 100 []
     = (true, [Byte.x47; Byte.x0e; Byte.x00; Byte.x00; Byte.x00; Byte.x00])
  /\ start1 (new_DecoderWithBoundingBox (-10) 10 10 (360 - (1 # 1048576))) = 7
  /\ start2 (new_DecoderWithBoundingBox (-10) 10 10 (360 - (1 # 1048576))) = 0
  /\ discontinuous_longitude_range
       (new_DecoderWithBoundingBox (-10) 10 10 (360 - (1 # 1048576))) = false
  /\ bb_decode (new_DecoderWithBoundingBox (-10) 10 10 (360 - (1 # 1048576)))
       [Byte.x47; Byte.x0e; Byte.x00; Byte.x00; Byte.x00; Byte.x00]
       (mkLatLongCoord 7 7)
     = (false, mkLatLongCoord 7 7)
  /\ fst (bb_decode_checked
            (new_DecoderWithBoundingBox (-10) 10 10 (360 - (1 # 1048576)))
            [Byte.x47; Byte.x0e; Byte.x00; Byte.x00; Byte.x00; Byte.x00]
            (mkLatLongCoord 7 7))
     = true.
Proof.
  repeat split; vm_compute; reflexivity.
Qed.

(** * Further properties of the code *)

(** ** The angle splitter *)

(** [DegreesMinutesSeconds(angle)] splits any angle, of either sign, into
    fields that add up to it again; on a non-negative angle the minutes
    and seconds are in [0..59] and the 16ths in [0..15], and on a negative
    one, which the struct is "not designed to work with", every field is
    zero or negative. *)
Theorem DMS_splits_angle (u : Z) :
  u = 57600 * degrees (DMS u) + 960 * minutes (DMS u)
      + 16 * seconds (DMS u) + sec16ths (DMS u)
  /\ (0 <= u ->
      0 <= degrees (DMS u) /\ 0 <= minutes (DMS u) < 60
      /\ 0 <= seconds (DMS u) < 60 /\ 0 <= sec16ths (DMS u) < 16)
  /\ (u <= 0 ->
      degrees (DMS u) <= 0 /\ -60 < minutes (DMS u) <= 0
      /\ -60 < seconds (DMS u) <= 0 /\ -16 < sec16ths (DMS u) <= 0).
Proof.
  unfold DMS. cbv zeta. cbn [degrees minutes seconds sec16ths].
  change (3600 * 16) with 57600. change (60 * 16) with 960.
  Z.to_euclidean_division_equations. lia.
Qed.

(** ** Wrapping a longitude *)

Section Wrapping.

(** Wrapping moves a longitude by whole turns. *)
Lemma wrap360_congruent (x : Q) :
  exists k : Z, (wrap360 x == x + inject_Z k * 360)%Q.
Proof.
  unfold wrap360, fmod. cbv zeta.
  set (n := trunc (x / 360)). clearbody n.
  destruct (Qltb _ _).
  - exists (- n + 1). rewrite inject_Z_plus, inject_Z_opp.
    change (inject_Z 1) with 1%Q. ring.
  - exists (- n). rewrite inject_Z_opp. ring.
Qed.

Lemma turns_in_range (a b : Q) (k : Z) :
  (0 <= a)%Q -> (a < 360)%Q -> (0 <= b)%Q -> (b < 360)%Q ->
  (a == b + inject_Z k * 360)%Q -> (a == b)%Q.
Proof.
  intros Ha0 Ha1 Hb0 Hb1 E.
  assert (Hk : k = 0).
  { assert (H1 : (inject_Z (-1) < inject_Z k)%Q).
    { change (inject_Z (-1)) with (-1)%Q.
      generalize dependent (inject_Z k). intros q E. lra. }
    assert (H2 : (inject_Z k < inject_Z 1)%Q).
    { change (inject_Z 1) with 1%Q.
      generalize dependent (inject_Z k). intros q E. lra. }
    rewrite <- Zlt_Qlt in H1, H2. lia. }
  subst k. rewrite E. change (inject_Z 0) with 0%Q. ring.
Qed.

Lemma wrap360_periodic (x : Q) (k : Z) :
  (wrap360 (x + inject_Z k * 360) == wrap360 x)%Q.
Proof.
  destruct (wrap360_congruent (x + inject_Z k * 360)) as [i Hi].
  destruct (wrap360_congruent x) as [j Hj].
  pose proof (wrap360_range (x + inject_Z k * 360)) as [A0 A1].
  pose proof (wrap360_range x) as [B0 B1].
  apply (turns_in_range _ _ (i + k + - j)); try assumption.
  rewrite Hi, Hj, !inject_Z_plus, inject_Z_opp. ring.
Qed.

Lemma wrap360_id (x : Q) : (0 <= x)%Q -> (x < 360)%Q -> (wrap360 x == x)%Q.
Proof.
  intros H0 H1.
  destruct (wrap360_congruent x) as [j Hj].
  pose proof (wrap360_range x) as [B0 B1].
  apply (turns_in_range _ _ j); assumption.
Qed.

Lemma lon_units_comp (lat lon lon' : Q) :
  (wrap360 lon == wrap360 lon')%Q -> lon_units lat lon = lon_units lat lon'.
Proof.
  intros H. unfold lon_units. cbv zeta.
  rewrite (round_comp (wrap360 lon * 57600) (wrap360 lon' * 57600))
    by (rewrite H; reflexivity).
  reflexivity.
Qed.

Lemma corner_lon_units_periodic (lon : Q) (k : Z) :
  corner_lon_units (lon + inject_Z k * 360) = corner_lon_units lon.
Proof.
  unfold corner_lon_units. cbv zeta.
  rewrite (round_comp (wrap360 (lon + inject_Z k * 360) * 57600)
                      (wrap360 lon * 57600))
    by (rewrite wrap360_periodic; reflexivity).
  reflexivity.
Qed.

End Wrapping.

(** ** [encode] *)

(** Longitudes a whole number of turns apart are encoded alike: [encode]
    returns the same flag and the same string for [lon] and
    [lon + 360 * k]. *)
Theorem encode_longitude_periodic (lat lon : Q) (k : Z) (s : list byte) :
  encode lat (lon + inject_Z k * 360) s = encode lat lon s.
Proof.
  rewrite !encode_unfold.
  rewrite (lon_units_comp lat _ lon (wrap360_periodic lon k)).
  reflexivity.
Qed.

(** What [encode] appends does not depend on what the string held: the
    result is the old string followed by what [encode] gives on the empty
    string (nothing, when it fails). *)
Theorem encode_independent_of_contents (lat lon : Q) (s : list byte) :
  encode lat lon s
  = (fst (encode lat lon []), s ++ snd (encode lat lon [])).
Proof.
  rewrite !encode_unfold.
  destruct (Qltb lat (-90) || Qltb 90 lat); cbn [fst snd].
  - rewrite app_nil_r. reflexivity.
  - reflexivity.
Qed.



(** ** [encode] followed by [decode] *)

Section Decoded.

Lemma units_of_degrees (u v : Z) :
  (inject_Z u / 57600 == inject_Z v / 57600)%Q -> u = v.
Proof.
  unfold Qeq, Qdiv, Qmult, Qinv, inject_Z. cbn [Qnum Qden Pos.mul]. lia.
Qed.

Lemma units_of_shifted_degrees (u v : Z) :
  (inject_Z u / 57600 - 90 == inject_Z v / 57600 - 90)%Q -> u = v.
Proof.
  intros H. apply units_of_degrees. lra.
Qed.

Lemma pole_flag_of_quantized (lat : Q) :
  (lat_units lat =? 0) || (lat_units lat =? 10368000) = true
  <-> is_pole (quantized_lat lat).
Proof.
  rewrite quantized_lat_pole, orb_true_iff, !Z.eqb_eq. reflexivity.
Qed.

(** Rounding moves a non-negative value by at most a half. *)
Lemma round_error (x : Q) :
  (0 <= x)%Q ->
  (inject_Z (round x) - (1 # 2) <= x)%Q /\ (x < inject_Z (round x) + (1 # 2))%Q.
Proof.
  intros H. rewrite round_nonneg_eq by exact H.
  pose proof (Qfloor_le (x + (1 # 2))) as Flo.
  pose proof (Qlt_floor (x + (1 # 2))) as Fhi.
  rewrite inject_Z_plus in Fhi. change (inject_Z 1) with 1%Q in Fhi.
  generalize dependent (inject_Z (Qfloor (x + (1 # 2)))). intros f Flo Fhi.
  split; lra.
Qed.

End Decoded.

Ltac q_to_z :=
  unfold Qeq, Qle, Qlt, Qminus, Qplus, Qopp, Qdiv, Qmult, Qinv, inject_Z;
  cbn [Qnum Qden Pos.mul Pos.add]; lia.

(** The bytes of a valid coordinate decode to a valid coordinate: the
    latitude is in [-90, 90] and the longitude in [0, 360). *)
Theorem decode_of_encoding_in_range (lat lon : Q) (s : list byte) :
  (-90 <= lat)%Q -> (lat <= 90)%Q ->
  exists buf : list byte,
    encode lat lon s = (true, s ++ buf)
    /\ (-90 <= GeoEncode.lat (decode buf))%Q
    /\ (GeoEncode.lat (decode buf) <= 90)%Q
    /\ (0 <= GeoEncode.lon (decode buf))%Q
    /\ (GeoEncode.lon (decode buf) < 360)%Q.
Proof.
  intros Hlo Hhi.
  exists (field_bytes (DMS (lat_units lat)) (DMS (lon_units lat lon))).
  split; [apply encode_in_range; assumption|].
  pose proof (decode_encoded_units lat lon Hlo Hhi) as [D1 D2].
  cbv zeta in D1, D2.
  pose proof (lat_units_range lat Hlo Hhi) as R1.
  pose proof (lon_units_range lat lon) as R2.
  rewrite D1, D2. revert R1 R2.
  generalize (lat_units lat) (lon_units lat lon). intros a l R1 R2.
  repeat split; q_to_z.
Qed.

Lemma decode_of_encoding_in_range_witness :
  exists buf : list byte,
    encode (1 # 5) (- (119 # 5)) [] = (true, [] ++ buf)
    /\ (-90 <= GeoEncode.lat (decode buf))%Q
    /\ (GeoEncode.lat (decode buf) <= 90)%Q
    /\ (0 <= GeoEncode.lon (decode buf))%Q
    /\ (GeoEncode.lon (decode buf) < 360)%Q.
Proof.
  apply (decode_of_encoding_in_range (1 # 5) (- (119 # 5)) []);
    unfold Qle; cbn; lia.
Defined.

(** Decoding the bytes of a valid coordinate and encoding the decoded
    coordinate again, through the [LatLongCoord] overload, appends the
    same six bytes. *)
Theorem reencode_decoded_coordinate (lat lon : Q) (s : list byte) :
  (-90 <= lat)%Q -> (lat <= 90)%Q ->
  encode_coord (decode (snd (encode lat lon []))) s
  = (true, s ++ snd (encode lat lon [])).
Proof.
  intros Hlo Hhi.
  rewrite (encode_in_range lat lon [] Hlo Hhi). cbn [snd app].
  pose proof (decode_encoded_units lat lon Hlo Hhi) as [D1 D2].
  cbv zeta in D1, D2.
  pose proof (lat_units_range lat Hlo Hhi) as R1.
  pose proof (lon_units_range lat lon) as R2.
  set (buf := field_bytes _ _) in *.
  set (d := decode buf) in *.
  unfold encode_coord.
  assert (Hd1 : (GeoEncode.lat d
                 == inject_Z (lat_units lat - 5184000) / 57600)%Q).
  { rewrite D1. generalize (lat_units lat). intros a. q_to_z. }
  assert (Hdlo : (-90 <= GeoEncode.lat d)%Q).
  { rewrite D1. revert R1. generalize (lat_units lat). intros a R1. q_to_z. }
  assert (Hdhi : (GeoEncode.lat d <= 90)%Q).
  { rewrite D1. revert R1. generalize (lat_units lat). intros a R1. q_to_z. }
  assert (Hu : lat_units (GeoEncode.lat d) = lat_units lat).
  { rewrite (lat_units_on_grid _ _ Hd1 Hdlo). lia. }
  assert (Hl : lon_units (GeoEncode.lat d) (GeoEncode.lon d)
               = lon_units lat lon).
  { assert (Hw : (wrap360 (GeoEncode.lon d)
                  == inject_Z (lon_units lat lon) / 57600)%Q).
    { rewrite <- D2. apply wrap360_id; rewrite D2; revert R2;
        generalize (lon_units lat lon); intros l R2; q_to_z. }
    rewrite (lon_units_on_grid _ _ (lon_units lat lon)) by (lia || exact Hw).
    rewrite Hu. unfold lon_units.
    destruct ((lat_units lat =? 0) || (lat_units lat =? 10368000));
      reflexivity. }
  rewrite (encode_in_range _ _ s Hdlo Hdhi), Hu, Hl. reflexivity.
Qed.

Lemma reencode_decoded_coordinate_witness :
  encode_coord (decode (snd (encode (1 # 3) (- (1 # 7)) []))) [Byte.x2a]
  = (true, [Byte.x2a] ++ snd (encode (1 # 3) (- (1 # 7)) [])).
Proof.
  apply (reencode_decoded_coordinate (1 # 3) (- (1 # 7)) [Byte.x2a]);
    unfold Qle; cbn; lia.
Defined.

(** Two valid coordinates whose bytes decode to the same coordinate have
    the same bytes: [decode] tells any two different encodings apart. *)
Theorem decode_injective_on_encodings (lat lon lat' lon' : Q) :
  (-90 <= lat)%Q -> (lat <= 90)%Q -> (-90 <= lat')%Q -> (lat' <= 90)%Q ->
  coord_eq (decode (snd (encode lat lon [])))
           (decode (snd (encode lat' lon' []))) ->
  snd (encode lat lon []) = snd (encode lat' lon' []).
Proof.
  intros Hlo Hhi Hlo' Hhi' [Elat Elon].
  rewrite (encode_in_range lat lon [] Hlo Hhi) in *.
  rewrite (encode_in_range lat' lon' [] Hlo' Hhi') in *.
  cbn [snd app] in *.
  pose proof (decode_encoded_units lat lon Hlo Hhi) as [D1 D2].
  pose proof (decode_encoded_units lat' lon' Hlo' Hhi') as [D1' D2'].
  cbv zeta in D1, D2, D1', D2'.
  rewrite D1, D1' in Elat. rewrite D2, D2' in Elon.
  apply units_of_shifted_degrees in Elat. apply units_of_degrees in Elon.
  rewrite Elat, Elon. reflexivity.
Qed.

Lemma decode_injective_on_encodings_witness :
  snd (encode 10 96 []) = snd (encode 10 456 []).
Proof.
  apply (decode_injective_on_encodings 10 96 10 456).
  - unfold Qle; cbn; lia.
  - unfold Qle; cbn; lia.
  - unfold Qle; cbn; lia.
  - unfold Qle; cbn; lia.
  - split; vm_compute; reflexivity.
Defined.

(** ** [decode] on longer and shorter buffers *)

(** Bytes after the first six are ignored: on a buffer of at least six
    bytes, [decode] returns the same coordinate with or without anything
    appended. *)
Theorem decode_ignores_trailing_bytes (b junk : list byte) :
  (6 <= length b)%nat -> decode (b ++ junk) = decode b.
Proof.
  intros Hlen. unfold decode, decode_buf, ptr. cbv zeta.
  rewrite length_app.
  rewrite !(app_nth1 b junk) by lia.
  replace (2 <? length b + length junk)%nat with true
    by (symmetry; apply Nat.ltb_lt; lia).
  replace (3 <? length b + length junk)%nat with true
    by (symmetry; apply Nat.ltb_lt; lia).
  replace (4 <? length b + length junk)%nat with true
    by (symmetry; apply Nat.ltb_lt; lia).
  replace (5 <? length b + length junk)%nat with true
    by (symmetry; apply Nat.ltb_lt; lia).
  replace (2 <? length b)%nat with true by (symmetry; apply Nat.ltb_lt; lia).
  replace (3 <? length b)%nat with true by (symmetry; apply Nat.ltb_lt; lia).
  replace (4 <? length b)%nat with true by (symmetry; apply Nat.ltb_lt; lia).
  replace (5 <? length b)%nat with true by (symmetry; apply Nat.ltb_lt; lia).
  reflexivity.
Qed.

Lemma decode_ignores_trailing_bytes_witness :
  decode ([Byte.x44; Byte.x44; Byte.x12; Byte.x34; Byte.x56; Byte.x78]
          ++ [Byte.xff; Byte.xff])
  = decode [Byte.x44; Byte.x44; Byte.x12; Byte.x34; Byte.x56; Byte.x78].
Proof.
  apply (decode_ignores_trailing_bytes
           [Byte.x44; Byte.x44; Byte.x12; Byte.x34; Byte.x56; Byte.x78]
           [Byte.xff; Byte.xff]).
  simpl. lia.
Defined.

(** On any buffer, decoding with a shorter length never gives a larger
    latitude or longitude than decoding with a longer one: every byte
    read adds a non-negative amount. *)
Theorem decode_prefix_monotone (b : list byte) (k k' : nat) :
  (k <= k')%nat ->
  (GeoEncode.lat (decode_buf b k) <= GeoEncode.lat (decode_buf b k'))%Q
  /\ (GeoEncode.lon (decode_buf b k) <= GeoEncode.lon (decode_buf b k'))%Q.
Proof.
  intros Hk. unfold decode_buf. cbv zeta.
  generalize (inject_Z
    (Z.lor (Z.shiftl (Z.land (ptr b 0) 255) 8) (Z.land (ptr b 1) 255)
     mod 181)).
  generalize (inject_Z
    (Z.lor (Z.shiftl (Z.land (ptr b 0) 255) 8) (Z.land (ptr b 1) 255)
     / 181)).
  intros o a.
  destruct (Nat.ltb_spec 2 k), (Nat.ltb_spec 3 k), (Nat.ltb_spec 4 k),
    (Nat.ltb_spec 5 k); try (exfalso; lia);
  destruct (Nat.ltb_spec 2 k'), (Nat.ltb_spec 3 k'), (Nat.ltb_spec 4 k'),
    (Nat.ltb_spec 5 k'); try (exfalso; lia);
  cbn [GeoEncode.lat GeoEncode.lon]; abstract_fields; split; q_linear.
Qed.

Lemma decode_prefix_monotone_witness :
  (GeoEncode.lat (decode_buf [Byte.xff; Byte.xff; Byte.xff; Byte.xff] 3)
   <= GeoEncode.lat (decode_buf [Byte.xff; Byte.xff; Byte.xff; Byte.xff] 4))%Q
  /\ (GeoEncode.lon (decode_buf [Byte.xff; Byte.xff; Byte.xff; Byte.xff] 3)
      <= GeoEncode.lon
           (decode_buf [Byte.xff; Byte.xff; Byte.xff; Byte.xff] 4))%Q.
Proof.
  apply (decode_prefix_monotone [Byte.xff; Byte.xff; Byte.xff; Byte.xff] 3 4).
  lia.
Defined.

Section Cells.

Lemma inject_Z_range (z lo hi : Z) :
  lo <= z <= hi ->
  (inject_Z lo <= inject_Z z)%Q /\ (inject_Z z <= inject_Z hi)%Q.
Proof. intros [H1 H2]. rewrite <- !Zle_Qle. split; assumption. Qed.

Lemma prefix_cells_of_fields (a b : DegreesMinutesSeconds) (k : nat) :
  0 <= degrees a <= 180 -> 0 <= degrees b <= 359 ->
  0 <= minutes a < 60 -> 0 <= minutes b < 60 ->
  0 <= seconds a < 60 -> 0 <= seconds b < 60 ->
  0 <= sec16ths a < 16 -> 0 <= sec16ths b < 16 ->
  (2 <= k <= 5)%nat ->
  let full := decode (field_bytes a b) in
  let part := decode_buf (field_bytes a b) k in
  ((GeoEncode.lat part <= GeoEncode.lat full)%Q
   /\ (GeoEncode.lat full < GeoEncode.lat part + cell_width k)%Q)
  /\ ((GeoEncode.lon part <= GeoEncode.lon full)%Q
      /\ (GeoEncode.lon full < GeoEncode.lon part + cell_width k)%Q).
Proof.
  destruct a as [da ma sa xa], b as [db mb sb xb].
  cbn [degrees minutes seconds sec16ths].
  intros Hda Hdb Hma Hmb Hsa Hsb Hxa Hxb Hk.
  pose proof (nibbles_roundtrip (ma / 4) (mb / 4)) as N2.
  pose proof (crumbs_roundtrip (ma mod 4) (mb mod 4) (sa / 15) (sb / 15)) as N3.
  pose proof (nibbles_roundtrip (sa mod 15) (sb mod 15)) as N4.
  pose proof (nibbles_roundtrip xa xb) as N5.
  cbv zeta in N2, N3, N4, N5.
  destruct N2 as (E2a & E2b & _); [Z.div_mod_to_equations; lia ..|].
  destruct N3 as (E3a & E3b & E3c & E3d); [Z.div_mod_to_equations; lia ..|].
  destruct N4 as (_ & E4b & E4a); [Z.div_mod_to_equations; lia ..|].
  destruct N5 as (E5a & E5b & _); [lia ..|].
  assert (B1 : 0 <= ma / 4 * 4 <= 56 /\ 0 <= mb / 4 * 4 <= 56)
    by (Z.div_mod_to_equations; lia).
  assert (B2 : 0 <= ma mod 4 <= 3 /\ 0 <= mb mod 4 <= 3)
    by (Z.div_mod_to_equations; lia).
  assert (B3 : 0 <= sa / 15 * 15 <= 45 /\ 0 <= sb / 15 * 15 <= 45)
    by (Z.div_mod_to_equations; lia).
  assert (B4 : 0 <= sa mod 15 <= 14 /\ 0 <= sb mod 15 <= 14)
    by (Z.div_mod_to_equations; lia).
  destruct B1 as [B1a B1b], B2 as [B2a B2b], B3 as [B3a B3b],
    B4 as [B4a B4b].
  apply inject_Z_range in B1a, B1b, B2a, B2b, B3a, B3b, B4a, B4b.
  assert (B5a : 0 <= xa <= 15) by lia. assert (B5b : 0 <= xb <= 15) by lia.
  apply inject_Z_range in B5a, B5b.
  assert (Hcases : k = 2%nat \/ k = 3%nat \/ k = 4%nat \/ k = 5%nat) by lia.
  unfold decode, decode_buf, field_bytes, ptr. cbv zeta.
  destruct Hcases as [-> | [-> | [-> | ->]]];
    cbn [length nth Nat.ltb Nat.leb GeoEncode.lat GeoEncode.lon cell_width
         degrees minutes seconds sec16ths];
    rewrite !Z.quot_div_nonneg, !Z.rem_mod_nonneg by lia;
    rewrite ?E2a, ?E2b, ?E3a, ?E3b, ?E3c, ?E3d, ?E4a, ?E4b, ?E5a, ?E5b;
    repeat match goal with
    | |- context [inject_Z (Z.modulo ?t 181)] =>
        generalize (inject_Z (Z.modulo t 181))
    | |- context [inject_Z (Z.div ?t 181)] =>
        generalize (inject_Z (Z.div t 181))
    end; intros;
    change (inject_Z 0) with 0%Q in *; change (inject_Z 56) with 56%Q in *;
    change (inject_Z 3) with 3%Q in *; change (inject_Z 45) with 45%Q in *;
    change (inject_Z 14) with 14%Q in *; change (inject_Z 15) with 15%Q in *;
    revert B1a B1b B2a B2b B3a B3b B4a B4b B5a B5b;
    generalize (inject_Z (ma / 4 * 4)) (inject_Z (mb / 4 * 4))
               (inject_Z (ma mod 4)) (inject_Z (mb mod 4))
               (inject_Z (sa / 15 * 15)) (inject_Z (sb / 15 * 15))
               (inject_Z (sa mod 15)) (inject_Z (sb mod 15))
               (inject_Z xa) (inject_Z xb);
    intros; repeat split; q_linear.
Qed.

End Cells.

(** The first [k] bytes of the encoding of a valid coordinate, for [k]
    from 2 to 5, decode to the south-west corner of a cell that holds the
    coordinate the six bytes decode to; the cell is 1 degree wide for two
    bytes, 4 minutes for three, 15 seconds for four and 1 second for
    five. *)
Theorem encoded_prefix_is_bounding_cell (lat lon : Q) (k : nat) :
  (-90 <= lat)%Q -> (lat <= 90)%Q -> (2 <= k <= 5)%nat ->
  ((GeoEncode.lat (decode_buf (snd (encode lat lon [])) k)
    <= GeoEncode.lat (decode (snd (encode lat lon []))))%Q
   /\ (GeoEncode.lat (decode (snd (encode lat lon [])))
       < GeoEncode.lat (decode_buf (snd (encode lat lon [])) k)
         + cell_width k)%Q)
  /\ ((GeoEncode.lon (decode_buf (snd (encode lat lon [])) k)
       <= GeoEncode.lon (decode (snd (encode lat lon []))))%Q
      /\ (GeoEncode.lon (decode (snd (encode lat lon [])))
          < GeoEncode.lon (decode_buf (snd (encode lat lon [])) k)
            + cell_width k)%Q).
Proof.
  intros Hlo Hhi Hk.
  rewrite (encode_in_range lat lon [] Hlo Hhi). cbn [snd app].
  pose proof (lat_units_range lat Hlo Hhi) as Ha.
  pose proof (lon_units_range lat lon) as Hb.
  pose proof (degree_fields_range lat lon Hlo Hhi) as [Hda Hdb].
  destruct (DMS_fields (lat_units lat)) as (Ea & Ma & Sa & Xa & _); [lia|].
  destruct (DMS_fields (lon_units lat lon)) as (Eb & Mb & Sb & Xb & _); [lia|].
  rewrite <- Ea in Hda. rewrite <- Eb in Hdb.
  exact (prefix_cells_of_fields _ _ k Hda Hdb Ma Mb Sa Sb Xa Xb Hk).
Qed.

Lemma encoded_prefix_is_bounding_cell_witness :
  ((GeoEncode.lat (decode_buf (snd (encode (1 # 3) (- (1 # 7)) [])) 3)
    <= GeoEncode.lat (decode (snd (encode (1 # 3) (- (1 # 7)) []))))%Q
   /\ (GeoEncode.lat (decode (snd (encode (1 # 3) (- (1 # 7)) [])))
       < GeoEncode.lat (decode_buf (snd (encode (1 # 3) (- (1 # 7)) [])) 3)
         + cell_width 3)%Q)
  /\ ((GeoEncode.lon (decode_buf (snd (encode (1 # 3) (- (1 # 7)) [])) 3)
       <= GeoEncode.lon (decode (snd (encode (1 # 3) (- (1 # 7)) []))))%Q
      /\ (GeoEncode.lon (decode (snd (encode (1 # 3) (- (1 # 7)) [])))
          < GeoEncode.lon
              (decode_buf (snd (encode (1 # 3) (- (1 # 7)) [])) 3)
            + cell_width 3)%Q).
Proof.
  apply (encoded_prefix_is_bounding_cell (1 # 3) (- (1 # 7)) 3).
  - unfold Qle; cbn; lia.
  - unfold Qle; cbn; lia.
  - lia.
Defined.

(** ** The decoder with a bounding box, further *)

(** Whenever [DecoderWithBoundingBox::decode] accepts a buffer, whatever
    its bytes, the decoded latitude is between [min_lat] and [max_lat],
    and the coordinate is a pole or its longitude is in the box's
    longitude range: outside the open interval from [lon2] to [lon1] when
    the range crosses the seam, between [lon1] and [lon2] otherwise. *)
Theorem bb_decode_accepted_result_in_ranges
    (bb : DecoderWithBoundingBox) (value : list byte) (r : LatLongCoord) :
  fst (bb_decode bb value r) = true ->
  (min_lat bb <= GeoEncode.lat (decode value))%Q
  /\ (GeoEncode.lat (decode value) <= max_lat bb)%Q
  /\ (is_pole (GeoEncode.lat (decode value))
      \/ (discontinuous_longitude_range bb = true
          /\ ((GeoEncode.lon (decode value) <= lon2 bb)%Q
              \/ (lon1 bb <= GeoEncode.lon (decode value))%Q))
      \/ (discontinuous_longitude_range bb = false
          /\ (lon1 bb <= GeoEncode.lon (decode value))%Q
          /\ (GeoEncode.lon (decode value) <= lon2 bb)%Q)).
Proof.
  intros Hacc.
  assert (Hchk : fst (bb_decode_checked bb value r) = true).
  { destruct (bb_decode_rejects_or_checks bb value r) as [E | E];
      rewrite E in Hacc; [discriminate | exact Hacc]. }
  clear Hacc. unfold bb_decode_checked in Hchk. cbv zeta in Hchk.
  set (d := decode value) in *.
  destruct (Qltb (GeoEncode.lat d) (min_lat bb)) eqn:E1;
    [discriminate|].
  destruct (Qltb (max_lat bb) (GeoEncode.lat d)) eqn:E2;
    [discriminate|].
  apply Qltb_ge in E1. apply Qltb_ge in E2.
  split; [exact E1|]. split; [exact E2|].
  cbn [orb] in Hchk.
  destruct (Qeq_bool (GeoEncode.lat d) (-90)) eqn:P1.
  { left. left. apply Qeq_bool_iff. exact P1. }
  destruct (Qeq_bool (GeoEncode.lat d) 90) eqn:P2.
  { left. right. apply Qeq_bool_iff. exact P2. }
  cbn [orb] in Hchk. right.
  destruct (discontinuous_longitude_range bb).
  - left. split; [reflexivity|].
    destruct (Qltb (lon2 bb) (GeoEncode.lon d)) eqn:L2.
    + destruct (Qltb (GeoEncode.lon d) (lon1 bb)) eqn:L1;
        [discriminate|].
      right. apply Qltb_ge. exact L1.
    + left. apply Qltb_ge. exact L2.
  - right. split; [reflexivity|].
    destruct (Qltb (GeoEncode.lon d) (lon1 bb)) eqn:L1; [discriminate|].
    destruct (Qltb (lon2 bb) (GeoEncode.lon d)) eqn:L2; [discriminate|].
    split; apply Qltb_ge; assumption.
Qed.

Lemma bb_decode_accepted_result_in_ranges_witness :
  (min_lat (new_DecoderWithBoundingBox (-90) (-60) 10 50)
   <= GeoEncode.lat (decode [Byte.x23; Byte.xb4]))%Q
  /\ (GeoEncode.lat (decode [Byte.x23; Byte.xb4])
      <= max_lat (new_DecoderWithBoundingBox (-90) (-60) 10 50))%Q
  /\ (is_pole (GeoEncode.lat (decode [Byte.x23; Byte.xb4]))
      \/ (discontinuous_longitude_range
            (new_DecoderWithBoundingBox (-90) (-60) 10 50) = true
          /\ ((GeoEncode.lon (decode [Byte.x23; Byte.xb4])
               <= lon2 (new_DecoderWithBoundingBox (-90) (-60) 10 50))%Q
              \/ (lon1 (new_DecoderWithBoundingBox (-90) (-60) 10 50)
                  <= GeoEncode.lon (decode [Byte.x23; Byte.xb4]))%Q))
      \/ (discontinuous_longitude_range
            (new_DecoderWithBoundingBox (-90) (-60) 10 50) = false
          /\ (lon1 (new_DecoderWithBoundingBox (-90) (-60) 10 50)
              <= GeoEncode.lon (decode [Byte.x23; Byte.xb4]))%Q
          /\ (GeoEncode.lon (decode [Byte.x23; Byte.xb4])
              <= lon2 (new_DecoderWithBoundingBox (-90) (-60) 10 50))%Q)).
Proof.
  apply (bb_decode_accepted_result_in_ranges
           (new_DecoderWithBoundingBox (-90) (-60) 10 50)
           [Byte.x23; Byte.xb4] (mkLatLongCoord 0 0)).
  vm_compute. reflexivity.
Defined.

Section BoxEquality.

(** Boxes whose fields are equal as numbers decode alike. *)
Lemma bb_decode_comp (bb bb' : DecoderWithBoundingBox)
    (value : list byte) (r : LatLongCoord) :
  (lon1 bb == lon1 bb')%Q -> (lon2 bb == lon2 bb')%Q ->
  (min_lat bb == min_lat bb')%Q -> (max_lat bb == max_lat bb')%Q ->
  start1 bb = start1 bb' -> start2 bb = start2 bb' ->
  include_poles bb = include_poles bb' ->
  discontinuous_longitude_range bb = discontinuous_longitude_range bb' ->
  bb_decode bb value r = bb_decode bb' value r.
Proof.
  intros H1 H2 H3 H4 H5 H6 H7 H8.
  unfold bb_decode, bb_decode_checked. cbv zeta.
  set (d := decode value).
  rewrite (Qltb_comp _ _ (Qeq_refl (GeoEncode.lat d)) _ _ H3).
  rewrite (Qltb_comp _ _ H4 _ _ (Qeq_refl (GeoEncode.lat d))).
  rewrite (Qltb_comp _ _ H2 _ _ (Qeq_refl (GeoEncode.lon d))).
  rewrite (Qltb_comp _ _ (Qeq_refl (GeoEncode.lon d)) _ _ H1).
  rewrite H5, H6, H7, H8. reflexivity.
Qed.

End BoxEquality.

(** Corner longitudes a whole number of turns apart give boxes that decode
    every buffer alike. *)
Theorem box_corner_longitudes_periodic
    (lat1 lon1 lat2 lon2 : Q) (k1 k2 : Z)
    (value : list byte) (r : LatLongCoord) :
  bb_decode (new_DecoderWithBoundingBox lat1 (lon1 + inject_Z k1 * 360)
                                        lat2 (lon2 + inject_Z k2 * 360))
            value r
  = bb_decode (new_DecoderWithBoundingBox lat1 lon1 lat2 lon2) value r.
Proof.
  pose proof (wrap360_periodic lon1 k1) as W1.
  pose proof (wrap360_periodic lon2 k2) as W2.
  pose proof (corner_lon_units_periodic lon1 k1) as C1.
  pose proof (corner_lon_units_periodic lon2 k2) as C2.
  apply bb_decode_comp.
  - exact W1.
  - exact W2.
  - reflexivity.
  - reflexivity.
  - change (start1 (new_DecoderWithBoundingBox lat1 (lon1 + inject_Z k1 * 360)
                      lat2 (lon2 + inject_Z k2 * 360)))
      with (byte.unsigned (char (Z.shiftr (to_unsigned
              (Z.quot (lat_units lat1) (3600 * 16)
               + Z.quot (corner_lon_units (lon1 + inject_Z k1 * 360))
                        (3600 * 16) * 181)) 8))).
    rewrite C1. reflexivity.
  - change (start2 (new_DecoderWithBoundingBox lat1 (lon1 + inject_Z k1 * 360)
                      lat2 (lon2 + inject_Z k2 * 360)))
      with (byte.unsigned (char (Z.shiftr (to_unsigned
              (Z.quot (lat_units lat2) (3600 * 16)
               + Z.quot (corner_lon_units (lon2 + inject_Z k2 * 360))
                        (3600 * 16) * 181)) 8))).
    rewrite C2. reflexivity.
  - reflexivity.
  - change (Qltb (wrap360 (lon2 + inject_Z k2 * 360))
                 (wrap360 (lon1 + inject_Z k1 * 360))
            = Qltb (wrap360 lon2) (wrap360 lon1)).
    rewrite W1, W2. reflexivity.
Qed.

Section FirstByteCases.

Lemma start_of_nonneg (a l : Z) : 0 <= a -> 0 <= l -> 0 <= start_of a l.
Proof.
  intros Ha Hl. unfold start_of.
  assert (0 <= a / 57600) by (apply Z.div_pos; lia).
  assert (0 <= l / 57600) by (apply Z.div_pos; lia).
  apply Z.div_pos; lia.
Qed.

Lemma start_of_degree_only (a : Z) : 0 <= a <= 10368000 -> start_of a 0 = 0.
Proof.
  intros Ha. unfold start_of.
  assert (0 <= a / 57600 <= 180) by (Z.div_mod_to_equations; lia).
  change (0 / 57600 * 181) with 0. rewrite Z.add_0_r.
  apply Z.div_small. lia.
Qed.

Lemma encode_at_pole_ignores_longitude (lat lon : Q) (s : list byte) :
  is_pole lat -> encode lat lon s = encode lat 0 s.
Proof.
  intros Hp. rewrite !encode_unfold. unfold lon_units.
  replace ((lat_units lat =? 0) || (lat_units lat =? 10368000)) with true;
    [reflexivity|].
  symmetry. apply orb_true_iff.
  destruct Hp as [E | E].
  - left. rewrite (lat_units_south lat E). reflexivity.
  - right. rewrite (lat_units_north lat E). reflexivity.
Qed.

End FirstByteCases.

Section BoxCases.

Variables lat1 lon1 lat2 lon2 : Q.
Variables lat lon : Q.
Variable r : LatLongCoord.

Hypothesis lat_lo : (-90 <= lat)%Q.
Hypothesis lat_hi : (lat <= 90)%Q.
Hypothesis lat_grid : on_grid lat.
Hypothesis lon_grid : on_grid lon.
Hypothesis lat1_lo : (-90 <= lat1)%Q.
Hypothesis lat2_hi : (lat2 <= 90)%Q.
Hypothesis inside : in_box lat1 lon1 lat2 lon2 lat lon = true.

Local Abbreviation box := (new_DecoderWithBoundingBox lat1 lon1 lat2 lon2).
Local Abbreviation encoded :=
  (field_bytes (DMS (lat_units lat)) (DMS (lon_units lat lon))).

Lemma inside_latitudes : (lat1 <= lat)%Q /\ (lat <= lat2)%Q.
Proof using inside.
  unfold in_box in inside.
  apply andb_true_iff in inside. destruct inside as [Hlat _].
  apply andb_true_iff in Hlat. destruct Hlat as [Hl1 Hl2].
  apply Qle_bool_iff in Hl1. apply Qle_bool_iff in Hl2. split; assumption.
Qed.

(** A pole inside the box gets through the first-byte test. *)
Lemma first_byte_test_passes_at_pole :
  Qeq_bool lat (-90) || Qeq_bool lat 90 = true ->
  bb_decode box encoded r = bb_decode_checked box encoded r.
Proof using lat_lo lat_hi lat_grid lat1_lo lat2_hi inside.
  intros Epole. destruct inside_latitudes as [Hl1 Hl2].
  unfold bb_decode. cbv zeta.
  rewrite first_byte_of_encoded by assumption.
  rewrite include_poles_new.
  pose proof (pole_flag_on_grid lat lat_grid lat_lo) as Hflag.
  assert (Hs : start_of (lat_units lat) (lon_units lat lon) = 0
               /\ ((lat_units lat1 =? 0) || (lat_units lat1 =? 10368000))
                  || ((lat_units lat2 =? 0) || (lat_units lat2 =? 10368000))
                  = true).
  { unfold lon_units. rewrite Hflag, Epole.
    apply orb_true_iff in Epole. destruct Epole as [E | E];
      apply Qeq_bool_iff in E.
    - rewrite (lat_units_south lat E). split; [reflexivity|].
      rewrite (lat_units_south lat1) by lra. reflexivity.
    - rewrite (lat_units_north lat E). split; [reflexivity|].
      rewrite (lat_units_north lat2) by lra.
      rewrite orb_true_r. reflexivity. }
  destruct Hs as [Hs Hinc]. rewrite Hs, Hinc. cbn.
  repeat case_match; reflexivity.
Qed.

End BoxCases.

(** At a pole the box's longitudes play no part: with corner latitudes in
    [-90, 90], the box decoder accepts the bytes of a pole, encoded with
    any longitude, exactly when the pole's latitude is between the two
    corner latitudes. *)
Theorem bb_decode_pole_ignores_longitudes
    (lat1 lon1 lat2 lon2 lat lon : Q) (r : LatLongCoord) :
  (-90 <= lat1)%Q -> (lat2 <= 90)%Q -> is_pole lat ->
  fst (bb_decode (new_DecoderWithBoundingBox lat1 lon1 lat2 lon2)
         (snd (encode lat lon [])) r)
  = Qle_bool lat1 lat && Qle_bool lat lat2.
Proof.
  intros H1lo H2hi Hp.
  rewrite (encode_at_pole_ignores_longitude lat lon [] Hp).
  assert (Hlo : (-90 <= lat)%Q) by (destruct Hp as [E | E]; rewrite E; lra).
  assert (Hhi : (lat <= 90)%Q) by (destruct Hp as [E | E]; rewrite E; lra).
  assert (Hg : on_grid lat).
  { destruct Hp as [E | E]; [exists (-5184000) | exists 5184000];
      rewrite E; reflexivity. }
  assert (Hg0 : on_grid 0) by (exists 0; reflexivity).
  assert (Epole : Qeq_bool lat (-90) || Qeq_bool lat 90 = true).
  { apply orb_true_iff.
    destruct Hp as [E | E]; apply Qeq_bool_iff in E; auto. }
  rewrite (encode_in_range lat 0 [] Hlo Hhi). cbn [snd app].
  pose proof (bb_decode_checked_in_box lat1 lon1 lat2 lon2 lat 0 r
                Hlo Hhi Hg Hg0) as Hchk.
  assert (Hbox : in_box lat1 lon1 lat2 lon2 lat 0
                 = Qle_bool lat1 lat && Qle_bool lat lat2).
  { unfold in_box. rewrite Epole. cbn [orb]. apply andb_true_r. }
  rewrite <- Hbox.
  destruct (in_box lat1 lon1 lat2 lon2 lat 0) eqn:Hin.
  - rewrite first_byte_test_passes_at_pole by assumption. exact Hchk.
  - destruct (bb_decode_rejects_or_checks
                (new_DecoderWithBoundingBox lat1 lon1 lat2 lon2)
                (field_bytes (DMS (lat_units lat)) (DMS (lon_units lat 0)))
                r) as [E | E]; rewrite E; [reflexivity | exact Hchk].
Qed.

Lemma bb_decode_pole_ignores_longitudes_witness :
  fst (bb_decode (new_DecoderWithBoundingBox (-90) 10 10 (359999999 # 1000000))
         (snd (encode (-90) 123 [])) (mkLatLongCoord 0 0))
  = Qle_bool (-90) (-90) && Qle_bool (-90) 10.
Proof.
  apply (bb_decode_pole_ignores_longitudes
           (-90) 10 10 (359999999 # 1000000) (-90) 123 (mkLatLongCoord 0 0)).
  - unfold Qle; cbn; lia.
  - unfold Qle; cbn; lia.
  - left. reflexivity.
Defined.

(** * The code in binary64 arithmetic

    The properties below are about [GeoEncode64]: every operation on
    [double]s is followed by its rounding.  An angle goes through a few
    roundings on its way into the six bytes and a few more on its way out;
    each moves it by a relative [2^-53] at most, which the statements
    account for with [tie_margin] (on the way in, in 16ths of a second) and
    [tolerance] (on the way out, in degrees). *)

(** ** Rounding to binary64 *)

Section Rounding.

Lemma pow2_pos (k : Z) : (0 < 2 ^ k)%Q.
Proof. apply Qpower_0_lt. reflexivity. Qed.

Lemma pow2_inject (k : Z) : 0 <= k -> (2 ^ k == inject_Z (2 ^ k))%Q.
Proof. intros H. rewrite Zpower_Qpower by exact H. reflexivity. Qed.

(** [ilog2 x] is the exponent of the binade of [x]: the scaled value that
    [rnd] rounds to an integer is in [[2^52, 2^53)]. *)
Lemma ilog2_le (x : Q) : ~ (x == 0)%Q -> (2 ^ ilog2 x <= Qabs x)%Q.
Proof.
  intros Hx. unfold ilog2.
  set (n := Z.abs (Qnum x)). set (d := Z.pos (Qden x)).
  destruct (Qle_bool _ _) eqn:E.
  - apply Qle_bool_iff in E. exact E.
  - assert (Hn : 0 < n).
    { subst n. destruct x as [[|p|p] q]; cbn; try lia.
      exfalso. apply Hx. reflexivity. }
    assert (Hd : 0 < d) by (subst d; lia).
    pose proof (Z.log2_spec n Hn) as [Ha _].
    pose proof (Z.log2_spec d Hd) as [_ Hb].
    pose proof (Z.log2_nonneg n) as Han.
    pose proof (Z.log2_nonneg d) as Hbn.
    set (a := Z.log2 n) in *. set (b := Z.log2 d) in *.
    replace (a - b - 1) with (a - Z.succ b) by lia.
    rewrite Qpower_minus by (intros H; discriminate H).
    rewrite (pow2_inject a), (pow2_inject (Z.succ b)) by lia.
    assert (Hp : 0 < 2 ^ Z.succ b) by (apply Z.pow_pos_nonneg; lia).
    assert (Hq : 0 < 2 ^ a) by (apply Z.pow_pos_nonneg; lia).
    assert (Hab : (Qabs x == inject_Z n / inject_Z d)%Q).
    { destruct x as [xn xd]. subst n d. cbn [Qnum Qden Qabs].
      unfold Qeq, Qdiv, Qmult, Qinv, inject_Z. cbn. lia. }
    rewrite Hab.
    apply Qle_shift_div_l.
    + change 0%Q with (inject_Z 0). rewrite <- Zlt_Qlt. exact Hd.
    + unfold Qdiv. rewrite <- Qmult_assoc, (Qmult_comm (/ _)), Qmult_assoc.
      apply Qle_shift_div_r.
      * change 0%Q with (inject_Z 0). rewrite <- Zlt_Qlt. exact Hp.
      * rewrite <- !inject_Z_mult, <- Zle_Qle. nia.
Qed.

Lemma ilog2_lt (x : Q) : ~ (x == 0)%Q -> (Qabs x < 2 ^ (ilog2 x + 1))%Q.
Proof.
  intros Hx. unfold ilog2.
  set (n := Z.abs (Qnum x)). set (d := Z.pos (Qden x)).
  destruct (Qle_bool _ _) eqn:E.
  - assert (Hn : 0 < n).
    { subst n. destruct x as [[|p|p] q]; cbn; try lia.
      exfalso. apply Hx. reflexivity. }
    assert (Hd : 0 < d) by (subst d; lia).
    pose proof (Z.log2_spec n Hn) as [_ Ha].
    pose proof (Z.log2_spec d Hd) as [Hb _].
    pose proof (Z.log2_nonneg n) as Han.
    pose proof (Z.log2_nonneg d) as Hbn.
    set (a := Z.log2 n) in *. set (b := Z.log2 d) in *.
    replace (a - b + 1) with (Z.succ a - b) by lia.
    rewrite Qpower_minus by (intros H; discriminate H).
    rewrite (pow2_inject (Z.succ a)), (pow2_inject b) by lia.
    assert (Hp : 0 < 2 ^ b) by (apply Z.pow_pos_nonneg; lia).
    assert (Hab : (Qabs x == inject_Z n / inject_Z d)%Q).
    { destruct x as [xn xd]. subst n d. cbn [Qnum Qden Qabs].
      unfold Qeq, Qdiv, Qmult, Qinv, inject_Z. cbn. lia. }
    rewrite Hab.
    apply Qlt_shift_div_r.
    + change 0%Q with (inject_Z 0). rewrite <- Zlt_Qlt. exact Hd.
    + unfold Qdiv. rewrite <- Qmult_assoc, (Qmult_comm (/ _)), Qmult_assoc.
      apply Qlt_shift_div_l.
      * change 0%Q with (inject_Z 0). rewrite <- Zlt_Qlt. exact Hp.
      * rewrite <- !inject_Z_mult, <- Zlt_Qlt. nia.
  - replace (Z.log2 n - Z.log2 d - 1 + 1) with (Z.log2 n - Z.log2 d) by lia.
    apply Qnot_le_lt. intros H. apply Qle_bool_iff in H. congruence.
Qed.

(** Rounding to the nearest integer moves a value by a half at most, and
    not across an integer. *)
Lemma nearest_even_error (x : Q) :
  (Qabs (inject_Z (nearest_even x) - x) <= 1 # 2)%Q.
Proof.
  unfold nearest_even.
  pose proof (Qfloor_le x) as Hl. pose proof (Qlt_floor x) as Hu.
  rewrite inject_Z_plus in Hu. change (inject_Z 1) with 1%Q in Hu.
  apply Qabs_Qle_condition.
  destruct (Qcompare_spec (x - inject_Z (Qfloor x)) (1 # 2)) as [E|E|E].
  - destruct (Z.even (Qfloor x)).
    + lra.
    + rewrite inject_Z_plus. change (inject_Z 1) with 1%Q. lra.
  - lra.
  - rewrite inject_Z_plus. change (inject_Z 1) with 1%Q. lra.
Qed.

Lemma nearest_even_le (x : Q) (n : Z) :
  (x <= inject_Z n)%Q -> nearest_even x <= n.
Proof.
  intros H. unfold nearest_even.
  pose proof (Qfloor_le x) as Hl. pose proof (Qlt_floor x) as Hu.
  assert (Hf : Qfloor x <= n).
  { rewrite Zle_Qle. lra. }
  destruct (Z.eq_dec (Qfloor x) n) as [E | E].
  - rewrite E in *.
    destruct (Qcompare_spec (x - inject_Z n) (1 # 2)) as [C|C|C].
    + exfalso. lra.
    + lia.
    + exfalso. lra.
  - destruct (x - inject_Z (Qfloor x) ?= 1 # 2)%Q;
      [destruct (Z.even _)| |]; lia.
Qed.

(** One rounding moves a value by the relative [unit_roundoff] at most. *)
Lemma rnd_error (x : Q) : (Qabs (rnd x - x) <= Qabs x * unit_roundoff)%Q.
Proof.
  unfold rnd. destruct (Qeq_bool x 0) eqn:E.
  - apply Qeq_bool_iff in E. rewrite E. discriminate.
  - assert (Hx : ~ (x == 0)%Q).
    { intros H. apply Qeq_bool_iff in H. congruence. }
    cbv zeta. rewrite Qred_correct.
    set (e := ilog2 x - 52).
    pose proof (pow2_pos e) as Hp.
    pose proof (nearest_even_error (x / 2 ^ e)) as Hm.
    pose proof (ilog2_le x Hx) as Hl.
    replace (ilog2 x) with (e + 52) in Hl by (subst e; lia).
    rewrite Qpower_plus in Hl by (intros H; discriminate H).
    rewrite (pow2_inject 52) in Hl by lia.
    change (inject_Z (2 ^ 52)) with (4503599627370496 # 1)%Q in Hl.
    set (p := (2 ^ e)%Q) in *. clearbody p.
    set (m := inject_Z (nearest_even (x / p))) in *. clearbody m.
    assert (Hy : (m * p - x == (m - x / p) * p)%Q) by (field; lra).
    rewrite Hy, Qabs_Qmult, (Qabs_pos p) by lra.
    unfold unit_roundoff.
    apply Qle_trans with ((1 # 2) * p)%Q.
    + apply Qmult_le_compat_r; [exact Hm | lra].
    + lra.
Qed.

Lemma rnd_zero (x : Q) : (x == 0)%Q -> rnd x = 0%Q.
Proof.
  intros H. unfold rnd. apply Qeq_bool_iff in H. rewrite H. reflexivity.
Qed.

(** The rounding of a value of magnitude at most [B]. *)
Lemma rnd_within (x B : Q) :
  (- B <= x)%Q -> (x <= B)%Q ->
  (x - B * unit_roundoff <= rnd x)%Q /\ (rnd x <= x + B * unit_roundoff)%Q.
Proof.
  intros Hlo Hhi.
  pose proof (rnd_error x) as H.
  assert (Ha : (Qabs x <= B)%Q)
    by (apply Qabs_Qle_condition; split; assumption).
  assert (Hb : (Qabs (rnd x - x) <= B * unit_roundoff)%Q).
  { eapply Qle_trans; [exact H|]. apply Qmult_le_compat_r; [exact Ha|].
    unfold unit_roundoff. discriminate. }
  apply Qabs_Qle_condition in Hb. destruct Hb as [H1 H2].
  split; lra.
Qed.

(** The rounding of a non-negative value. *)
Lemma rnd_nonneg (x : Q) :
  (0 <= x)%Q ->
  (x * (1 - unit_roundoff) <= rnd x)%Q
  /\ (rnd x <= x * (1 + unit_roundoff))%Q.
Proof.
  intros Hx. pose proof (rnd_error x) as H.
  rewrite (Qabs_pos x) in H by exact Hx.
  apply Qabs_Qle_condition in H. destruct H as [H1 H2].
  split; lra.
Qed.

Lemma rnd_nonpos (x : Q) : (x <= 0)%Q -> (rnd x <= 0)%Q.
Proof.
  intros H. pose proof (rnd_error x) as E.
  rewrite (Qabs_neg x) in E by exact H.
  apply Qabs_Qle_condition in E. unfold unit_roundoff in E. lra.
Qed.

(** Rounding does not cross an integer that a double holds exactly. *)
Lemma rnd_le_Z (x : Q) (n : Z) :
  0 < n <= 2 ^ 53 -> (x <= inject_Z n)%Q -> (rnd x <= inject_Z n)%Q.
Proof.
  intros Hn Hx.
  assert (Hn0 : (0 < inject_Z n)%Q)
    by (change 0%Q with (inject_Z 0); rewrite <- Zlt_Qlt; lia).
  destruct (Qlt_le_dec 0 x) as [Hpos | Hneg];
    [|pose proof (rnd_nonpos x Hneg); lra].
  assert (Hne : ~ (x == 0)%Q) by lra.
  pose proof (ilog2_le x Hne) as Hl. rewrite (Qabs_pos x) in Hl by lra.
  unfold rnd.
  replace (Qeq_bool x 0) with false
    by (symmetry; apply not_true_iff_false; intros E;
        apply Qeq_bool_iff in E; contradiction).
  cbv zeta. rewrite Qred_correct.
  set (e := ilog2 x - 52) in *.
  replace (ilog2 x) with (52 + e) in Hl by (subst e; lia).
  rewrite Qpower_plus in Hl by (intros H; discriminate H).
  change (2 ^ 52)%Q with 4503599627370496%Q in Hl.
  pose proof (pow2_pos e) as Hp.
  assert (Hy : (x / 2 ^ e * 2 ^ e == x)%Q) by (field; lra).
  destruct (Z.le_gt_cases e 0) as [He | He].
  - (* the bound is a multiple of the unit in the last place *)
    assert (Hq : (inject_Z (n * 2 ^ (- e)) * 2 ^ e == inject_Z n)%Q).
    { rewrite inject_Z_mult, (Zpower_Qpower 2 (- e)) by lia.
      rewrite Qpower_opp. change (inject_Z 2) with 2%Q. field. lra. }
    pose proof (nearest_even_le (x / 2 ^ e) (n * 2 ^ (- e))) as Hm.
    rewrite <- Hq.
    apply Qmult_le_compat_r; [|lra].
    rewrite <- Zle_Qle. apply Hm.
    apply Qle_shift_div_r; [exact Hp|]. rewrite Hq. exact Hx.
  - (* the value is at least [2^53]: so is the bound, which is [2^53] *)
    assert (H2 : (2 <= 2 ^ e)%Q).
    { change 2%Q with (2 ^ 1)%Q at 1. apply Qpower_le_compat_l; [lia|].
      discriminate. }
    assert (Hb : (inject_Z n <= 9007199254740992)%Q).
    { change 9007199254740992%Q with (inject_Z (2 ^ 53)).
      rewrite <- Zle_Qle. lia. }
    pose proof (nearest_even_le (x / 2 ^ e) (2 ^ 52)) as Hm.
    change (inject_Z (2 ^ 52)) with 4503599627370496%Q in Hm.
    assert (Hm' : (inject_Z (nearest_even (x / 2 ^ e)) <= 4503599627370496)%Q).
    { change 4503599627370496%Q with (inject_Z (2 ^ 52)).
      rewrite <- Zle_Qle. apply Hm.
      apply Qle_shift_div_r; [exact Hp|].
      set (p := (2 ^ e)%Q) in *. clearbody p. nra. }
    set (p := (2 ^ e)%Q) in *. clearbody p.
    set (m := inject_Z (nearest_even (x / p))) in *. clearbody m.
    nra.
Qed.

(** [round] of a value nearer than a half to an integer is that integer. *)
Lemma round_off_tie (x : Q) (j : Z) :
  (Qabs (x - inject_Z j) < 1 # 2)%Q -> round x = j.
Proof.
  intros H. apply Qabs_Qlt_condition in H. destruct H as [H1 H2].
  unfold round. destruct (Qle_bool 0 x) eqn:E.
  - apply Qfloor_unique.
    + lra.
    + rewrite inject_Z_plus. change (inject_Z 1) with 1%Q. lra.
  - rewrite (Qfloor_unique _ (- j)); [lia| |].
    + rewrite inject_Z_opp. lra.
    + rewrite inject_Z_plus, inject_Z_opp. change (inject_Z 1) with 1%Q. lra.
Qed.

(** Rounding a value in [[0, n + 1/2)] gives an integer in [[0, n]]. *)
Lemma round_bounds (x : Q) (n : Z) :
  (0 <= x)%Q -> (x < inject_Z n + (1 # 2))%Q -> 0 <= round x <= n.
Proof.
  intros H0 Hn. destruct (round_error x H0) as [E1 E2].
  assert (H1 : (inject_Z (-1) < inject_Z (round x))%Q)
    by (change (inject_Z (-1)) with (-1)%Q; lra).
  assert (H2 : (inject_Z (round x) < inject_Z (n + 1))%Q)
    by (rewrite inject_Z_plus; change (inject_Z 1) with 1%Q; lra).
  rewrite <- Zlt_Qlt in H1, H2. lia.
Qed.

End Rounding.

(** The values that IEEE arithmetic gives, on a few operations of the
    code: [0.1], [0x1.fffffffffffffp-10 + 90.0] and its product by
    [57600.0], [-2^-70 + 360] and [90 + 12/60.0 - 90.0]. *)
Example rnd_values :
  (rnd (1 # 10) == 3602879701896397 # 36028797018963968)%Q
  /\ (rnd (just_below_1_512 + 90) == 46081 # 512)%Q
  /\ (rnd (rnd (just_below_1_512 + 90) * 57600) == 10368225 # 2)%Q
  /\ (rnd (- (1 # 1180591620717411303424) + 360) == 360)%Q
  /\ (rnd (rnd (90 + rnd (12 / 60)) - 90)
      == 14073748835533 # 70368744177664)%Q.
Proof. repeat split; vm_compute; reflexivity. Qed.

Ltac rnd_pos t :=
  let r := fresh "r" in
  let Rlo := fresh "Rlo" in
  let Rhi := fresh "Rhi" in
  destruct (rnd_nonneg t) as [Rlo Rhi]; [lra|];
  unfold unit_roundoff in Rlo, Rhi; set (r := rnd t) in *; clearbody r.

Ltac rnd_abs t B :=
  let r := fresh "r" in
  let Rlo := fresh "Rlo" in
  let Rhi := fresh "Rhi" in
  destruct (rnd_within t B) as [Rlo Rhi]; [lra|lra|];
  unfold unit_roundoff in Rlo, Rhi; set (r := rnd t) in *; clearbody r.

(** ** What [GeoEncode64.encode] appends *)

Section Encoded64.

Lemma encode64_unfold (lat lon : Q) (s : list byte) :
  GeoEncode64.encode lat lon s =
    if Qltb lat (-90)%Q || Qltb 90%Q lat then (false, s)
    else (true, s ++ field_bytes (DMS (lat_units64 lat))
                                 (DMS (lon_units64 lat lon))).
Proof.
  unfold GeoEncode64.encode. cbv zeta.
  destruct (Qltb lat (-90)%Q || Qltb 90%Q lat); [reflexivity|].
  rewrite write_fields_append. reflexivity.
Qed.

Lemma encode64_in_range (lat lon : Q) (s : list byte) :
  (-90 <= lat)%Q -> (lat <= 90)%Q ->
  GeoEncode64.encode lat lon s =
    (true, s ++ field_bytes (DMS (lat_units64 lat))
                            (DMS (lon_units64 lat lon))).
Proof.
  intros Hlo Hhi. rewrite encode64_unfold.
  apply Qltb_ge in Hlo. apply Qltb_ge in Hhi. rewrite Hlo, Hhi.
  reflexivity.
Qed.

(** The units of the latitude: in range, and within a half and
    [tie_margin] of the shifted latitude in 16ths of a second. *)
Lemma lat_units64_spec (lat : Q) :
  (-90 <= lat)%Q -> (lat <= 90)%Q ->
  0 <= lat_units64 lat <= 10368000
  /\ (Qabs (inject_Z (lat_units64 lat) - (lat + 90) * 57600)
      <= (1 # 2) + tie_margin)%Q.
Proof.
  intros Hlo Hhi. unfold lat_units64, tie_margin.
  rnd_pos (lat + 90)%Q. rnd_pos (r * 57600)%Q.
  destruct (round_error r0) as [E1 E2]; [lra|].
  split.
  - apply round_bounds; [lra|].
    change (inject_Z 10368000) with 10368000%Q. lra.
  - apply Qabs_Qle_condition. split; lra.
Qed.

(** The longitude as the code wraps it is within one rounding of the
    wrapped longitude, and not above 360. *)
Lemma wrap360_64_spec (lon : Q) :
  (0 <= wrap360_64 lon)%Q
  /\ (wrap360 lon - 360 * unit_roundoff <= wrap360_64 lon)%Q
  /\ (wrap360_64 lon <= wrap360 lon + 360 * unit_roundoff)%Q.
Proof.
  pose proof (wrap360_range lon) as [W0 W1]. revert W0 W1.
  unfold wrap360_64, wrap360. cbv zeta.
  destruct (Qltb (fmod lon 360) 0) eqn:E; intros W0 W1.
  - rnd_pos (fmod lon 360 + 360)%Q. unfold unit_roundoff. repeat split; lra.
  - unfold unit_roundoff. repeat split; lra.
Qed.

Lemma wrap360_64_le (lon : Q) : (wrap360_64 lon <= 360)%Q.
Proof.
  pose proof (fmod360_range lon) as [Hlo Hhi].
  unfold wrap360_64. cbv zeta.
  destruct (Qltb (fmod lon 360) 0) eqn:E.
  - apply Qltb_lt in E.
    apply (rnd_le_Z _ 360); [lia|]. change (inject_Z 360) with 360%Q. lra.
  - lra.
Qed.

(** The units of the longitude before the fold, against the wrapped
    longitude and against the longitude as the code wraps it. *)
Lemma wrapped_units64_spec (lon : Q) :
  0 <= round (rnd (wrap360_64 lon * 57600))%Q <= 20736000
  /\ (Qabs (inject_Z (round (rnd (wrap360_64 lon * 57600)))
            - wrap360 lon * 57600) <= (1 # 2) + tie_margin)%Q.
Proof.
  pose proof (wrap360_range lon) as [W0 W1].
  destruct (wrap360_64_spec lon) as (V0 & V1 & V2).
  unfold unit_roundoff in V1, V2.
  unfold tie_margin.
  set (w := wrap360_64 lon) in *. clearbody w.
  rnd_pos (w * 57600)%Q.
  destruct (round_error r) as [E1 E2]; [lra|].
  split.
  - apply round_bounds; [lra|].
    change (inject_Z 20736000) with 20736000%Q. lra.
  - apply Qabs_Qle_condition. split; lra.
Qed.

Lemma stored_units64_spec (lon : Q) :
  0 <= round (rnd (wrap360_64 lon * 57600))%Q <= 20736000
  /\ (Qabs (inject_Z (round (rnd (wrap360_64 lon * 57600)))
            - wrap360_64 lon * 57600) <= (1 # 2) + tie_margin)%Q.
Proof.
  destruct (wrap360_64_spec lon) as (V0 & _ & _).
  pose proof (wrap360_64_le lon) as V1.
  unfold tie_margin.
  set (w := wrap360_64 lon) in *. clearbody w.
  rnd_pos (w * 57600)%Q.
  destruct (round_error r) as [E1 E2]; [lra|].
  split.
  - apply round_bounds; [lra|].
    change (inject_Z 20736000) with 20736000%Q. lra.
  - apply Qabs_Qle_condition. split; lra.
Qed.

Lemma lon_units64_range (lat lon : Q) : 0 <= lon_units64 lat lon <= 20735999.
Proof.
  unfold lon_units64. cbv zeta.
  destruct ((lat_units64 lat =? 0) || (lat_units64 lat =? 10368000)); [lia|].
  destruct (wrapped_units64_spec lon) as [H _].
  destruct (Z.eqb_spec (round (rnd (wrap360_64 lon * 57600))%Q) 20736000); lia.
Qed.

Lemma corner_lon_units64_range (lon : Q) :
  0 <= corner_lon_units64 lon <= 20735999.
Proof.
  unfold corner_lon_units64. cbv zeta.
  destruct (stored_units64_spec lon) as [H _].
  destruct (Z.eqb_spec (round (rnd (wrap360_64 lon * 57600))%Q) 20736000); lia.
Qed.

Lemma lon_units64_pole (lat lon : Q) :
  lat_units64 lat = 0 \/ lat_units64 lat = 10368000 ->
  lon_units64 lat lon = 0.
Proof.
  intros H. unfold lon_units64.
  replace ((lat_units64 lat =? 0) || (lat_units64 lat =? 10368000)) with true;
    [reflexivity|].
  symmetry. apply orb_true_iff. rewrite !Z.eqb_eq. exact H.
Qed.

End Encoded64.

(** ** What [GeoEncode64.decode] reads back *)

Section Decoded64.

(** The six field bytes of in-range fields decode to the angle they were
    split from, within [tolerance]; a longitude of 0 comes back as 0. *)
Lemma decode64_field_bytes (a b : DegreesMinutesSeconds) :
  0 <= degrees a <= 180 -> 0 <= degrees b <= 359 ->
  0 <= minutes a < 60 -> 0 <= minutes b < 60 ->
  0 <= seconds a < 60 -> 0 <= seconds b < 60 ->
  0 <= sec16ths a < 16 -> 0 <= sec16ths b < 16 ->
  let d := GeoEncode64.decode (field_bytes a b) in
  let ua :=
    57600 * degrees a + 960 * minutes a + 16 * seconds a + sec16ths a in
  let ub :=
    57600 * degrees b + 960 * minutes b + 16 * seconds b + sec16ths b in
  (Qabs (lat d - (inject_Z ua / 57600 - 90)) <= tolerance)%Q
  /\ (Qabs (lon d - inject_Z ub / 57600) <= tolerance)%Q
  /\ (ub = 0 -> (lon d == 0)%Q).
Proof.
  destruct a as [da ma sa xa], b as [db mb sb xb].
  cbn [degrees minutes seconds sec16ths].
  intros Hda Hdb Hma Hmb Hsa Hsb Hxa Hxb. cbv zeta.
  unfold GeoEncode64.decode, GeoEncode64.decode_buf, field_bytes, ptr. cbv zeta.
  cbn [length nth Nat.ltb Nat.leb lat lon degrees minutes seconds sec16ths].
  unfold to_unsigned. rewrite (Z.mod_small (da + db * 181)) by lia.
  rewrite be16_roundtrip by lia.
  rewrite !Z.quot_div_nonneg, !Z.rem_mod_nonneg by lia.
  pose proof (nibbles_roundtrip (ma / 4) (mb / 4)) as N2.
  pose proof (crumbs_roundtrip (ma mod 4) (mb mod 4) (sa / 15) (sb / 15)) as N3.
  pose proof (nibbles_roundtrip (sa mod 15) (sb mod 15)) as N4.
  pose proof (nibbles_roundtrip xa xb) as N5.
  cbv zeta in N2, N3, N4, N5.
  destruct N2 as (E2a & E2b & _); [Z.div_mod_to_equations; lia ..|].
  destruct N3 as (E3a & E3b & E3c & E3d); [Z.div_mod_to_equations; lia ..|].
  destruct N4 as (_ & E4b & E4a); [Z.div_mod_to_equations; lia ..|].
  destruct N5 as (E5a & E5b & _); [lia ..|].
  rewrite E2a, E2b, E3a, E3b, E3c, E3d, E4a, E4b, E5a, E5b.
  replace ((da + db * 181) mod 181) with da by (Z.div_mod_to_equations; lia).
  replace ((da + db * 181) / 181) with db by (Z.div_mod_to_equations; lia).
  assert (Hm : forall m, 0 <= m < 60 ->
             (0 <= inject_Z (m / 4 * 4))%Q /\ (0 <= inject_Z (m mod 4))%Q
             /\ (inject_Z (m / 4 * 4) + inject_Z (m mod 4) == inject_Z m)%Q).
  { intros m Hm. repeat split.
    - apply inject_Z_nonneg. Z.div_mod_to_equations. lia.
    - apply inject_Z_nonneg. Z.div_mod_to_equations. lia.
    - rewrite <- inject_Z_plus. apply inject_Z_eq.
      Z.div_mod_to_equations. lia. }
  assert (Hs : forall s, 0 <= s < 60 ->
             (0 <= inject_Z (s / 15 * 15))%Q /\ (0 <= inject_Z (s mod 15))%Q
             /\ (inject_Z (s / 15 * 15) + inject_Z (s mod 15) == inject_Z s)%Q).
  { intros s Hs. repeat split.
    - apply inject_Z_nonneg. Z.div_mod_to_equations. lia.
    - apply inject_Z_nonneg. Z.div_mod_to_equations. lia.
    - rewrite <- inject_Z_plus. apply inject_Z_eq.
      Z.div_mod_to_equations. lia. }
  assert (Hr : forall z lo hi, lo <= z <= hi ->
             (inject_Z lo <= inject_Z z)%Q /\ (inject_Z z <= inject_Z hi)%Q).
  { intros z lo hi [H1 H2]. rewrite <- !Zle_Qle. split; assumption. }
  destruct (Hm ma Hma) as (Ma1 & Ma2 & Ma3).
  destruct (Hm mb Hmb) as (Mb1 & Mb2 & Mb3).
  destruct (Hs sa Hsa) as (Sa1 & Sa2 & Sa3).
  destruct (Hs sb Hsb) as (Sb1 & Sb2 & Sb3).
  destruct (Hr da 0 180 Hda) as [Da1 Da2].
  destruct (Hr db 0 359 Hdb) as [Db1 Db2].
  destruct (Hr ma 0 59 ltac:(lia)) as [Ma4 Ma5].
  destruct (Hr mb 0 59 ltac:(lia)) as [Mb4 Mb5].
  destruct (Hr sa 0 59 ltac:(lia)) as [Sa4 Sa5].
  destruct (Hr sb 0 59 ltac:(lia)) as [Sb4 Sb5].
  destruct (Hr xa 0 15 ltac:(lia)) as [Xa4 Xa5].
  destruct (Hr xb 0 15 ltac:(lia)) as [Xb4 Xb5].
  clear Hm Hs Hr.
  change (inject_Z 0) with 0%Q in *. change (inject_Z 180) with 180%Q in *.
  change (inject_Z 359) with 359%Q in *. change (inject_Z 59) with 59%Q in *.
  change (inject_Z 15) with 15%Q in *.
  assert (Hzero : 57600 * db + 960 * mb + 16 * sb + xb = 0 ->
            (inject_Z db == 0 /\ inject_Z mb == 0 /\ inject_Z sb == 0
             /\ inject_Z xb == 0)%Q).
  { intros Hz.
    assert (db = 0 /\ mb = 0 /\ sb = 0 /\ xb = 0) as (-> & -> & -> & ->)
      by lia.
    repeat split; reflexivity. }
  unfold tolerance.
  unfold Qdiv. change (/ 16)%Q with (1 # 16)%Q. change (/ 60)%Q with (1 # 60)%Q.
  change (/ 57600)%Q with (1 # 57600)%Q.
  set (ma1 := inject_Z (ma / 4 * 4)) in *.
  set (ma2 := inject_Z (ma mod 4)) in *.
  set (mb1 := inject_Z (mb / 4 * 4)) in *.
  set (mb2 := inject_Z (mb mod 4)) in *.
  set (sa1 := inject_Z (sa / 15 * 15)) in *.
  set (sa2 := inject_Z (sa mod 15)) in *.
  set (sb1 := inject_Z (sb / 15 * 15)) in *.
  set (sb2 := inject_Z (sb mod 15)) in *.
  clearbody ma1 ma2 mb1 mb2 sa1 sa2 sb1 sb2.
  rewrite !inject_Z_plus, !inject_Z_mult.
  change (inject_Z 57600) with 57600%Q in *.
  change (inject_Z 960) with 960%Q in *.
  change (inject_Z 16) with 16%Q in *.
  set (qda := inject_Z da) in *. set (qdb := inject_Z db) in *.
  set (qma := inject_Z ma) in *. set (qmb := inject_Z mb) in *.
  set (qsa := inject_Z sa) in *. set (qsb := inject_Z sb) in *.
  set (qxa := inject_Z xa) in *. set (qxb := inject_Z xb) in *.
  clearbody qda qdb qma qmb qsa qsb qxa qxb.
  split; [|split].
  - clear Hzero.
    rnd_pos (ma1 + ma2)%Q.
    rnd_pos (sa1 + sa2)%Q.
    rnd_pos (qxa * (1 # 16))%Q.
    rnd_pos (r0 + r1)%Q.
    rnd_pos (r2 * (1 # 60))%Q.
    rnd_pos (r + r3)%Q.
    rnd_pos (r4 * (1 # 60))%Q.
    rnd_pos (qda + r5)%Q.
    rnd_abs (r6 - 90)%Q 100%Q.
    apply Qabs_Qle_condition. split; lra.
  - clear Hzero.
    rnd_pos (mb1 + mb2)%Q.
    rnd_pos (sb1 + sb2)%Q.
    rnd_pos (qxb * (1 # 16))%Q.
    rnd_pos (r0 + r1)%Q.
    rnd_pos (r2 * (1 # 60))%Q.
    rnd_pos (r + r3)%Q.
    rnd_pos (r4 * (1 # 60))%Q.
    rnd_pos (qdb + r5)%Q.
    apply Qabs_Qle_condition. split; lra.
  - intros Hz. destruct (Hzero Hz) as (Z1 & Z2 & Z3 & Z4).
    rnd_pos (mb1 + mb2)%Q.
    rnd_pos (sb1 + sb2)%Q.
    rnd_pos (qxb * (1 # 16))%Q.
    rnd_pos (r0 + r1)%Q.
    rnd_pos (r2 * (1 # 60))%Q.
    rnd_pos (r + r3)%Q.
    rnd_pos (r4 * (1 # 60))%Q.
    rnd_pos (qdb + r5)%Q.
    lra.
Qed.

(** Two integers are equal when one is within a half and [tie_margin] of
    a value that is nearer than a half less [tie_margin] to the other. *)
Lemma Z_eq_of_close (a b : Z) (x : Q) :
  (Qabs (inject_Z a - x) <= (1 # 2) + tie_margin)%Q ->
  (Qabs (x - inject_Z b) < (1 # 2) - tie_margin)%Q ->
  a = b.
Proof.
  intros H1 H2. unfold tie_margin in *.
  apply Qabs_Qle_condition in H1. apply Qabs_Qlt_condition in H2.
  assert (L : (inject_Z (b - 1) < inject_Z a)%Q).
  { replace (b - 1) with (b + -1) by lia. rewrite inject_Z_plus.
    change (inject_Z (-1)) with (-1)%Q. lra. }
  assert (U : (inject_Z a < inject_Z (b + 1))%Q).
  { rewrite inject_Z_plus. change (inject_Z 1) with 1%Q. lra. }
  rewrite <- Zlt_Qlt in L, U. lia.
Qed.

(** Decoding the bytes of a valid coordinate gives its two quantized
    angles, in degrees, within [tolerance]. *)
Lemma decode64_encoded_units (lat lon : Q) :
  (-90 <= lat)%Q -> (lat <= 90)%Q ->
  let d := GeoEncode64.decode (field_bytes (DMS (lat_units64 lat))
                                           (DMS (lon_units64 lat lon))) in
  (Qabs (GeoEncode.lat d - (inject_Z (lat_units64 lat) / 57600 - 90))
   <= tolerance)%Q
  /\ (Qabs (GeoEncode.lon d - inject_Z (lon_units64 lat lon) / 57600)
      <= tolerance)%Q
  /\ (lon_units64 lat lon = 0 -> (GeoEncode.lon d == 0)%Q).
Proof.
  intros Hlo Hhi d. subst d.
  destruct (lat_units64_spec lat Hlo Hhi) as [Ha _].
  pose proof (lon_units64_range lat lon) as Hb.
  destruct (DMS_fields (lat_units64 lat)) as (Ea & Ma & Sa & Xa & Ra); [lia|].
  destruct (DMS_fields (lon_units64 lat lon)) as (Eb & Mb & Sb & Xb & Rb);
    [lia|].
  assert (Hda : 0 <= degrees (DMS (lat_units64 lat)) <= 180)
    by (rewrite Ea; Z.div_mod_to_equations; lia).
  assert (Hdb : 0 <= degrees (DMS (lon_units64 lat lon)) <= 359)
    by (rewrite Eb; Z.div_mod_to_equations; lia).
  pose proof (decode64_field_bytes _ _ Hda Hdb Ma Mb Sa Sb Xa Xb) as D.
  cbv zeta in D. rewrite <- Ra, <- Rb in D. exact D.
Qed.

(** Away from the ties, the unit the code stores is the rounding of the
    unshifted latitude. *)
Lemma off_tie_latitude (dlat lat : Q) (k : Z) :
  (Qabs (inject_Z k - (lat + 90) * 57600) <= (1 # 2) + tie_margin)%Q ->
  (Qabs (dlat - (inject_Z k / 57600 - 90)) <= tolerance)%Q ->
  off_tie (lat * 57600) ->
  (Qabs (dlat - inject_Z (round (lat * 57600)) / 57600) <= tolerance)%Q.
Proof.
  intros Kb Dlat [j Hj].
  assert (Hk : k = j + 5184000).
  { apply (Z_eq_of_close _ _ ((lat + 90) * 57600)); [exact Kb|].
    rewrite inject_Z_plus. change (inject_Z 5184000) with 5184000%Q.
    eapply Qle_lt_trans; [|exact Hj].
    apply Qle_lteq. right. apply Qabs_wd. ring. }
  rewrite (round_off_tie _ j)
    by (eapply Qlt_trans; [exact Hj|]; reflexivity).
  eapply Qle_trans; [|exact Dlat].
  apply Qle_lteq. right. apply Qabs_wd.
  rewrite Hk, inject_Z_plus. change (inject_Z 5184000) with 5184000%Q.
  field.
Qed.

Lemma off_tie_longitude (dlon w : Q) (l : Z) :
  (Qabs (inject_Z l - w * 57600) <= (1 # 2) + tie_margin)%Q ->
  (Qabs (dlon - inject_Z (l mod 20736000) / 57600) <= tolerance)%Q ->
  off_tie (w * 57600) ->
  (Qabs (dlon - inject_Z (round (w * 57600) mod 20736000) / 57600)
   <= tolerance)%Q.
Proof.
  intros Lb Dlon [j Hj].
  assert (Hl : l = j) by (apply (Z_eq_of_close _ _ _ Lb Hj)).
  rewrite (round_off_tie _ j)
    by (eapply Qlt_trans; [exact Hj|]; reflexivity).
  rewrite <- Hl. exact Dlon.
Qed.

(** A decoded latitude that is exactly a pole comes from the units of
    that pole. *)
Lemma pole_units_of_decoded (d : Q) (k : Z) :
  0 <= k <= 10368000 ->
  (Qabs (d - (inject_Z k / 57600 - 90)) <= tolerance)%Q ->
  ((d == -90)%Q -> k = 0) /\ ((d == 90)%Q -> k = 10368000).
Proof.
  unfold tolerance. intros Hk Hd.
  apply Qabs_Qle_condition in Hd.
  unfold Qdiv in Hd. change (/ 57600)%Q with (1 # 57600)%Q in Hd.
  split; intros E.
  - assert (H : (inject_Z k < inject_Z 1)%Q).
    { change (inject_Z 1) with 1%Q. set (b := inject_Z k) in *. clearbody b.
      lra. }
    rewrite <- Zlt_Qlt in H. lia.
  - assert (H : (inject_Z 10367999 < inject_Z k)%Q).
    { change (inject_Z 10367999) with 10367999%Q.
      set (b := inject_Z k) in *. clearbody b. lra. }
    rewrite <- Zlt_Qlt in H. lia.
Qed.

(** The bytes of a pole decode to that pole exactly. *)
Lemma decode64_pole_exact (k : Z) :
  (k = 0 -> (GeoEncode.lat (GeoEncode64.decode
                              (field_bytes (DMS k) (DMS 0))) == -90)%Q)
  /\ (k = 10368000 ->
      (GeoEncode.lat (GeoEncode64.decode
                        (field_bytes (DMS k) (DMS 0))) == 90)%Q).
Proof.
  split; intros ->; vm_compute; reflexivity.
Qed.

Lemma decoded64_pole_iff (lat lon : Q) :
  (-90 <= lat)%Q -> (lat <= 90)%Q ->
  is_pole (GeoEncode.lat (GeoEncode64.decode
             (field_bytes (DMS (lat_units64 lat))
                          (DMS (lon_units64 lat lon)))))
  <-> lat_units64 lat = 0 \/ lat_units64 lat = 10368000.
Proof.
  intros Hlo Hhi.
  destruct (lat_units64_spec lat Hlo Hhi) as [Rk _].
  destruct (decode64_encoded_units lat lon Hlo Hhi) as (Dlat & _ & _).
  cbv zeta in Dlat.
  split.
  - destruct (pole_units_of_decoded _ _ Rk Dlat) as [Ps Pn].
    intros [E | E]; [left; apply Ps, E | right; apply Pn, E].
  - intros Hp. rewrite (lon_units64_pole lat lon Hp).
    destruct (decode64_pole_exact (lat_units64 lat)) as [Es En].
    destruct Hp as [E | E]; [left; apply Es, E | right; apply En, E].
Qed.

(** The decoded latitude of an encoding is in [[-90, 90]]. *)
Lemma decoded64_lat_range (lat lon : Q) :
  (-90 <= lat)%Q -> (lat <= 90)%Q ->
  let d := GeoEncode64.decode (field_bytes (DMS (lat_units64 lat))
                                           (DMS (lon_units64 lat lon))) in
  (-90 <= GeoEncode.lat d)%Q /\ (GeoEncode.lat d <= 90)%Q.
Proof.
  intros Hlo Hhi. cbv zeta.
  destruct (lat_units64_spec lat Hlo Hhi) as [Rk _].
  destruct (decode64_encoded_units lat lon Hlo Hhi) as (Dlat & _ & _).
  cbv zeta in Dlat.
  pose proof (decoded64_pole_iff lat lon Hlo Hhi) as [_ Hp].
  unfold is_pole in Hp.
  set (dlat := GeoEncode.lat (GeoEncode64.decode _)) in *. clearbody dlat.
  unfold tolerance in Dlat. apply Qabs_Qle_condition in Dlat.
  unfold Qdiv in Dlat. change (/ 57600)%Q with (1 # 57600)%Q in Dlat.
  assert (H0 : lat_units64 lat = 0 \/ 1 <= lat_units64 lat) by lia.
  assert (H1 : lat_units64 lat = 10368000 \/ lat_units64 lat <= 10367999)
    by lia.
  split.
  - destruct H0 as [E | E].
    + destruct (Hp (or_introl E)) as [P | P]; rewrite P; discriminate.
    + rewrite Zle_Qle in E. change (inject_Z 1) with 1%Q in E.
      set (a := inject_Z (lat_units64 lat)) in *. clearbody a. lra.
  - destruct H1 as [E | E].
    + destruct (Hp (or_intror E)) as [P | P]; rewrite P; discriminate.
    + rewrite Zle_Qle in E. change (inject_Z 10367999) with 10367999%Q in E.
      set (a := inject_Z (lat_units64 lat)) in *. clearbody a. lra.
Qed.

End Decoded64.

(** ** Round trip *)

(** C2, as the code has it: for [lat] in [-90, 90] and any [lon],
    [encode] succeeds and appends six bytes, and there are integers [k]
    and [l], the units the code rounds to, within a half and [tie_margin]
    of [(lat + 90) * 57600] and of [wrap360 lon * 57600], such that the
    bytes decode, within [tolerance], to the latitude [k / 57600 - 90]
    and, unless that is a pole, to the longitude [l / 57600] with the full
    turn folded to zero; at a pole the decoded longitude is 0.  When
    [lat * 57600] is not within [tie_margin] of a halfway point, the
    decoded latitude is [round(lat * 57600) / 57600] within [tolerance],
    and likewise the longitude is the wrapped longitude rounded to the
    grid when [wrap360 lon * 57600] is not within [tie_margin] of a
    halfway point. *)
Theorem encode_decode_roundtrip (lat lon : Q) (s : list byte) :
  (-90 <= lat)%Q -> (lat <= 90)%Q ->
  exists (buf : list byte) (k l : Z),
    GeoEncode64.encode lat lon s = (true, s ++ buf)
    /\ length buf = 6%nat
    /\ 0 <= k <= 10368000
    /\ 0 <= l <= 20736000
    /\ (Qabs (inject_Z k - (lat + 90) * 57600) <= (1 # 2) + tie_margin)%Q
    /\ (Qabs (inject_Z l - wrap360 lon * 57600) <= (1 # 2) + tie_margin)%Q
    /\ (Qabs (GeoEncode.lat (GeoEncode64.decode buf)
              - (inject_Z k / 57600 - 90)) <= tolerance)%Q
    /\ (k = 0 \/ k = 10368000 ->
        (GeoEncode.lon (GeoEncode64.decode buf) == 0)%Q)
    /\ (k <> 0 -> k <> 10368000 ->
        (Qabs (GeoEncode.lon (GeoEncode64.decode buf)
               - inject_Z (l mod 20736000) / 57600) <= tolerance)%Q)
    /\ (off_tie (lat * 57600) ->
        (Qabs (GeoEncode.lat (GeoEncode64.decode buf)
               - inject_Z (round (lat * 57600)) / 57600) <= tolerance)%Q)
    /\ (off_tie (wrap360 lon * 57600) -> k <> 0 -> k <> 10368000 ->
        (Qabs (GeoEncode.lon (GeoEncode64.decode buf) - quantized_lon lon)
         <= tolerance)%Q).
Proof.
  intros Hlo Hhi.
  exists (field_bytes (DMS (lat_units64 lat)) (DMS (lon_units64 lat lon))),
    (lat_units64 lat), (round (rnd (wrap360_64 lon * 57600))%Q).
  destruct (lat_units64_spec lat Hlo Hhi) as [Ka Kb].
  destruct (wrapped_units64_spec lon) as [La Lb].
  destruct (decode64_encoded_units lat lon Hlo Hhi) as (Dlat & Dlon & Dzero).
  cbv zeta in Dlat, Dlon, Dzero.
  set (buf := field_bytes _ _) in *.
  set (k := lat_units64 lat) in *.
  set (l := round (rnd (wrap360_64 lon * 57600))%Q) in *.
  assert (Hpole : k = 0 \/ k = 10368000 -> lon_units64 lat lon = 0).
  { intros H. unfold lon_units64. fold k.
    replace ((k =? 0) || (k =? 10368000)) with true; [reflexivity|].
    symmetry. apply orb_true_iff. rewrite !Z.eqb_eq. exact H. }
  assert (Hfold : k <> 0 -> k <> 10368000 ->
                  lon_units64 lat lon = l mod 20736000).
  { intros H0 H1. unfold lon_units64. fold k. cbv zeta. fold l.
    replace ((k =? 0) || (k =? 10368000)) with false
      by (symmetry; apply orb_false_iff; rewrite !Z.eqb_neq; auto).
    destruct (Z.eqb_spec l 20736000) as [E | E].
    - rewrite E. reflexivity.
    - rewrite Z.mod_small by lia. reflexivity. }
  split; [apply encode64_in_range; assumption|].
  split; [reflexivity|].
  set (dlat := GeoEncode.lat (GeoEncode64.decode buf)) in *.
  set (dlon := GeoEncode.lon (GeoEncode64.decode buf)) in *.
  clearbody dlat dlon buf k l.
  split; [exact Ka|]. split; [exact La|].
  split; [exact Kb|]. split; [exact Lb|].
  split; [exact Dlat|].
  split; [intros H; apply Dzero, Hpole, H|].
  split; [intros H0 H1; rewrite <- (Hfold H0 H1); exact Dlon|].
  split.
  - intros Hoff. exact (off_tie_latitude dlat lat k Kb Dlat Hoff).
  - intros Hoff H0 H1. unfold quantized_lon.
    apply (off_tie_longitude dlon (wrap360 lon) l Lb); [|exact Hoff].
    rewrite <- (Hfold H0 H1). exact Dlon.
Qed.

Lemma encode_decode_roundtrip_witness :
  exists (buf : list byte) (k l : Z),
    GeoEncode64.encode just_below_1_512 (- (119 # 5)) [] = (true, [] ++ buf)
    /\ length buf = 6%nat
    /\ 0 <= k <= 10368000
    /\ 0 <= l <= 20736000
    /\ (Qabs (inject_Z k - (just_below_1_512 + 90) * 57600)
        <= (1 # 2) + tie_margin)%Q
    /\ (Qabs (inject_Z l - wrap360 (- (119 # 5)) * 57600)
        <= (1 # 2) + tie_margin)%Q
    /\ (Qabs (GeoEncode.lat (GeoEncode64.decode buf)
              - (inject_Z k / 57600 - 90)) <= tolerance)%Q
    /\ (k = 0 \/ k = 10368000 ->
        (GeoEncode.lon (GeoEncode64.decode buf) == 0)%Q)
    /\ (k <> 0 -> k <> 10368000 ->
        (Qabs (GeoEncode.lon (GeoEncode64.decode buf)
               - inject_Z (l mod 20736000) / 57600) <= tolerance)%Q)
    /\ (off_tie (just_below_1_512 * 57600) ->
        (Qabs (GeoEncode.lat (GeoEncode64.decode buf)
               - inject_Z (round (just_below_1_512 * 57600)) / 57600)
         <= tolerance)%Q)
    /\ (off_tie (wrap360 (- (119 # 5)) * 57600) -> k <> 0 -> k <> 10368000 ->
        (Qabs (GeoEncode.lon (GeoEncode64.decode buf)
               - quantized_lon (- (119 # 5))) <= tolerance)%Q).
Proof.
  apply (encode_decode_roundtrip just_below_1_512 (- (119 # 5)) []);
    unfold Qle; cbn; lia.
Defined.

(** C2 as stated fails on the code.  At [lat = 0x1.fffffffffffffp-10],
    the double just below [1/512], [lat * 57600] is just below [112.5]
    and rounds to [112]; but [lat + 90.0] rounds to [90.001953125], the
    product is exactly [5184112.5], and [encode] stores [5184113]: the
    bytes decode to [113/57600], a grid step from
    [round(lat * 57600) / 57600].  At [lat = -1/512], where every
    operation is exact, [lat * 57600 = -112.5] rounds to [-113] while the
    shifted value [5183887.5] rounds to [5183888], which decodes to
    [-112/57600]. *)
Lemma roundtrip_near_tie_counterexample :
  GeoEncode64.encode just_below_1_512 0 []
    = (true, [Byte.x00; Byte.x5a; Byte.x00; Byte.x00; Byte.x70; Byte.x10])
  /\ round (just_below_1_512 * 57600)%Q = 112
  /\ (1 # 100000000 <
      Qabs (GeoEncode.lat (GeoEncode64.decode
              [Byte.x00; Byte.x5a; Byte.x00; Byte.x00; Byte.x70; Byte.x10])
            - inject_Z (round (just_below_1_512 * 57600)) / 57600))%Q
  /\ GeoEncode64.encode (- (1 # 512)) 0 []
    = (true, [Byte.x00; Byte.x59; Byte.xe0; Byte.xcc; Byte.x80; Byte.x00])
  /\ round (- (1 # 512) * 57600)%Q = -113
  /\ (1 # 100000000 <
      Qabs (GeoEncode.lat (GeoEncode64.decode
              [Byte.x00; Byte.x59; Byte.xe0; Byte.xcc; Byte.x80; Byte.x00])
            - inject_Z (round (- (1 # 512) * 57600)) / 57600))%Q.
Proof.
  repeat split; vm_compute; reflexivity.
Qed.

(** ** Poles *)

(** C3: a valid coordinate whose latitude the code quantizes to exactly
    -90 or +90 (0 or [57600 * 180] units) is encoded, whatever its
    longitude, to the six bytes of that pole, which decode to longitude 0
    and to that pole.  The latitudes -90, 90 and -89.9999999 are such
    latitudes, and [encode(-90, 1)] followed by [decode] gives
    [(-90, 0)]. *)
Theorem pole_longitude_decodes_to_zero (lat lon : Q) (s : list byte) :
  (-90 <= lat)%Q -> (lat <= 90)%Q ->
  lat_units64 lat = 0 \/ lat_units64 lat = 10368000 ->
  (exists buf : list byte,
     GeoEncode64.encode lat lon s = (true, s ++ buf)
     /\ buf = (if lat_units64 lat =? 0 then south_pole_bytes
               else north_pole_bytes)
     /\ length buf = 6%nat
     /\ (GeoEncode.lon (GeoEncode64.decode buf) == 0)%Q
     /\ (GeoEncode.lat (GeoEncode64.decode buf)
         == if lat_units64 lat =? 0 then -90 else 90)%Q)
  /\ lat_units64 (-90) = 0 /\ lat_units64 90 = 10368000
  /\ lat_units64 (- (899999999 # 10000000)) = 0
  /\ GeoEncode64.encode (-90) 1 s = (true, s ++ south_pole_bytes)
  /\ coord_eq (GeoEncode64.decode south_pole_bytes) (mkLatLongCoord (-90) 0).
Proof.
  intros Hlo Hhi Hpole.
  assert (Hs : GeoEncode64.encode (-90) 1 s = (true, s ++ south_pole_bytes)).
  { rewrite encode64_in_range by (unfold Qle; cbn; lia).
    rewrite (lon_units64_pole (-90) 1) by (left; vm_compute; reflexivity).
    reflexivity. }
  split; [|repeat split; try exact Hs; vm_compute; reflexivity].
  rewrite (encode64_in_range lat lon s Hlo Hhi).
  rewrite (lon_units64_pole lat lon Hpole).
  destruct Hpole as [E | E]; rewrite E; cbn [Z.eqb].
  - exists south_pole_bytes.
    repeat split; try reflexivity; vm_compute; reflexivity.
  - exists north_pole_bytes.
    repeat split; try reflexivity; vm_compute; reflexivity.
Qed.

Lemma pole_longitude_decodes_to_zero_witness :
  (exists buf : list byte,
     GeoEncode64.encode dbl_near_south 1 [Byte.x2a] = (true, [Byte.x2a] ++ buf)
     /\ buf = (if lat_units64 dbl_near_south =? 0 then south_pole_bytes
               else north_pole_bytes)
     /\ length buf = 6%nat
     /\ (GeoEncode.lon (GeoEncode64.decode buf) == 0)%Q
     /\ (GeoEncode.lat (GeoEncode64.decode buf)
         == if lat_units64 dbl_near_south =? 0 then -90 else 90)%Q)
  /\ lat_units64 (-90) = 0 /\ lat_units64 90 = 10368000
  /\ lat_units64 (- (899999999 # 10000000)) = 0
  /\ GeoEncode64.encode (-90) 1 [Byte.x2a]
     = (true, [Byte.x2a] ++ south_pole_bytes)
  /\ coord_eq (GeoEncode64.decode south_pole_bytes) (mkLatLongCoord (-90) 0).
Proof.
  apply (pole_longitude_decodes_to_zero dbl_near_south 1 [Byte.x2a]).
  - unfold Qle; cbn; lia.
  - unfold Qle; cbn; lia.
  - left. vm_compute. reflexivity.
Defined.

(** ** The quantization error *)

(** Encoding loses at most half a grid step and the rounding of the
    double operations: the decoded latitude is within
    [1/115200 + 2 * tolerance] of a degree of the latitude, and away from
    the poles the decoded longitude is as near to the wrapped longitude,
    or is 0 when the wrapped longitude is that near to 360. *)
Theorem quantization_error_at_most_half_step (lat lon : Q) (s : list byte) :
  (-90 <= lat)%Q -> (lat <= 90)%Q ->
  exists buf : list byte,
    GeoEncode64.encode lat lon s = (true, s ++ buf)
    /\ (Qabs (GeoEncode.lat (GeoEncode64.decode buf) - lat)
        <= (1 # 115200) + 2 * tolerance)%Q
    /\ (~ is_pole (GeoEncode.lat (GeoEncode64.decode buf)) ->
        (Qabs (GeoEncode.lon (GeoEncode64.decode buf) - wrap360 lon)
         <= (1 # 115200) + 2 * tolerance)%Q
        \/ ((GeoEncode.lon (GeoEncode64.decode buf) == 0)%Q
            /\ (360 - ((1 # 115200) + 2 * tolerance) <= wrap360 lon)%Q)).
Proof.
  intros Hlo Hhi.
  exists (field_bytes (DMS (lat_units64 lat)) (DMS (lon_units64 lat lon))).
  split; [apply encode64_in_range; assumption|].
  destruct (lat_units64_spec lat Hlo Hhi) as [Rk Sk].
  destruct (wrapped_units64_spec lon) as [Rl Sl].
  destruct (decode64_encoded_units lat lon Hlo Hhi) as (Dlat & Dlon & Dzero).
  cbv zeta in Dlat, Dlon, Dzero.
  pose proof (decoded64_pole_iff lat lon Hlo Hhi) as Hpole.
  set (buf := field_bytes _ _) in *.
  set (dlat := GeoEncode.lat (GeoEncode64.decode buf)) in *.
  set (dlon := GeoEncode.lon (GeoEncode64.decode buf)) in *.
  clearbody dlat dlon buf.
  split.
  - clear Dlon Dzero Hpole Sl. unfold tie_margin, tolerance in *.
    apply Qabs_Qle_condition in Sk. apply Qabs_Qle_condition in Dlat.
    unfold Qdiv in Dlat. change (/ 57600)%Q with (1 # 57600)%Q in Dlat.
    set (a := inject_Z (lat_units64 lat)) in *. clearbody a.
    apply Qabs_Qle_condition. split; lra.
  - intros Hnp.
    assert (Hk0 : lat_units64 lat <> 0) by (intros E; apply Hnp, Hpole; auto).
    assert (Hk1 : lat_units64 lat <> 10368000)
      by (intros E; apply Hnp, Hpole; auto).
    assert (Hl : lon_units64 lat lon
                 = if round (rnd (wrap360_64 lon * 57600))%Q =? 20736000
                   then 0 else round (rnd (wrap360_64 lon * 57600))%Q).
    { unfold lon_units64.
      replace ((lat_units64 lat =? 0) || (lat_units64 lat =? 10368000))
        with false by (symmetry; apply orb_false_iff; rewrite !Z.eqb_neq; auto).
      reflexivity. }
    rewrite Hl in Dlon, Dzero. clear Hl Dlat Sk Hpole Hnp.
    unfold tie_margin, tolerance in *.
    apply Qabs_Qle_condition in Sl. apply Qabs_Qle_condition in Dlon.
    unfold Qdiv in Dlon. change (/ 57600)%Q with (1 # 57600)%Q in Dlon.
    destruct (Z.eqb_spec (round (rnd (wrap360_64 lon * 57600))%Q) 20736000)
      as [E | E].
    + right. rewrite E in Sl.
      change (inject_Z 20736000) with 20736000%Q in Sl.
      split; [apply Dzero; reflexivity | lra].
    + left.
      set (b := inject_Z (round (rnd (wrap360_64 lon * 57600))%Q)) in *.
      clearbody b.
      apply Qabs_Qle_condition. split; lra.
Qed.

Lemma quantization_error_at_most_half_step_witness :
  exists buf : list byte,
    GeoEncode64.encode dbl_1_3 (- dbl_1_7) [] = (true, [] ++ buf)
    /\ (Qabs (GeoEncode.lat (GeoEncode64.decode buf) - dbl_1_3)
        <= (1 # 115200) + 2 * tolerance)%Q
    /\ (~ is_pole (GeoEncode.lat (GeoEncode64.decode buf)) ->
        (Qabs (GeoEncode.lon (GeoEncode64.decode buf) - wrap360 (- dbl_1_7))
         <= (1 # 115200) + 2 * tolerance)%Q
        \/ ((GeoEncode.lon (GeoEncode64.decode buf) == 0)%Q
            /\ (360 - ((1 # 115200) + 2 * tolerance)
                <= wrap360 (- dbl_1_7))%Q)).
Proof.
  apply (quantization_error_at_most_half_step dbl_1_3 (- dbl_1_7) []);
    unfold Qle; cbn; lia.
Defined.

(** ** The decoder with a bounding box *)

Section Box64.

Lemma new64_fields (lat1 lon1 lat2 lon2 : Q) :
  let bb := GeoEncode64.new_DecoderWithBoundingBox lat1 lon1 lat2 lon2 in
  GeoEncode.lon1 bb = wrap360_64 lon1
  /\ GeoEncode.lon2 bb = wrap360_64 lon2
  /\ min_lat bb = lat1 /\ max_lat bb = lat2
  /\ discontinuous_longitude_range bb
     = Qltb (wrap360_64 lon2) (wrap360_64 lon1)
  /\ include_poles bb
     = ((lat_units64 lat1 =? 0) || (lat_units64 lat1 =? 10368000))
       || ((lat_units64 lat2 =? 0) || (lat_units64 lat2 =? 10368000)).
Proof.
  cbv zeta. repeat split.
  unfold GeoEncode64.new_DecoderWithBoundingBox, GeoEncode64.calc_latlon_16ths.
  cbv zeta. cbn [include_poles].
  fold (wrap360_64 lon1). fold (wrap360_64 lon2).
  fold (lat_units64 lat1). fold (lat_units64 lat2).
  change (57600 * 180) with 10368000.
  destruct ((lat_units64 lat1 =? 0) || (lat_units64 lat1 =? 10368000)),
    ((lat_units64 lat2 =? 0) || (lat_units64 lat2 =? 10368000)); reflexivity.
Qed.

Lemma new64_starts (lat1 lon1 lat2 lon2 : Q) :
  (-90 <= lat1)%Q -> (lat1 <= 90)%Q -> (-90 <= lat2)%Q -> (lat2 <= 90)%Q ->
  let bb := GeoEncode64.new_DecoderWithBoundingBox lat1 lon1 lat2 lon2 in
  start1 bb = start_of (lat_units64 lat1) (corner_lon_units64 lon1)
  /\ start2 bb = start_of (lat_units64 lat2) (corner_lon_units64 lon2).
Proof.
  intros H1 H2 H3 H4. cbv zeta.
  destruct (lat_units64_spec lat1 H1 H2) as [R1 _].
  destruct (lat_units64_spec lat2 H3 H4) as [R2 _].
  pose proof (corner_lon_units64_range lon1) as C1.
  pose proof (corner_lon_units64_range lon2) as C2.
  rewrite <- !start_byte by assumption.
  split; reflexivity.
Qed.

(** The first byte of the six bytes of two quantized angles. *)
Lemma first_byte_of_fields (k l : Z) :
  0 <= k <= 10368000 -> 0 <= l <= 20735999 ->
  ptr (field_bytes (DMS k) (DMS l)) 0 = start_of k l.
Proof.
  intros Hk Hl. rewrite <- start_byte by assumption.
  unfold ptr, field_bytes. cbv zeta. cbn [nth].
  unfold DMS. cbv zeta. cbn [degrees]. reflexivity.
Qed.

(** What the part of the box decoder after the first-byte test returns:
    a rejection, or the decoded coordinate when it passes the range
    tests. *)
Lemma bb_decode_checked64_cases (bb : DecoderWithBoundingBox)
    (value : list byte) (r : LatLongCoord) :
  let d := GeoEncode64.decode value in
  GeoEncode64.bb_decode_checked bb value r = (false, r)
  \/ (GeoEncode64.bb_decode_checked bb value r = (true, d)
      /\ (min_lat bb <= lat d)%Q /\ (lat d <= max_lat bb)%Q
      /\ ((lat d == -90)%Q \/ (lat d == 90)%Q
          \/ (discontinuous_longitude_range bb = true
              /\ ((lon d <= lon2 bb)%Q \/ (lon1 bb <= lon d)%Q))
          \/ (discontinuous_longitude_range bb = false
              /\ (lon1 bb <= lon d)%Q /\ (lon d <= lon2 bb)%Q))).
Proof.
  cbv zeta. unfold GeoEncode64.bb_decode_checked. cbv zeta.
  set (d := GeoEncode64.decode value). clearbody d.
  destruct (Qltb (lat d) (min_lat bb)) eqn:E1; [left; reflexivity|].
  destruct (Qltb (max_lat bb) (lat d)) eqn:E2; [left; reflexivity|].
  apply Qltb_ge in E1. apply Qltb_ge in E2. cbn [orb].
  destruct (Qeq_bool (lat d) (-90)) eqn:E3.
  { right. apply Qeq_bool_iff in E3. repeat split; try assumption.
    left. exact E3. }
  destruct (Qeq_bool (lat d) 90) eqn:E4.
  { right. apply Qeq_bool_iff in E4. repeat split; try assumption.
    right; left. exact E4. }
  cbn [orb].
  destruct (discontinuous_longitude_range bb).
  - destruct (Qltb (lon2 bb) (lon d)) eqn:E5.
    + destruct (Qltb (lon d) (lon1 bb)) eqn:E6; [left; reflexivity|].
      apply Qltb_ge in E6. right. cbn [andb].
      repeat split; try assumption.
      right; right; left. split; [reflexivity|]. right. exact E6.
    + apply Qltb_ge in E5. right. cbn [andb].
      repeat split; try assumption.
      right; right; left. split; [reflexivity|]. left. exact E5.
  - destruct (Qltb (lon d) (lon1 bb)) eqn:E5; [left; reflexivity|].
    destruct (Qltb (lon2 bb) (lon d)) eqn:E6; [left; reflexivity|].
    apply Qltb_ge in E5. apply Qltb_ge in E6. right. cbn [orb].
    repeat split; try assumption.
    right; right; right. repeat split; assumption.
Qed.

(** The first-byte test on integers: a point whose quantized angles are
    between those of the corners, or which is a pole of a box that
    includes it, is not rejected. *)
Lemma first_byte_test_integers (disc incl : bool) (k l k1 l1 k2 l2 : Z) :
  0 <= k1 -> 0 <= l1 -> 0 <= k <= 10368000 -> 0 <= l -> k2 <= 10368000 ->
  k1 <= k <= k2 ->
  incl = ((k1 =? 0) || (k1 =? 10368000)) || ((k2 =? 0) || (k2 =? 10368000)) ->
  ((k = 0 \/ k = 10368000) /\ l = 0)
  \/ (disc = true /\ (l <= l2 \/ l1 <= l))
  \/ (disc = false /\ l1 <= l <= l2) ->
  (if disc
   then (start_of k2 l2 <? start_of k l) && (start_of k l <? start_of k1 l1)
   else (start_of k l <? start_of k1 l1) || (start_of k2 l2 <? start_of k l))
  = true ->
  incl && (start_of k l =? 0) = true.
Proof.
  intros Hk1 Hl1 Hk Hl Hk2 Hkk Hincl Hcase Htest.
  destruct Hcase as [[Hp ->] | [[-> Hc] | [-> Hc]]].
  - assert (Hs : start_of k 0 = 0) by (destruct Hp as [-> | ->]; reflexivity).
    rewrite Hs, Hincl. destruct Hp as [-> | ->].
    + replace k1 with 0 by lia. reflexivity.
    + replace k2 with 10368000 by lia. cbn.
      rewrite orb_true_r. reflexivity.
  - exfalso. apply andb_true_iff in Htest. rewrite !Z.ltb_lt in Htest.
    destruct Hc as [Hc | Hc].
    + pose proof (start_of_mono k l k2 l2 ltac:(lia) Hl ltac:(lia) Hc). lia.
    + pose proof (start_of_mono k1 l1 k l Hk1 Hl1 ltac:(lia) Hc). lia.
  - exfalso. apply orb_true_iff in Htest. rewrite !Z.ltb_lt in Htest.
    pose proof (start_of_mono k l k2 l2 ltac:(lia) Hl ltac:(lia) ltac:(lia)).
    pose proof (start_of_mono k1 l1 k l Hk1 Hl1 ltac:(lia) ltac:(lia)).
    lia.
Qed.

(** A decoded value not below a latitude: the units are not below its
    units. *)
Lemma units_ge_of_decoded (x d : Q) (kx k : Z) :
  (Qabs (inject_Z kx - (x + 90) * 57600) <= (1 # 2) + tie_margin)%Q ->
  (Qabs (d - (inject_Z k / 57600 - 90)) <= tolerance)%Q ->
  (x <= d)%Q -> kx <= k.
Proof.
  unfold tie_margin, tolerance. intros Hx Hd Hle.
  apply Qabs_Qle_condition in Hx. apply Qabs_Qle_condition in Hd.
  unfold Qdiv in Hd. change (/ 57600)%Q with (1 # 57600)%Q in Hd.
  assert (H : (inject_Z kx < inject_Z (k + 1))%Q).
  { rewrite inject_Z_plus. change (inject_Z 1) with 1%Q.
    set (a := inject_Z kx) in *. set (b := inject_Z k) in *.
    clearbody a b. lra. }
  rewrite <- Zlt_Qlt in H. lia.
Qed.

Lemma units_le_of_decoded (x d : Q) (kx k : Z) :
  (Qabs (inject_Z kx - (x + 90) * 57600) <= (1 # 2) + tie_margin)%Q ->
  (Qabs (d - (inject_Z k / 57600 - 90)) <= tolerance)%Q ->
  (d <= x)%Q -> k <= kx.
Proof.
  unfold tie_margin, tolerance. intros Hx Hd Hle.
  apply Qabs_Qle_condition in Hx. apply Qabs_Qle_condition in Hd.
  unfold Qdiv in Hd. change (/ 57600)%Q with (1 # 57600)%Q in Hd.
  assert (H : (inject_Z k < inject_Z (kx + 1))%Q).
  { rewrite inject_Z_plus. change (inject_Z 1) with 1%Q.
    set (a := inject_Z kx) in *. set (b := inject_Z k) in *.
    clearbody a b. lra. }
  rewrite <- Zlt_Qlt in H. lia.
Qed.

Lemma lon_units_ge_of_decoded (w d : Q) (raw l : Z) :
  (Qabs (inject_Z raw - w * 57600) <= (1 # 2) + tie_margin)%Q ->
  (Qabs (d - inject_Z l / 57600) <= tolerance)%Q ->
  (w <= d)%Q -> raw <= l.
Proof.
  unfold tie_margin, tolerance. intros Hx Hd Hle.
  apply Qabs_Qle_condition in Hx. apply Qabs_Qle_condition in Hd.
  unfold Qdiv in Hd. change (/ 57600)%Q with (1 # 57600)%Q in Hd.
  assert (H : (inject_Z raw < inject_Z (l + 1))%Q).
  { rewrite inject_Z_plus. change (inject_Z 1) with 1%Q.
    set (a := inject_Z raw) in *. set (b := inject_Z l) in *.
    clearbody a b. lra. }
  rewrite <- Zlt_Qlt in H. lia.
Qed.

Lemma lon_units_le_of_decoded (w d : Q) (raw l : Z) :
  (Qabs (inject_Z raw - w * 57600) <= (1 # 2) + tie_margin)%Q ->
  (Qabs (d - inject_Z l / 57600) <= tolerance)%Q ->
  (d <= w)%Q -> l <= raw.
Proof.
  unfold tie_margin, tolerance. intros Hx Hd Hle.
  apply Qabs_Qle_condition in Hx. apply Qabs_Qle_condition in Hd.
  unfold Qdiv in Hd. change (/ 57600)%Q with (1 # 57600)%Q in Hd.
  assert (H : (inject_Z l < inject_Z (raw + 1))%Q).
  { rewrite inject_Z_plus. change (inject_Z 1) with 1%Q.
    set (a := inject_Z raw) in *. set (b := inject_Z l) in *.
    clearbody a b. lra. }
  rewrite <- Zlt_Qlt in H. lia.
Qed.

Lemma bb_decode64_rejects_or_checks (bb : DecoderWithBoundingBox)
    (value : list byte) (result : LatLongCoord) :
  GeoEncode64.bb_decode bb value result = (false, result)
  \/ GeoEncode64.bb_decode bb value result
     = GeoEncode64.bb_decode_checked bb value result.
Proof.
  unfold GeoEncode64.bb_decode. cbv zeta. repeat case_match; auto.
Qed.

(** The box decoder hands over to the range tests when the first-byte
    test passes or is overridden for a pole. *)
Lemma bb_decode64_passes (bb : DecoderWithBoundingBox)
    (value : list byte) (result : LatLongCoord) :
  ((if discontinuous_longitude_range bb
    then (start2 bb <? ptr value 0) && (ptr value 0 <? start1 bb)
    else (ptr value 0 <? start1 bb) || (start2 bb <? ptr value 0)) = true ->
   include_poles bb && (ptr value 0 =? 0) = true) ->
  GeoEncode64.bb_decode bb value result
  = GeoEncode64.bb_decode_checked bb value result.
Proof.
  unfold GeoEncode64.bb_decode. cbv zeta.
  set (c := GeoEncode64.bb_decode_checked bb value result). clearbody c.
  intros H.
  destruct (discontinuous_longitude_range bb).
  - destruct ((start2 bb <? ptr value 0) && (ptr value 0 <? start1 bb));
      [|reflexivity].
    rewrite (H eq_refl). reflexivity.
  - destruct ((ptr value 0 <? start1 bb) || (start2 bb <? ptr value 0));
      [|reflexivity].
    rewrite (H eq_refl). reflexivity.
Qed.

(** On the bytes of a valid coordinate, a box whose eastern corner does
    not fold passes the first-byte test whenever the range tests accept. *)
Lemma first_byte_test_of_accepted (lat1 lon1 lat2 lon2 lat lon : Q)
    (dlat dlon : Q) :
  (-90 <= lat1)%Q -> (lat1 <= 90)%Q -> (-90 <= lat2)%Q -> (lat2 <= 90)%Q ->
  (-90 <= lat)%Q -> (lat <= 90)%Q ->
  round (rnd (wrap360_64 lon2 * 57600))%Q <> 20736000 ->
  (Qabs (dlat - (inject_Z (lat_units64 lat) / 57600 - 90)) <= tolerance)%Q ->
  (Qabs (dlon - inject_Z (lon_units64 lat lon) / 57600) <= tolerance)%Q ->
  (lat1 <= dlat)%Q -> (dlat <= lat2)%Q ->
  (dlat == -90)%Q \/ (dlat == 90)%Q
  \/ (Qltb (wrap360_64 lon2) (wrap360_64 lon1) = true
      /\ ((dlon <= wrap360_64 lon2)%Q \/ (wrap360_64 lon1 <= dlon)%Q))
  \/ (Qltb (wrap360_64 lon2) (wrap360_64 lon1) = false
      /\ (wrap360_64 lon1 <= dlon)%Q /\ (dlon <= wrap360_64 lon2)%Q) ->
  let k := lat_units64 lat in
  let l := lon_units64 lat lon in
  let k1 := lat_units64 lat1 in
  let l1 := corner_lon_units64 lon1 in
  let k2 := lat_units64 lat2 in
  let l2 := corner_lon_units64 lon2 in
  (if Qltb (wrap360_64 lon2) (wrap360_64 lon1)
   then (start_of k2 l2 <? start_of k l) && (start_of k l <? start_of k1 l1)
   else (start_of k l <? start_of k1 l1) || (start_of k2 l2 <? start_of k l))
  = true ->
  (((k1 =? 0) || (k1 =? 10368000)) || ((k2 =? 0) || (k2 =? 10368000)))
  && (start_of k l =? 0) = true.
Proof.
  intros H1lo H1hi H2lo H2hi Hlo Hhi Hfold Dlat Dlon Hmin Hmax Hcase.
  cbv zeta.
  destruct (lat_units64_spec lat Hlo Hhi) as [Rk _].
  destruct (lat_units64_spec lat1 H1lo H1hi) as [Rk1 Sk1].
  destruct (lat_units64_spec lat2 H2lo H2hi) as [Rk2 Sk2].
  pose proof (lon_units64_range lat lon) as Rl.
  pose proof (corner_lon_units64_range lon1) as Rl1.
  destruct (stored_units64_spec lon1) as [Rr1 Sr1].
  destruct (stored_units64_spec lon2) as [Rr2 Sr2].
  pose proof (units_ge_of_decoded lat1 dlat _ _ Sk1 Dlat Hmin) as Hk1.
  pose proof (units_le_of_decoded lat2 dlat _ _ Sk2 Dlat Hmax) as Hk2.
  destruct (pole_units_of_decoded dlat _ Rk Dlat) as [Ps Pn].
  assert (Hl1 : (wrap360_64 lon1 <= dlon)%Q ->
                corner_lon_units64 lon1 <= lon_units64 lat lon).
  { intros Hle.
    pose proof (lon_units_ge_of_decoded _ dlon _ _ Sr1 Dlon Hle) as Hraw.
    unfold corner_lon_units64. cbv zeta.
    destruct (Z.eqb_spec (round (rnd (wrap360_64 lon1 * 57600))%Q) 20736000);
      lia. }
  assert (Hl2 : (dlon <= wrap360_64 lon2)%Q ->
                lon_units64 lat lon <= corner_lon_units64 lon2).
  { intros Hle.
    pose proof (lon_units_le_of_decoded _ dlon _ _ Sr2 Dlon Hle) as Hraw.
    unfold corner_lon_units64. cbv zeta.
    destruct (Z.eqb_spec (round (rnd (wrap360_64 lon2 * 57600))%Q) 20736000);
      [contradiction | lia]. }
  apply first_byte_test_integers; try lia; try reflexivity.
  destruct Hcase as [E | [E | [[E Hc] | [E Hc]]]].
  - left. pose proof (Ps E) as Hk.
    split; [left; exact Hk|]. apply lon_units64_pole. left. exact Hk.
  - left. pose proof (Pn E) as Hk.
    split; [right; exact Hk|]. apply lon_units64_pole. right. exact Hk.
  - right; left. split; [exact E|].
    destruct Hc as [Hc | Hc]; [left; apply Hl2, Hc | right; apply Hl1, Hc].
  - right; right. split; [exact E|].
    destruct Hc as [Hc1 Hc2]. split; [apply Hl1, Hc1 | apply Hl2, Hc2].
Qed.

(** On the bytes of a valid coordinate the first-byte test changes
    nothing, when the eastern corner does not fold. *)
Lemma bb_decode64_of_encoded
    (lat1 lon1 lat2 lon2 lat lon : Q) (r : LatLongCoord) :
  (-90 <= lat1)%Q -> (lat1 <= 90)%Q -> (-90 <= lat2)%Q -> (lat2 <= 90)%Q ->
  (-90 <= lat)%Q -> (lat <= 90)%Q ->
  round (rnd (wrap360_64 lon2 * 57600))%Q <> 20736000 ->
  GeoEncode64.bb_decode
    (GeoEncode64.new_DecoderWithBoundingBox lat1 lon1 lat2 lon2)
    (snd (GeoEncode64.encode lat lon [])) r
  = GeoEncode64.bb_decode_checked
      (GeoEncode64.new_DecoderWithBoundingBox lat1 lon1 lat2 lon2)
      (snd (GeoEncode64.encode lat lon [])) r.
Proof.
  intros H1lo H1hi H2lo H2hi Hlo Hhi Hfold.
  rewrite (encode64_in_range lat lon [] Hlo Hhi). cbn [snd app].
  destruct (lat_units64_spec lat Hlo Hhi) as [Rk _].
  pose proof (lon_units64_range lat lon) as Rl.
  pose proof (first_byte_of_fields _ _ Rk Rl) as Hfirst.
  destruct (decode64_encoded_units lat lon Hlo Hhi) as (Dlat & Dlon & _).
  cbv zeta in Dlat, Dlon.
  destruct (new64_fields lat1 lon1 lat2 lon2) as (F1 & F2 & F3 & F4 & F5 & F6).
  destruct (new64_starts lat1 lon1 lat2 lon2 H1lo H1hi H2lo H2hi) as [S1 S2].
  cbv zeta in F1, F2, F3, F4, F5, F6, S1, S2.
  set (bb := GeoEncode64.new_DecoderWithBoundingBox lat1 lon1 lat2 lon2) in *.
  set (buf := field_bytes _ _) in *.
  clearbody bb buf.
  destruct (bb_decode_checked64_cases bb buf r) as [Hrej | Hacc].
  - destruct (bb_decode64_rejects_or_checks bb buf r) as [E | E];
      rewrite E; [symmetry; exact Hrej | reflexivity].
  - destruct Hacc as (_ & Hmin & Hmax & Hcase).
    apply bb_decode64_passes.
    rewrite Hfirst, S1, S2, F5, F6.
    rewrite F1, F2, F3, F4, F5 in *.
    set (dlat := GeoEncode.lat (GeoEncode64.decode buf)) in *.
    set (dlon := GeoEncode.lon (GeoEncode64.decode buf)) in *.
    clearbody dlat dlon.
    apply (first_byte_test_of_accepted lat1 lon1 lat2 lon2 lat lon dlat dlon);
      assumption.
Qed.

(** The range tests accept when the latitude tests pass and the
    coordinate is a pole or passes the longitude test. *)
Lemma bb_decode_checked64_accepts (bb : DecoderWithBoundingBox)
    (value : list byte) (r : LatLongCoord) :
  let d := GeoEncode64.decode value in
  (min_lat bb <= GeoEncode.lat d)%Q -> (GeoEncode.lat d <= max_lat bb)%Q ->
  (~ is_pole (GeoEncode.lat d) ->
   if discontinuous_longitude_range bb
   then (GeoEncode.lon d <= lon2 bb)%Q \/ (lon1 bb <= GeoEncode.lon d)%Q
   else (lon1 bb <= GeoEncode.lon d)%Q /\ (GeoEncode.lon d <= lon2 bb)%Q) ->
  GeoEncode64.bb_decode_checked bb value r = (true, d).
Proof.
  cbv zeta. unfold GeoEncode64.bb_decode_checked. cbv zeta.
  set (d := GeoEncode64.decode value). clearbody d.
  intros Hmin Hmax Hlon.
  apply Qltb_ge in Hmin. apply Qltb_ge in Hmax. rewrite Hmin, Hmax.
  cbn [orb].
  destruct (Qeq_bool (GeoEncode.lat d) (-90)) eqn:E3; [reflexivity|].
  destruct (Qeq_bool (GeoEncode.lat d) 90) eqn:E4; [reflexivity|].
  cbn [orb].
  assert (Hnp : ~ is_pole (GeoEncode.lat d)).
  { intros [P | P]; apply Qeq_bool_iff in P; congruence. }
  specialize (Hlon Hnp).
  destruct (discontinuous_longitude_range bb).
  - destruct Hlon as [H | H]; apply Qltb_ge in H; rewrite H;
      [reflexivity | rewrite andb_false_r; reflexivity].
  - destruct Hlon as [H1 H2]. apply Qltb_ge in H1. apply Qltb_ge in H2.
    rewrite H1, H2. reflexivity.
Qed.

(** The decoded latitude of a point at least [box_margin] above a bound,
    or of any point when the bound is the south pole, is not below it. *)
Lemma decoded_lat_above (x lat dlat : Q) (k : Z) :
  (Qabs (inject_Z k - (lat + 90) * 57600) <= (1 # 2) + tie_margin)%Q ->
  (Qabs (dlat - (inject_Z k / 57600 - 90)) <= tolerance)%Q ->
  (-90 <= dlat)%Q ->
  (x + box_margin <= lat)%Q \/ (x == -90)%Q -> (x <= dlat)%Q.
Proof.
  unfold tie_margin, tolerance, box_margin. intros Sk Dlat Hd Hc.
  apply Qabs_Qle_condition in Sk. apply Qabs_Qle_condition in Dlat.
  unfold Qdiv in Dlat. change (/ 57600)%Q with (1 # 57600)%Q in Dlat.
  set (a := inject_Z k) in *. clearbody a.
  destruct Hc as [H | H]; lra.
Qed.

Lemma decoded_lat_below (x lat dlat : Q) (k : Z) :
  (Qabs (inject_Z k - (lat + 90) * 57600) <= (1 # 2) + tie_margin)%Q ->
  (Qabs (dlat - (inject_Z k / 57600 - 90)) <= tolerance)%Q ->
  (dlat <= 90)%Q ->
  (lat + box_margin <= x)%Q \/ (x == 90)%Q -> (dlat <= x)%Q.
Proof.
  unfold tie_margin, tolerance, box_margin. intros Sk Dlat Hd Hc.
  apply Qabs_Qle_condition in Sk. apply Qabs_Qle_condition in Dlat.
  unfold Qdiv in Dlat. change (/ 57600)%Q with (1 # 57600)%Q in Dlat.
  set (a := inject_Z k) in *. clearbody a.
  destruct Hc as [H | H]; lra.
Qed.

(** The decoded longitude of a point away from the poles, against the
    wrapped longitude [w] of the point. *)
Lemma decoded_lon_cases (w dlon : Q) (raw l : Z) :
  (0 <= w)%Q -> (w < 360)%Q ->
  (Qabs (inject_Z raw - w * 57600) <= (1 # 2) + tie_margin)%Q ->
  l = (if raw =? 20736000 then 0 else raw) ->
  (Qabs (dlon - inject_Z l / 57600) <= tolerance)%Q ->
  (l = 0 -> (dlon == 0)%Q) ->
  ((w - box_margin <= dlon)%Q /\ (dlon <= w + box_margin)%Q)
  \/ ((dlon == 0)%Q /\ (360 - box_margin < w)%Q).
Proof.
  unfold tie_margin, tolerance, box_margin.
  intros W0 W1 Sl Hl Dlon Dzero.
  apply Qabs_Qle_condition in Sl. apply Qabs_Qle_condition in Dlon.
  unfold Qdiv in Dlon. change (/ 57600)%Q with (1 # 57600)%Q in Dlon.
  destruct (Z.eqb_spec raw 20736000) as [E | E].
  - right. split; [apply Dzero, Hl|].
    rewrite E in Sl. change (inject_Z 20736000) with 20736000%Q in Sl. lra.
  - left. rewrite Hl in Dlon.
    set (b := inject_Z raw) in *. clearbody b. split; lra.
Qed.

(** A latitude whose decoded value is at least [x] is not more than
    [box_margin] below [x]. *)
Lemma lat_near_above (x lat dlat : Q) (k : Z) :
  (Qabs (inject_Z k - (lat + 90) * 57600) <= (1 # 2) + tie_margin)%Q ->
  (Qabs (dlat - (inject_Z k / 57600 - 90)) <= tolerance)%Q ->
  (x <= dlat)%Q -> (x - box_margin <= lat)%Q.
Proof.
  unfold tie_margin, tolerance, box_margin. intros Sk Dlat Hc.
  apply Qabs_Qle_condition in Sk. apply Qabs_Qle_condition in Dlat.
  unfold Qdiv in Dlat. change (/ 57600)%Q with (1 # 57600)%Q in Dlat.
  set (a := inject_Z k) in *. clearbody a. lra.
Qed.

Lemma lat_near_below (x lat dlat : Q) (k : Z) :
  (Qabs (inject_Z k - (lat + 90) * 57600) <= (1 # 2) + tie_margin)%Q ->
  (Qabs (dlat - (inject_Z k / 57600 - 90)) <= tolerance)%Q ->
  (dlat <= x)%Q -> (lat <= x + box_margin)%Q.
Proof.
  unfold tie_margin, tolerance, box_margin. intros Sk Dlat Hc.
  apply Qabs_Qle_condition in Sk. apply Qabs_Qle_condition in Dlat.
  unfold Qdiv in Dlat. change (/ 57600)%Q with (1 # 57600)%Q in Dlat.
  set (a := inject_Z k) in *. clearbody a. lra.
Qed.

End Box64.

(** The constructor stores both corner longitudes wrapped into [0, 360]:
    each is within one rounding of the argument's value in [0, 360), and
    it can be 360 itself, as for [lon2 = -2^-70]. *)
Theorem box_longitudes_are_wrapped (lat1 lon1_ lat2 lon2_ : Q) :
  let bb := GeoEncode64.new_DecoderWithBoundingBox lat1 lon1_ lat2 lon2_ in
  ((0 <= lon1 bb)%Q /\ (lon1 bb <= 360)%Q
   /\ (Qabs (lon1 bb - wrap360 lon1_) <= 360 * unit_roundoff)%Q)
  /\ ((0 <= lon2 bb)%Q /\ (lon2 bb <= 360)%Q
      /\ (Qabs (lon2 bb - wrap360 lon2_) <= 360 * unit_roundoff)%Q)
  /\ discontinuous_longitude_range bb = Qltb (lon2 bb) (lon1 bb)
  /\ (lon2 (GeoEncode64.new_DecoderWithBoundingBox
              0 0 0 (- (1 # 1180591620717411303424))) == 360)%Q.
Proof.
  cbv zeta.
  destruct (new64_fields lat1 lon1_ lat2 lon2_) as (F1 & F2 & _ & _ & F5 & _).
  cbv zeta in F1, F2, F5. rewrite F1, F2, F5.
  destruct (wrap360_64_spec lon1_) as (A0 & A1 & A2).
  destruct (wrap360_64_spec lon2_) as (B0 & B1 & B2).
  pose proof (wrap360_64_le lon1_) as A3.
  pose proof (wrap360_64_le lon2_) as B3.
  repeat split; try assumption; try reflexivity;
    apply Qabs_Qle_condition; split; lra.
Qed.

(** With corner latitudes in [-90, 90] and an eastern longitude whose
    units do not round up to the full turn, the first-byte test never
    changes the outcome: on the bytes of any valid coordinate the box
    decoder returns what its range tests on the decoded coordinate
    return. *)
Theorem bb_decode_first_byte_test_sound
    (lat1 lon1 lat2 lon2 lat lon : Q) (r : LatLongCoord) :
  (-90 <= lat1)%Q -> (lat1 <= 90)%Q -> (-90 <= lat2)%Q -> (lat2 <= 90)%Q ->
  (-90 <= lat)%Q -> (lat <= 90)%Q ->
  round (rnd (wrap360_64 lon2 * 57600))%Q <> 20736000 ->
  GeoEncode64.bb_decode
    (GeoEncode64.new_DecoderWithBoundingBox lat1 lon1 lat2 lon2)
    (snd (GeoEncode64.encode lat lon [])) r
  = GeoEncode64.bb_decode_checked
      (GeoEncode64.new_DecoderWithBoundingBox lat1 lon1 lat2 lon2)
      (snd (GeoEncode64.encode lat lon [])) r.
Proof. apply bb_decode64_of_encoded. Qed.

Lemma bb_decode_first_byte_test_sound_witness :
  GeoEncode64.bb_decode
    (GeoEncode64.new_DecoderWithBoundingBox (-10) 0 dbl_0_2 50)
    (snd (GeoEncode64.encode dbl_0_2 dbl_23_8 [])) (mkLatLongCoord 7 7)
  = GeoEncode64.bb_decode_checked
      (GeoEncode64.new_DecoderWithBoundingBox (-10) 0 dbl_0_2 50)
      (snd (GeoEncode64.encode dbl_0_2 dbl_23_8 [])) (mkLatLongCoord 7 7).
Proof.
  apply (bb_decode_first_byte_test_sound (-10) 0 dbl_0_2 50 dbl_0_2 dbl_23_8
           (mkLatLongCoord 7 7)).
  - unfold Qle; cbn; lia.
  - unfold Qle; cbn; lia.
  - unfold Qle; cbn; lia.
  - unfold Qle; cbn; lia.
  - unfold Qle; cbn; lia.
  - unfold Qle; cbn; lia.
  - vm_compute. discriminate.
Defined.

(** The box decoder accepts the bytes of a valid coordinate only if the
    coordinate is in the box or within [box_margin] of it: its latitude is
    not more than [box_margin] outside the corner latitudes, and it
    decodes to a pole or its wrapped longitude is not more than
    [box_margin] outside the stored longitude range (a wrapped longitude
    within [box_margin] of 360 counting as 0).  This holds for every box,
    whatever its corners. *)
Theorem bb_decode_accepts_only_near_box
    (lat1 lon1 lat2 lon2 lat lon : Q) (r : LatLongCoord) :
  let bb := GeoEncode64.new_DecoderWithBoundingBox lat1 lon1 lat2 lon2 in
  let d := GeoEncode64.decode (snd (GeoEncode64.encode lat lon [])) in
  (-90 <= lat)%Q -> (lat <= 90)%Q ->
  fst (GeoEncode64.bb_decode bb (snd (GeoEncode64.encode lat lon [])) r)
  = true ->
  (lat1 - box_margin <= lat)%Q /\ (lat <= lat2 + box_margin)%Q
  /\ (is_pole (GeoEncode.lat d)
      \/ (discontinuous_longitude_range bb = true
          /\ ((wrap360 lon <= GeoEncode.lon2 bb + box_margin)%Q
              \/ (GeoEncode.lon1 bb - box_margin <= wrap360 lon)%Q))
      \/ (discontinuous_longitude_range bb = false
          /\ (((GeoEncode.lon1 bb - box_margin <= wrap360 lon)%Q
               /\ (wrap360 lon <= GeoEncode.lon2 bb + box_margin)%Q)
              \/ ((GeoEncode.lon1 bb == 0)%Q
                  /\ (360 - box_margin < wrap360 lon)%Q)))).
Proof.
  cbv zeta. intros Hlo Hhi.
  rewrite (encode64_in_range lat lon [] Hlo Hhi). cbn [snd app].
  destruct (new64_fields lat1 lon1 lat2 lon2) as (F1 & F2 & F3 & F4 & F5 & _).
  cbv zeta in F1, F2, F3, F4, F5.
  destruct (lat_units64_spec lat Hlo Hhi) as [Rk Sk].
  destruct (wrapped_units64_spec lon) as [Rl Sl].
  destruct (decode64_encoded_units lat lon Hlo Hhi) as (Dlat & Dlon & Dzero).
  cbv zeta in Dlat, Dlon, Dzero.
  pose proof (decoded64_pole_iff lat lon Hlo Hhi) as Hpole.
  pose proof (wrap360_range lon) as [W0 W1].
  destruct (wrap360_64_spec lon1) as (V1 & _ & _).
  pose proof (wrap360_64_le lon2) as V3.
  pose proof (wrap360_64_le lon1) as V4.
  set (bb := GeoEncode64.new_DecoderWithBoundingBox lat1 lon1 lat2 lon2) in *.
  set (buf := field_bytes _ _) in *.
  intros Hacc.
  assert (Hchk : fst (GeoEncode64.bb_decode_checked bb buf r) = true).
  { destruct (bb_decode64_rejects_or_checks bb buf r) as [E | E];
      rewrite E in Hacc; [discriminate | exact Hacc]. }
  clear Hacc.
  destruct (bb_decode_checked64_cases bb buf r) as [Hrej | Hok];
    [rewrite Hrej in Hchk; discriminate|].
  destruct Hok as (_ & Hmin & Hmax & Hcase).
  rewrite F1, F2, F3, F4, F5 in *.
  split; [exact (lat_near_above lat1 lat _ _ Sk Dlat Hmin)|].
  split; [exact (lat_near_below lat2 lat _ _ Sk Dlat Hmax)|].
  destruct Hcase as [P | [P | Hcase]]; [left; left; exact P
                                       | left; right; exact P |].
  destruct (Qeq_bool (GeoEncode.lat (GeoEncode64.decode buf)) (-90)) eqn:E3;
    [left; left; apply Qeq_bool_iff; exact E3|].
  destruct (Qeq_bool (GeoEncode.lat (GeoEncode64.decode buf)) 90) eqn:E4;
    [left; right; apply Qeq_bool_iff; exact E4|].
  right.
  assert (Hnp : ~ is_pole (GeoEncode.lat (GeoEncode64.decode buf))).
  { intros [P | P]; apply Qeq_bool_iff in P; congruence. }
  assert (Hk0 : lat_units64 lat <> 0) by (intros E; apply Hnp, Hpole; auto).
  assert (Hk1 : lat_units64 lat <> 10368000)
    by (intros E; apply Hnp, Hpole; auto).
  assert (Hl : lon_units64 lat lon
               = if round (rnd (wrap360_64 lon * 57600))%Q =? 20736000
                 then 0 else round (rnd (wrap360_64 lon * 57600))%Q).
  { unfold lon_units64.
    replace ((lat_units64 lat =? 0) || (lat_units64 lat =? 10368000))
      with false by (symmetry; apply orb_false_iff; rewrite !Z.eqb_neq; auto).
    reflexivity. }
  pose proof (decoded_lon_cases _ _ _ _ W0 W1 Sl Hl Dlon Dzero) as Hc.
  set (dlon := GeoEncode.lon (GeoEncode64.decode buf)) in *. clearbody dlon.
  clear - Hc Hcase V1 V3 V4 W0 W1. unfold box_margin in *.
  destruct Hcase as [[E Hd] | [E [Hd1 Hd2]]]; [left | right];
    (split; [exact E|]).
  - destruct Hc as [[C1 C2] | [C1 C2]].
    + destruct Hd as [H | H]; [left | right]; lra.
    + right. lra.
  - destruct Hc as [[C1 C2] | [C1 C2]].
    + left. split; lra.
    + right. split; lra.
Qed.

Lemma bb_decode_accepts_only_near_box_witness :
  (-90 - box_margin <= 0)%Q /\ (0 <= 10 + box_margin)%Q
  /\ (is_pole (GeoEncode.lat (GeoEncode64.decode
                                (snd (GeoEncode64.encode 0 10 []))))
      \/ (discontinuous_longitude_range
            (GeoEncode64.new_DecoderWithBoundingBox (-90) (-60) 10 50) = true
          /\ ((wrap360 10
               <= GeoEncode.lon2
                    (GeoEncode64.new_DecoderWithBoundingBox (-90) (-60) 10 50)
                  + box_margin)%Q
              \/ (GeoEncode.lon1
                    (GeoEncode64.new_DecoderWithBoundingBox (-90) (-60) 10 50)
                  - box_margin <= wrap360 10)%Q))
      \/ (discontinuous_longitude_range
            (GeoEncode64.new_DecoderWithBoundingBox (-90) (-60) 10 50) = false
          /\ (((GeoEncode.lon1
                  (GeoEncode64.new_DecoderWithBoundingBox (-90) (-60) 10 50)
                - box_margin <= wrap360 10)%Q
               /\ (wrap360 10
                   <= GeoEncode.lon2
                        (GeoEncode64.new_DecoderWithBoundingBox
                           (-90) (-60) 10 50)
                      + box_margin)%Q)
              \/ ((GeoEncode.lon1
                     (GeoEncode64.new_DecoderWithBoundingBox
                        (-90) (-60) 10 50) == 0)%Q
                  /\ (360 - box_margin < wrap360 10)%Q)))).
Proof.
  apply (bb_decode_accepts_only_near_box (-90) (-60) 10 50 0 10
           (mkLatLongCoord 7 7)).
  - unfold Qle; cbn; lia.
  - unfold Qle; cbn; lia.
  - vm_compute. reflexivity.
Defined.

(** With corner latitudes in [-90, 90] and an eastern longitude whose
    units do not round up to the full turn, the box decoder accepts the
    bytes of every valid coordinate that is inside the box by
    [box_margin]: its latitude at least [box_margin] inside the corner
    latitudes (or the corner latitude is the pole itself), and its wrapped
    longitude at least [box_margin] inside the stored longitude range,
    taken across the seam when the stored [lon1] is above the stored
    [lon2].  The result is the decoded coordinate. *)
Theorem bb_decode_accepts_inside_with_margin
    (lat1 lon1 lat2 lon2 lat lon : Q) (r : LatLongCoord) :
  let bb := GeoEncode64.new_DecoderWithBoundingBox lat1 lon1 lat2 lon2 in
  (-90 <= lat1)%Q -> (lat1 <= 90)%Q -> (-90 <= lat2)%Q -> (lat2 <= 90)%Q ->
  (-90 <= lat)%Q -> (lat <= 90)%Q ->
  round (rnd (wrap360_64 lon2 * 57600))%Q <> 20736000 ->
  (lat1 + box_margin <= lat)%Q \/ (lat1 == -90)%Q ->
  (lat + box_margin <= lat2)%Q \/ (lat2 == 90)%Q ->
  (if discontinuous_longitude_range bb
   then (wrap360 lon + box_margin <= GeoEncode.lon2 bb)%Q
        \/ (GeoEncode.lon1 bb + box_margin <= wrap360 lon)%Q
   else (GeoEncode.lon1 bb + box_margin <= wrap360 lon)%Q
        /\ (wrap360 lon + box_margin <= GeoEncode.lon2 bb)%Q) ->
  GeoEncode64.bb_decode bb (snd (GeoEncode64.encode lat lon [])) r
  = (true, GeoEncode64.decode (snd (GeoEncode64.encode lat lon []))).
Proof.
  cbv zeta. intros H1lo H1hi H2lo H2hi Hlo Hhi Hfold Hsouth Hnorth Hlon.
  rewrite bb_decode64_of_encoded by assumption.
  rewrite (encode64_in_range lat lon [] Hlo Hhi). cbn [snd app].
  destruct (new64_fields lat1 lon1 lat2 lon2) as (F1 & F2 & F3 & F4 & F5 & _).
  cbv zeta in F1, F2, F3, F4, F5.
  destruct (lat_units64_spec lat Hlo Hhi) as [Rk Sk].
  destruct (wrapped_units64_spec lon) as [Rl Sl].
  destruct (decode64_encoded_units lat lon Hlo Hhi) as (Dlat & Dlon & Dzero).
  cbv zeta in Dlat, Dlon, Dzero.
  pose proof (decoded64_pole_iff lat lon Hlo Hhi) as Hpole.
  pose proof (decoded64_lat_range lat lon Hlo Hhi) as [Dlo Dhi].
  cbv zeta in Dlo, Dhi.
  pose proof (wrap360_range lon) as [W0 W1].
  destruct (wrap360_64_spec lon2) as (V2 & _ & _).
  pose proof (wrap360_64_le lon2) as V3.
  apply bb_decode_checked64_accepts; rewrite ?F1, ?F2, ?F3, ?F4, ?F5.
  - apply (decoded_lat_above lat1 lat _ _ Sk Dlat Dlo Hsouth).
  - apply (decoded_lat_below lat2 lat _ _ Sk Dlat Dhi Hnorth).
  - intros Hnp.
    assert (Hk0 : lat_units64 lat <> 0) by (intros E; apply Hnp, Hpole; auto).
    assert (Hk1 : lat_units64 lat <> 10368000)
      by (intros E; apply Hnp, Hpole; auto).
    assert (Hl : lon_units64 lat lon
                 = if round (rnd (wrap360_64 lon * 57600))%Q =? 20736000
                   then 0 else round (rnd (wrap360_64 lon * 57600))%Q).
    { unfold lon_units64.
      replace ((lat_units64 lat =? 0) || (lat_units64 lat =? 10368000))
        with false by (symmetry; apply orb_false_iff; rewrite !Z.eqb_neq; auto).
      reflexivity. }
    pose proof (decoded_lon_cases _ _ _ _ W0 W1 Sl Hl Dlon Dzero) as Hc.
    rewrite F1, F2, F5 in Hlon.
    set (dlon := GeoEncode.lon (GeoEncode64.decode _)) in *. clearbody dlon.
    clear - Hc Hlon V2 V3 W0 W1. unfold box_margin in *.
    destruct (Qltb (wrap360_64 lon2) (wrap360_64 lon1)).
    + destruct Hc as [[C1 C2] | [C1 C2]].
      * destruct Hlon as [H | H]; [left | right]; lra.
      * left. lra.
    + destruct Hlon as [H1 H2].
      destruct Hc as [[C1 C2] | [C1 C2]]; split; lra.
Qed.

Lemma bb_decode_accepts_inside_with_margin_witness :
  GeoEncode64.bb_decode
    (GeoEncode64.new_DecoderWithBoundingBox (-90) (-60) 10 50)
    (snd (GeoEncode64.encode dbl_0_2 dbl_23_8 [])) (mkLatLongCoord 7 7)
  = (true, GeoEncode64.decode (snd (GeoEncode64.encode dbl_0_2 dbl_23_8 []))).
Proof.
  apply (bb_decode_accepts_inside_with_margin
           (-90) (-60) 10 50 dbl_0_2 dbl_23_8 (mkLatLongCoord 7 7)).
  - unfold Qle; cbn; lia.
  - unfold Qle; cbn; lia.
  - unfold Qle; cbn; lia.
  - unfold Qle; cbn; lia.
  - unfold Qle; cbn; lia.
  - unfold Qle; cbn; lia.
  - vm_compute. discriminate.
  - right. reflexivity.
  - left. unfold Qle; cbn; lia.
  - vm_compute. left. discriminate.
Defined.

(** The three boxes next to which the rounding of [decode] shows: the box
    [(-10, 0, 0.2, 50)] rejects the encoding of [(0.2, 23.8)], whose
    latitude decodes to [0.20000000000000284], above [max_lat]; the box
    [(0.200000000000001, 0, 10, 50)] accepts it; and the box
    [(-10, 10, 10, 360 - 2^-20)], whose eastern corner folds, rejects the
    encoding of [(0, 100)] before the range tests, which accept it. *)
Example bb_decode_next_to_the_edges :
  fst (GeoEncode64.bb_decode
         (GeoEncode64.new_DecoderWithBoundingBox (-10) 0 dbl_0_2 50)
         (snd (GeoEncode64.encode dbl_0_2 dbl_23_8 [])) (mkLatLongCoord 7 7))
  = false
  /\ fst (GeoEncode64.bb_decode
            (GeoEncode64.new_DecoderWithBoundingBox dbl_above_0_2 0 10 50)
            (snd (GeoEncode64.encode dbl_0_2 dbl_23_8 []))
            (mkLatLongCoord 7 7))
     = true
  /\ GeoEncode64.bb_decode
       (GeoEncode64.new_DecoderWithBoundingBox
          (-10) 10 10 (360 - (1 # 1048576)))
       (snd (GeoEncode64.encode 0 100 [])) (mkLatLongCoord 7 7)
     = (false, mkLatLongCoord 7 7)
  /\ fst (GeoEncode64.bb_decode_checked
            (GeoEncode64.new_DecoderWithBoundingBox
               (-10) 10 10 (360 - (1 # 1048576)))
            (snd (GeoEncode64.encode 0 100 [])) (mkLatLongCoord 7 7))
     = true.
Proof. repeat split; vm_compute; reflexivity. Qed.
